(** * Premium keys, broadcast scheduling and the JSON store of the Telegram bot

    A shallow embedding of [main.py] (and of the cooldown variant of the
    resend handler in [test.py]).  Module globals of the bot become the
    fields of one record, handlers become functions from that record (plus
    the inputs the update carries and the answers of the outside world) to
    the new record and the reply sent to the user. *)

From Stdlib Require Import ZArith NArith List String Ascii Bool Lia.
From stdpp Require Import base option list gmap.
Import ListNotations.
Local Open Scope Z_scope.
Set Warnings "-register-all".

(** ** Python [str] values

    A Python string is a sequence of Unicode code points.  Literals of the
    source that are plain ASCII are written through [u]. *)
Module Text.

Abbreviation text := (list N).

Definition u (s : string) : text := map N_of_ascii (list_ascii_of_string s).

(** [str.isspace] on one code point: the characters [str.strip()] removes. *)
Definition is_space (c : N) : bool :=
  ((9 <=? c) && (c <=? 13) || (28 <=? c) && (c <=? 32)
   || (c =? 133) || (c =? 160) || (c =? 5760)
   || (8192 <=? c) && (c <=? 8202)
   || (c =? 8232) || (c =? 8233) || (c =? 8239) || (c =? 8287)
   || (c =? 12288))%N.

Fixpoint lstrip (s : text) : text :=
  match s with
  | c :: s' => if is_space c then lstrip s' else s
  | [] => []
  end.

Definition rstrip (s : text) : text := rev (lstrip (rev s)).

(** [s.strip()] *)
Definition strip (s : text) : text := rstrip (lstrip s).

Definition is_ascii_lower (c : N) : bool := ((97 <=? c) && (c <=? 122))%N.
Definition is_ascii_upper (c : N) : bool := ((65 <=? c) && (c <=? 90))%N.
Definition is_ascii_digit (c : N) : bool := ((48 <=? c) && (c <=? 57))%N.

Section Upper.
(** The uppercase expansion of a code point outside ASCII comes from the
    Unicode tables of the Python runtime (one to three code points). *)
Variable unicode_upper : N -> text.

Definition upper_cp (c : N) : text :=
  if is_ascii_lower c then [(c - 32)%N]
  else if (c <? 128)%N then [c]
  else unicode_upper c.

(** [s.upper()] *)
Definition upper (s : text) : text := flat_map upper_cp s.
End Upper.

(** [str(n)] for a Python int. *)
Fixpoint digits_of_pos (fuel : nat) (n : N) (acc : text) : text :=
  match fuel with
  | O => acc
  | S fuel' =>
      let acc' := (48 + n mod 10)%N :: acc in
      if (n <? 10)%N then acc' else digits_of_pos fuel' (n / 10)%N acc'
  end.

Definition str_of_N (n : N) : text := digits_of_pos (S (N.to_nat (N.log2 n))) n [].

Definition str_of_Z (z : Z) : text :=
  match z with
  | Z0 => u "0"
  | Zpos p => str_of_N (Npos p)
  | Zneg p => 45%N :: str_of_N (Npos p)
  end.

(** [a == b] on strs. *)
Fixpoint text_eqb (a b : text) : bool :=
  match a, b with
  | [], [] => true
  | c :: a', d :: b' => (c =? d)%N && text_eqb a' b'
  | _, _ => false
  end.

(** Does [needle] occur in [s] ([needle in s] on strs)? *)
Fixpoint is_prefix (p s : text) : bool :=
  match p, s with
  | [], _ => true
  | c :: p', d :: s' => (c =? d)%N && is_prefix p' s'
  | _ :: _, [] => false
  end.

Fixpoint occurs (needle s : text) : bool :=
  is_prefix needle s || match s with [] => false | _ :: s' => occurs needle s' end.

End Text.
Import Text.

(** ** [datetime] values

    The bot only creates naive datetimes ([datetime.now()] and sums with
    [timedelta(days=...)]). *)
Module Datetime.

Record datetime := mkDatetime {
  year : N; month : N; day : N;
  hour : N; minute : N; second : N; microsecond : N
}.

Definition fields (d : datetime) : list N :=
  [year d; month d; day d; hour d; minute d; second d; microsecond d].

(** Comparison of two naive datetimes: field by field, most significant
    first. *)
Fixpoint lex_lt (a b : list N) : bool :=
  match a, b with
  | x :: a', y :: b' => (x <? y)%N || ((x =? y)%N && lex_lt a' b')
  | _, _ => false
  end.

Definition dt_lt (a b : datetime) : bool := lex_lt (fields a) (fields b).
(** [a > b] *)
Definition dt_gt (a b : datetime) : bool := dt_lt b a.

Definition is_leap (y : N) : bool :=
  ((y mod 4 =? 0) && (negb (y mod 100 =? 0) || (y mod 400 =? 0)))%N.

Definition days_in_month (y m : N) : N :=
  (if (m =? 2) then (if is_leap y then 29 else 28)
   else if (m =? 4) || (m =? 6) || (m =? 9) || (m =? 11) then 30 else 31)%N.

(** The field ranges the [datetime] constructor enforces. *)
Definition valid (d : datetime) : bool :=
  ((1 <=? year d) && (year d <=? 9999) && (1 <=? month d) && (month d <=? 12)
   && (1 <=? day d) && (day d <=? days_in_month (year d) (month d))
   && (hour d <? 24) && (minute d <? 60) && (second d <? 60)
   && (microsecond d <? 1000000))%N.

(** *** [isoformat] and [fromisoformat] *)

(** [w] decimal digits of [n], zero padded, as the format [%0wd] prints a
    number below [10^w]. *)
Fixpoint pad (w : nat) (n : N) : text :=
  match w with
  | O => []
  | S w' => (48 + (n / 10 ^ N.of_nat w') mod 10)%N :: pad w' n
  end.

Definition isoformat (d : datetime) : text :=
  pad 4 (year d) ++ u "-" ++ pad 2 (month d) ++ u "-" ++ pad 2 (day d)
  ++ u "T" ++ pad 2 (hour d) ++ u ":" ++ pad 2 (minute d) ++ u ":"
  ++ pad 2 (second d)
  ++ (if (microsecond d =? 0)%N then [] else u "." ++ pad 6 (microsecond d)).

Fixpoint take_num (w : nat) (acc : N) (s : text) : option (N * text) :=
  match w with
  | O => Some (acc, s)
  | S w' =>
      match s with
      | c :: s' =>
          if is_ascii_digit c then take_num w' (10 * acc + (c - 48))%N s'
          else None
      | [] => None
      end
  end.

Definition expect (c : N) (s : text) : option text :=
  match s with
  | c' :: s' => if (c' =? c)%N then Some s' else None
  | [] => None
  end.

(** [datetime.fromisoformat] on the two layouts [isoformat] prints for a
    naive datetime, [YYYY-MM-DDTHH:MM:SS] and [YYYY-MM-DDTHH:MM:SS.ffffff];
    [None] stands for [ValueError].  (The library reads a few more layouts;
    the bot never writes them.) *)
Definition fromisoformat (s : text) : option datetime :=
  '(y, s) ← take_num 4 0 s; s ← expect 45 s;
  '(mo, s) ← take_num 2 0 s; s ← expect 45 s;
  '(d, s) ← take_num 2 0 s; s ← expect 84 s;
  '(h, s) ← take_num 2 0 s; s ← expect 58 s;
  '(mi, s) ← take_num 2 0 s; s ← expect 58 s;
  '(se, s) ← take_num 2 0 s;
  '(us, s) ← match s with
             | [] => Some (0%N, [])
             | _ => s ← expect 46 s; take_num 6 0 s
             end;
  match s with
  | [] => let r := mkDatetime y mo d h mi se us in
          if valid r then Some r else None
  | _ => None
  end.

(** *** Differences of datetimes *)

Definition days_before_year (y : N) : N :=
  ((y - 1) * 365 + (y - 1) / 4 - (y - 1) / 100 + (y - 1) / 400)%N.

Definition days_before_month (y m : N) : N :=
  (nth (N.to_nat m) [0; 0; 31; 59; 90; 120; 151; 181; 212; 243; 273; 304; 334] 0
   + (if (2 <? m) && is_leap y then 1 else 0))%N.

Definition toordinal (d : datetime) : N :=
  (days_before_year (year d) + days_before_month (year d) (month d) + day d)%N.

(** Microseconds since the start of the proleptic calendar. *)
Definition to_micros (d : datetime) : Z :=
  Z.of_N (((toordinal d * 86400 + hour d * 3600 + minute d * 60 + second d)
           * 1000000 + microsecond d)%N).

(** [(a - b).total_seconds() < secs] for an integer number of seconds. *)
Definition elapsed_lt (a b : datetime) (secs : Z) : bool :=
  to_micros a - to_micros b <? secs * 1000000.

End Datetime.
Import Datetime.

(** ** Replies

    What a handler sends back: the message text and the inline keyboard. *)
Module Reply.

Inductive button_action :=
| Callback (data : text)
| Url (url : text).

Record button := mkButton { b_label : text; b_action : button_action }.

Record reply := mkReply { r_text : text; r_markup : list (list button) }.

Definition cross : N := 10060.       (* U+274C *)
Definition check_mark : N := 9989.   (* U+2705 *)
Definition party : N := 127881.      (* U+1F389 *)
Definition hourglass : N := 9203.    (* U+23F3 *)
Definition calendar : N := 128197.   (* U+1F4C5 *)
Definition info : text := [8505; 65039]%N. (* U+2139 U+FE0F *)
Definition arrows : N := 128260.     (* U+1F504 *)
Definition up_sign : N := 127385.    (* U+1F199 *)
Definition house : N := 127968.      (* U+1F3E0 *)
Definition back_arrow : N := 128281. (* U+1F519 *)
Definition plus_sign : N := 10133.   (* U+2795 *)
Definition phone_arrow : N := 128242. (* U+1F4F2 *)
Definition nl : N := 10.

Definition btn (label : text) (data : string) : button :=
  mkButton label (Callback (u data)).

Definition btn_back : button := btn (back_arrow :: u " Orqaga") "back_to_start".
Definition btn_menu : button := btn (house :: u " Menyu") "start".
Definition btn_retry_key : button := btn (arrows :: u " Qayta urinish") "activate_key".
Definition btn_request_premium : button :=
  btn (up_sign :: u " Premium so'rov") "request_premium".
Definition btn_add_group : button := btn (plus_sign :: u " Guruh qo'shish") "add_group".
Definition btn_connect : button :=
  btn (phone_arrow :: u " Telegramni ulash") "connect_account".

End Reply.
Import Reply.

(** ** The bot's globals *)
Module Bot.

(** The values of [user_data[user_id]["state"]] that [main.py] assigns. *)
Inductive conv_state :=
| waiting_api_id | waiting_api_hash | waiting_phone_number
| waiting_verification_code | waiting_password | waiting_group_link
| confirming_group | waiting_key_activation | waiting_message
| waiting_interval.

(** [user_data[user_id]]: a dict whose keys come and go. *)
Record user_rec := mkUserRec {
  ud_state : option conv_state;
  ud_message : option text;
  ud_interval : option Z;
  ud_temp_group : option (text * text);       (* username, link *)
  ud_client : option nat;
  ud_phone_code_hash : option text
}.

(** A grant's ["expiry"] is a [datetime]; [is_premium] also accepts the
    ISO string a store loaded without conversion would hold. *)
Inductive expiry_value :=
| ExpDatetime (d : datetime)
| ExpStr (s : text).

(** [premium_users[user_id]] *)
Record grant := mkGrant {
  g_expiry : expiry_value;
  g_key : text;
  g_admin_id : option Z;
  g_days : Z
}.

(** [generated_keys[key]]; ["user_id"] is [None] until the key is redeemed. *)
Record key_record := mkKeyRecord {
  k_user_id : option Z;
  k_expiry : datetime;
  k_admin_id : option Z;
  k_days : Z
}.

(** [telegram_accounts[user_id]] *)
Record account := mkAccount {
  a_api_id : option Z;
  a_api_hash : option text;
  a_phone : option text;
  a_session : option text;
  a_client : option nat;
  a_phone_code_hash : option text;
  a_connected_at : option datetime
}.

(** [user_groups[user_id][group_id]] *)
Record group := mkGroup { gr_title : text; gr_link : text; gr_username : text }.

(** [auto_folders[user_id]] *)
Record folder := mkFolder { fo_folder_name : text; fo_groups : list Z }.

(** A job of the job queue, as [run_repeating] registers it.  A job is
    known by its position in the queue; a removed job keeps its place. *)
Record job := mkJob {
  j_name : text;
  j_interval : Z;          (* seconds *)
  j_first : Z;             (* seconds *)
  j_user_id : Z;           (* data["user_id"] *)
  j_message : text;        (* data["message"] *)
  j_removed : bool
}.

(** The JSON files, each holding what the last [save_data] on it wrote. *)
Record disk := mkDisk {
  file_premium_users : gmap Z grant;
  file_generated_keys : gmap text key_record;
  file_telegram_accounts : option (gmap Z account);   (* None: unreadable *)
  file_auto_folders : gmap Z folder
}.

Record bot := mkBot {
  ADMIN_ID : option Z;
  ADMIN_USERNAME : text;
  user_data : gmap Z user_rec;
  premium_users : gmap Z grant;
  generated_keys : gmap text key_record;
  telegram_accounts : gmap Z account;
  user_groups : gmap Z (list (Z * group));   (* inner dict, insertion order *)
  auto_folders : gmap Z folder;
  message_jobs : gmap Z (list nat);          (* handles into the job queue *)
  job_queue : option (list job);             (* context.job_queue *)
  files : disk
}.

Definition set_user_data (b : bot) v : bot :=
  mkBot (ADMIN_ID b) (ADMIN_USERNAME b) v (premium_users b) (generated_keys b)
        (telegram_accounts b) (user_groups b) (auto_folders b) (message_jobs b)
        (job_queue b) (files b).
Definition set_premium_users (b : bot) v : bot :=
  mkBot (ADMIN_ID b) (ADMIN_USERNAME b) (user_data b) v (generated_keys b)
        (telegram_accounts b) (user_groups b) (auto_folders b) (message_jobs b)
        (job_queue b) (files b).
Definition set_generated_keys (b : bot) v : bot :=
  mkBot (ADMIN_ID b) (ADMIN_USERNAME b) (user_data b) (premium_users b) v
        (telegram_accounts b) (user_groups b) (auto_folders b) (message_jobs b)
        (job_queue b) (files b).
Definition set_telegram_accounts (b : bot) v : bot :=
  mkBot (ADMIN_ID b) (ADMIN_USERNAME b) (user_data b) (premium_users b)
        (generated_keys b) v (user_groups b) (auto_folders b) (message_jobs b)
        (job_queue b) (files b).
Definition set_auto_folders (b : bot) v : bot :=
  mkBot (ADMIN_ID b) (ADMIN_USERNAME b) (user_data b) (premium_users b)
        (generated_keys b) (telegram_accounts b) (user_groups b) v
        (message_jobs b) (job_queue b) (files b).
Definition set_message_jobs (b : bot) v : bot :=
  mkBot (ADMIN_ID b) (ADMIN_USERNAME b) (user_data b) (premium_users b)
        (generated_keys b) (telegram_accounts b) (user_groups b)
        (auto_folders b) v (job_queue b) (files b).
Definition set_job_queue (b : bot) v : bot :=
  mkBot (ADMIN_ID b) (ADMIN_USERNAME b) (user_data b) (premium_users b)
        (generated_keys b) (telegram_accounts b) (user_groups b)
        (auto_folders b) (message_jobs b) v (files b).
Definition set_files (b : bot) v : bot :=
  mkBot (ADMIN_ID b) (ADMIN_USERNAME b) (user_data b) (premium_users b)
        (generated_keys b) (telegram_accounts b) (user_groups b)
        (auto_folders b) (message_jobs b) (job_queue b) v.

(** [save_data(FILE, store)] for the stores the handlers below persist. *)
Definition save_premium_users (b : bot) : bot :=
  set_files b (mkDisk (premium_users b) (file_generated_keys (files b))
                      (file_telegram_accounts (files b)) (file_auto_folders (files b))).
Definition save_generated_keys (b : bot) : bot :=
  set_files b (mkDisk (file_premium_users (files b)) (generated_keys b)
                      (file_telegram_accounts (files b)) (file_auto_folders (files b))).
Definition save_auto_folders (b : bot) : bot :=
  set_files b (mkDisk (file_premium_users (files b)) (file_generated_keys (files b))
                      (file_telegram_accounts (files b)) (auto_folders b)).

(** A [PyrogramClient] object kept in an account makes [json.dump] raise
    [TypeError]; [save_data] logs it and leaves the file cut short. *)
Definition serializable_accounts (m : gmap Z account) : bool :=
  bool_decide (map_Forall (fun _ a => a_client a = None) m).

Definition save_telegram_accounts (b : bot) : bot :=
  set_files b (mkDisk (file_premium_users (files b)) (file_generated_keys (files b))
                      (if serializable_accounts (telegram_accounts b)
                       then Some (telegram_accounts b) else None)
                      (file_auto_folders (files b))).

End Bot.
Import Bot.

(** ** Keys and subscriptions *)
Module KeyManager.

(** *** [re.match(r"^PREMIUM-[A-Z0-9]{8,12}$", text)] *)

Definition is_key_char (c : N) : bool := is_ascii_upper c || is_ascii_digit c.

Fixpoint strip_prefix (p s : text) : option text :=
  match p, s with
  | [], _ => Some s
  | c :: p', d :: s' => if (c =? d)%N then strip_prefix p' s' else None
  | _ :: _, [] => None
  end.

(** [$]: the end of the string, or just before a newline that ends it. *)
Definition at_dollar (s : text) : bool :=
  match s with
  | [] => true
  | [c] => (c =? 10)%N
  | _ => false
  end.

(** [[A-Z0-9]{lo,hi}$], greedy with backtracking: take one more character
    of the class while allowed, otherwise stop here if [lo] were taken. *)
Fixpoint key_chars_then_end (lo hi : nat) (s : text) : bool :=
  let stop := (lo =? 0)%nat && at_dollar s in
  match hi with
  | O => stop
  | S hi' =>
      match s with
      | c :: s' =>
          if is_key_char c then key_chars_then_end (Nat.pred lo) hi' s' || stop
          else stop
      | [] => stop
      end
  end.

Definition match_key_format (t : text) : bool :=
  match strip_prefix (u "PREMIUM-") t with
  | Some rest => key_chars_then_end 8 12 rest
  | None => false
  end.

(** *** [generate_key] *)

(** [string.ascii_uppercase + string.digits] *)
Definition chars : text := u "ABCDEFGHIJKLMNOPQRSTUVWXYZ0123456789".

(** [random.choice(chars)] with the generator's draw [r]. *)
Definition random_choice (r : nat) : N := nth (r mod 36) chars 0%N.

(** [generate_key(length)]; [rnd i] is the [i]-th draw of the generator. *)
Definition generate_key (length : nat) (rnd : nat -> nat) : text :=
  u "PREMIUM-" ++ map (fun i => random_choice (rnd i)) (seq 0 length).

(** The characters a key is made of: [A-Z], [0-9] and the dash. *)
Definition key_alpha (c : N) : bool := is_key_char c || (c =? 45)%N.

(** [c'] is [c] up to letter case, for [c] of the key alphabet. *)
Definition same_letter (c' c : N) : Prop :=
  c' = c \/ (is_ascii_upper c = true /\ c' = (c + 32)%N).

(** *** [is_premium] *)

(** The instant a stored expiry stands for; [None] is the [ValueError] of
    [fromisoformat]. *)
Definition expiry_instant (e : expiry_value) : option datetime :=
  match e with
  | ExpDatetime d => Some d
  | ExpStr s => fromisoformat s
  end.

(** [is_premium(user_id)] when [datetime.now()] returns [now]. *)
Definition is_premium (b : bot) (now : datetime) (user_id : Z) : option bool :=
  match premium_users b !! user_id with
  | Some g => expiry ← expiry_instant (g_expiry g); Some (dt_gt expiry now)
  | None => Some false
  end.

(** *** Replies of the key handlers *)

Definition reply_bad_format : reply :=
  mkReply (cross :: u " Noto'g'ri kalit formati! To'g'ri format: PREMIUM-ABC123")
          [[btn_retry_key]].

Definition reply_not_found : reply :=
  mkReply (cross :: u " Noto'g'ri kalit yoki kalit mavjud emas!")
          [[btn_retry_key]; [btn_request_premium]].

Definition reply_already_used (admin_username : text) : reply :=
  mkReply (cross :: u " Bu kalit allaqachon ishlatilgan!")
          [[mkButton (u "Admin bilan bog'lanish") (Url (u "t.me/" ++ admin_username))]].

(** [d.strftime("%Y-%m-%d")] *)
Definition strftime_ymd (d : datetime) : text :=
  pad 4 (year d) ++ u "-" ++ pad 2 (month d) ++ u "-" ++ pad 2 (day d).

Definition reply_activated (days : Z) (expiry : datetime) : reply :=
  mkReply (party :: u " Premium faollashtirildi!" ++ [nl]
           ++ hourglass :: u " Davomiylik: " ++ str_of_Z days ++ u " kun" ++ [nl]
           ++ calendar :: u " Tugash sanasi: " ++ strftime_ymd expiry ++ [nl; nl]
           ++ u "Endi siz barcha funksiyalardan foydalanishingiz mumkin!")
          [[btn_menu]].

Section Runtime.
(** Two library functions the handlers call: the Unicode part of
    [str.upper] and [d + timedelta(days=n)]. *)
Variable unicode_upper : N -> text.
Variable plus_days : datetime -> Z -> datetime.

(** [update.message.text.strip().upper()] *)
Definition normalize (message_text : text) : text :=
  upper unicode_upper (strip message_text).

(** [del user_data[user_id]["state"]] when both keys are there. *)
Definition clear_state (ud : gmap Z user_rec) (user_id : Z) : gmap Z user_rec :=
  match ud !! user_id with
  | Some r =>
      match ud_state r with
      | Some _ =>
          <[user_id := mkUserRec None (ud_message r) (ud_interval r)
                         (ud_temp_group r) (ud_client r) (ud_phone_code_hash r)]> ud
      | None => ud
      end
  | None => ud
  end.

(** [process_key_activation] for the update of user [user_id] carrying
    [message_text]. *)
Definition process_key_activation (b : bot) (user_id : Z) (message_text : text)
  : bot * reply :=
  let text := normalize message_text in
  if negb (match_key_format text) then (b, reply_bad_format)
  else
    match generated_keys b !! text with
    | None => (b, reply_not_found)
    | Some key_data =>
        match k_user_id key_data with
        | Some _ => (b, reply_already_used (ADMIN_USERNAME b))
        | None =>
            let b1 := set_premium_users b
                        (<[user_id := mkGrant (ExpDatetime (k_expiry key_data)) text
                                        (k_admin_id key_data) (k_days key_data)]>
                           (premium_users b)) in
            let b2 := set_generated_keys b1
                        (<[text := mkKeyRecord (Some user_id) (k_expiry key_data)
                                     (k_admin_id key_data) (k_days key_data)]>
                           (generated_keys b1)) in
            let b3 := save_generated_keys (save_premium_users b2) in
            let b4 := set_user_data b3 (clear_state (user_data b3) user_id) in
            (b4, reply_activated (k_days key_data) (k_expiry key_data))
        end
    end.

(** [generate_premium_key(query, context, days)]: returns the key and its
    expiry date. *)
Definition generate_premium_key (b : bot) (now : datetime) (rnd : nat -> nat)
    (days : Z) : bot * (text * datetime) :=
  let key := generate_key 12 rnd in
  let expiry_date := plus_days now days in
  let b1 := set_generated_keys b
              (<[key := mkKeyRecord None expiry_date (ADMIN_ID b) days]>
                 (generated_keys b)) in
  (save_generated_keys b1, (key, expiry_date)).

(** A run of redemption attempts, one update after the other. *)
Fixpoint activations (b : bot) (attempts : list (Z * text)) : bot * list reply :=
  match attempts with
  | [] => (b, [])
  | (user_id, message_text) :: rest =>
      let '(b1, r) := process_key_activation b user_id message_text in
      let '(b2, rs) := activations b1 rest in
      (b2, r :: rs)
  end.

End Runtime.

End KeyManager.
Import KeyManager.

(** ** Auto folders *)
Module Folders.

(** Truth value of [d.get("session")]. *)
Definition truthy (o : option text) : bool :=
  match o with
  | Some (_ :: _) => true
  | _ => false
  end.

Definition has_session (b : bot) (user_id : Z) : bool :=
  match telegram_accounts b !! user_id with
  | Some a => truthy (a_session a)
  | None => false
  end.

(** [user_groups.get(user_id)]: the owner's groups, empty when there is no
    entry. *)
Definition groups_of (b : bot) (user_id : Z) : list (Z * group) :=
  default [] (user_groups b !! user_id).

Definition reply_need_account (what : string) : reply :=
  mkReply (cross :: u what) [[btn_connect]; [btn_back]].

Definition reply_folder_need_account : reply :=
  reply_need_account
    " Avto-papka yaratish uchun avval Telegram hisobingizni ulashingiz kerak!".

Definition reply_folder_need_groups : reply :=
  mkReply (cross :: u " Iltimos, avto-papka yaratish uchun avval guruhlar qo'shing")
          [[btn_add_group]; [btn_back]].

Definition reply_folder_exists : reply :=
  mkReply (info ++ u " Sizda allaqachon avto-papka mavjud") [[btn_back]].

Definition reply_folder_created : reply :=
  mkReply (check_mark :: u " Avto-papka muvaffaqiyatli yaratildi!" ++ [nl; nl]
           ++ u "Endi siz bir vaqtning o'zida ushbu papkadagi barcha guruhlarga xabar yuborishingiz mumkin.")
          [[btn_back]].

(** [create_auto_folder(query, user_id)] *)
Definition create_auto_folder (b : bot) (user_id : Z) : bot * reply :=
  if negb (has_session b user_id) then (b, reply_folder_need_account)
  else
    match groups_of b user_id with
    | [] => (b, reply_folder_need_groups)
    | gs =>
        match auto_folders b !! user_id with
        | Some _ => (b, reply_folder_exists)
        | None =>
            let b1 := set_auto_folders b
                        (<[user_id := mkFolder (u "Avto-Papka") (map fst gs)]>
                           (auto_folders b)) in
            (save_auto_folders b1, reply_folder_created)
        end
    end.

End Folders.
Import Folders.

(** ** The broadcast scheduler *)
Module Scheduler.

(** [job.schedule_removal()] on the job at position [i]. *)
Definition mark_removed (j : job) : job :=
  mkJob (j_name j) (j_interval j) (j_first j) (j_user_id j) (j_message j) true.

Definition schedule_removal (b : bot) (i : nat) : bot :=
  set_job_queue b (alter mark_removed i <$> job_queue b).

(** The states the loop [for job in message_jobs[user_id]:
    job.schedule_removal()] goes through, one per iteration. *)
Fixpoint removal_loop (b : bot) (handles : list nat) : list bot :=
  match handles with
  | [] => []
  | i :: rest => let b1 := schedule_removal b i in b1 :: removal_loop b1 rest
  end.

(** The [if user_id in message_jobs:] block shared by both handlers: the
    loop, then [del message_jobs[user_id]]. *)
Definition cancel_jobs (b : bot) (user_id : Z) : list bot :=
  match message_jobs b !! user_id with
  | Some handles =>
      let loop := removal_loop b handles in
      let b1 := List.last loop b in
      loop ++ [set_message_jobs b1 (delete user_id (message_jobs b1))]
  | None => []
  end.

(** [context.job_queue.run_repeating(...)]: the new job goes to the end of
    the queue, its position is the handle. *)
Definition run_repeating (q : list job) (interval first : Z) (user_id : Z)
    (message name : text) : list job * nat :=
  (q ++ [mkJob name interval first user_id message false], length q).

Definition job_name (user_id : Z) : text :=
  u "user_" ++ str_of_Z user_id ++ u "_messages".

Definition set_interval (ud : gmap Z user_rec) (user_id interval : Z)
  : gmap Z user_rec :=
  alter (fun r => mkUserRec (ud_state r) (ud_message r) (Some interval)
                            (ud_temp_group r) (ud_client r) (ud_phone_code_hash r))
        user_id ud.

Definition reply_no_message : reply :=
  mkReply (cross :: u " Xabar topilmadi. Iltimos, qayta urinib ko'ring")
          [[btn (9993 :: 65039 :: u " Xabar Yuborish")%N "send_message"]; [btn_back]].

(** [message[:200]] and the dots that follow a longer message. *)
Definition preview (message : text) : text :=
  take 200 message ++ (if (200 <? length message)%nat then u "..." else []).

Definition reply_interval_saved (interval : Z) (message : text) : reply :=
  mkReply (check_mark :: u " Sozlamalar saqlandi!" ++ [nl; nl]
           ++ u "Xabarlar har " ++ str_of_Z interval ++ u " daqiqada yuboriladi"
           ++ [nl; nl] ++ u "Xabar matni:" ++ [nl] ++ preview message)
          [[btn (128721 :: u " To'xtatish")%N "stop_messages"]; [btn_back]].

Definition reply_interval_error (err : text) : reply :=
  mkReply (cross :: u " Xato: " ++ err ++ [nl]
           ++ u "Iltimos, qayta urinib ko'ring.")
          [[btn (back_arrow :: u " Bosh Menyu") "back_to_start"]].

(** The message of a user record that has one. *)
Definition stored_message (b : bot) (user_id : Z) : option text :=
  r ← user_data b !! user_id; ud_message r.

(** [apply_message_interval(query, context, user_id, interval)], statement
    by statement: the states the globals go through (the first is the
    state at the call, the last the state at the return) and the reply.
    [raised] is the message of the exception [run_repeating] raises, if it
    does. *)
Definition apply_message_interval_steps (b : bot) (user_id interval : Z)
    (raised : option text) : list bot * reply :=
  match job_queue b with
  | None => ([b], reply_interval_error (u "JobQueue ishga tushmagan"))
  | Some _ =>
      match stored_message b user_id with
      | None => ([b], reply_no_message)
      | Some message =>
          let b1 := set_user_data b (set_interval (user_data b) user_id interval) in
          let cancel := cancel_jobs b1 user_id in
          let b2 := List.last cancel b1 in
          match raised with
          | Some err => (b :: b1 :: cancel, reply_interval_error err)
          | None =>
              let '(q, handle) :=
                run_repeating (default [] (job_queue b2)) (interval * 60) 5
                              user_id message (job_name user_id) in
              let b3 := set_job_queue b2 (Some q) in
              let b4 := set_message_jobs b3 (<[user_id := [handle]]> (message_jobs b3)) in
              (b :: b1 :: cancel ++ [b3; b4], reply_interval_saved interval message)
          end
      end
  end.

Definition apply_message_interval (b : bot) (user_id interval : Z)
    (raised : option text) : bot * reply :=
  let '(steps, r) := apply_message_interval_steps b user_id interval raised in
  (List.last steps b, r).

Definition reply_stopped : reply :=
  mkReply (check_mark :: u " Xabar yuborish to'xtatildi") [[btn_back]].

(** [stop_scheduled_messages(query, context, user_id)] *)
Definition stop_scheduled_messages_steps (b : bot) (user_id : Z) : list bot * reply :=
  (b :: cancel_jobs b user_id, reply_stopped).

Definition stop_scheduled_messages (b : bot) (user_id : Z) : bot * reply :=
  let '(steps, r) := stop_scheduled_messages_steps b user_id in
  (List.last steps b, r).

(** The jobs of the queue (none when the application has no queue). *)
Definition queue (b : bot) : list job := default [] (job_queue b).

Definition is_active (user_id : Z) (j : job) : Prop :=
  j_removed j = false /\ j_user_id j = user_id.

(** The recurring jobs of [user_id] that the queue will still fire. *)
Definition active_jobs (b : bot) (user_id : Z) : list job :=
  filter (is_active user_id) (queue b).

Definition at_most_one_job (b : bot) : Prop :=
  forall owner, (length (active_jobs b owner) <= 1)%nat.

(** Between two updates every job the queue will still fire is the one
    job [message_jobs] lists for its owner. *)
Definition jobs_tracked (b : bot) : Prop :=
  forall i j, queue b !! i = Some j -> j_removed j = false ->
              message_jobs b !! j_user_id j = Some [i].

(** A queue after some removals: each job is as it was, or removed. *)
Definition wound_down (q q' : list job) : Prop :=
  Forall2 (fun j j' => j' = j \/ j' = mark_removed j) q q'.

(** [process_message_text]: [user_data[user_id] = {"message": text,
    "state": "waiting_interval"}] (the keyboard it then shows is left
    out). *)
Definition process_message_text (b : bot) (user_id : Z) (message : text) : bot :=
  set_user_data b
    (<[user_id := mkUserRec (Some waiting_interval) (Some message) None None None None]>
       (user_data b)).

(** The updates that concern the scheduler. *)
Inductive request :=
| SetMessage (user_id : Z) (message : text)
| StartBroadcast (user_id interval : Z) (raised : option text)
| StopBroadcast (user_id : Z).

(** The states the globals go through while one update is served, the
    state at its arrival first. *)
Definition serve (b : bot) (req : request) : list bot :=
  match req with
  | SetMessage user_id message => [b; process_message_text b user_id message]
  | StartBroadcast user_id interval raised =>
      (apply_message_interval_steps b user_id interval raised).1
  | StopBroadcast user_id => (stop_scheduled_messages_steps b user_id).1
  end.

(** All the states of a run of updates, served one after the other. *)
Fixpoint serve_all (b : bot) (reqs : list request) : list bot :=
  match reqs with
  | [] => [b]
  | req :: rest => serve b req ++ serve_all (List.last (serve b req) b) rest
  end.

(** *** One firing: [send_user_messages] *)

(** What the firing does to the outside, in order. *)
Inductive event :=
| ESend (chat_id msg : text) (ok : bool)   (* client.send_message *)
| ESleep (seconds : Z)                     (* asyncio.sleep *)
| ELogError (what : text)                  (* logger.error *)
| ENotify (chat_id : Z) (msg : text).      (* context.bot.send_message *)

(** The answers of the messaging platform during a firing: whether the
    client session opens, and whether a send to a chat goes through. *)
Record platform := mkPlatform {
  connect_ok : bool;
  send_ok : text -> bool
}.

Definition chat_of (g : group) : text := u "@" ++ gr_username g.

(** The body of [for group_id, group in user_groups[user_id].items()]. *)
Fixpoint send_loop (w : platform) (message : text) (gs : list (Z * group))
    (yuborildi xato : Z) : Z * Z * list event :=
  match gs with
  | [] => (yuborildi, xato, [])
  | (_, g) :: rest =>
      if send_ok w (chat_of g) then
        let '(y, x, ev) := send_loop w message rest (yuborildi + 1) xato in
        (y, x, ESend (chat_of g) message true :: ESleep 1 :: ev)
      else
        let '(y, x, ev) := send_loop w message rest yuborildi (xato + 1) in
        (y, x, ESend (chat_of g) message false :: ELogError (gr_username g) :: ev)
  end.

Definition msg_not_connected : text :=
  cross :: u " Telegram hisobingiz ulanmagan! Iltimos, avval hisobingizni ulang!".

Definition msg_client_error : text :=
  cross :: u " Telegram hisobingizga ulanishda xato. Iltimos, qayta ulaning.".

Definition msg_nothing_sent : text :=
  cross :: u " Xabar hech qanday guruhga yuborilmadi. Guruhlaringizni tekshiring.".

Definition msg_sent (yuborildi xato : Z) : text :=
  check_mark :: u " Xabar " ++ str_of_Z yuborildi ++ u " guruhga yuborildi!"
  ++ (if 0 <? xato then u " (Xato: " ++ str_of_Z xato ++ u ")" else []).

(** The summary sent to the owner after the loop. *)
Definition report (yuborildi xato : Z) : text :=
  if 0 <? yuborildi then msg_sent yuborildi xato else msg_nothing_sent.

(** [send_user_messages(context)] for the job [j]: the globals after the
    firing and what it did. *)
Definition send_user_messages (b : bot) (j : job) (w : platform)
  : bot * list event :=
  let user_id := j_user_id j in
  let message := j_message j in
  if negb (has_session b user_id) then (b, [ENotify user_id msg_not_connected])
  else if negb (connect_ok w) then
    (b, [ELogError (u "Pyrogram client"); ENotify user_id msg_client_error])
  else
    let '(yuborildi, xato, ev) :=
      send_loop w message (groups_of b user_id) 0 0 in
    (b, ev ++ [ENotify user_id (report yuborildi xato)]).

(** The groups a firing reaches, and the ones it does not. *)
Definition reached (w : platform) (gs : list (Z * group)) : list (Z * group) :=
  filter (fun g => send_ok w (chat_of g.2) = true) gs.

Definition missed (w : platform) (gs : list (Z * group)) : list (Z * group) :=
  filter (fun g => send_ok w (chat_of g.2) = false) gs.

(** The sends among the events of a firing, the errors it logged and the
    notices it sent to users, each in order. *)
Definition attempts (ev : list event) : list (text * bool) :=
  omap (fun e => match e with ESend c _ ok => Some (c, ok) | _ => None end) ev.

Definition logged (ev : list event) : list text :=
  omap (fun e => match e with ELogError t => Some t | _ => None end) ev.

Definition notices (ev : list event) : list (Z * text) :=
  omap (fun e => match e with ENotify c t => Some (c, t) | _ => None end) ev.

(** Does the text show the number [n]? *)
Definition shows (n : Z) (msg : text) : bool := occurs (str_of_Z n) msg.

End Scheduler.
Import Scheduler.

(** ** Resending the verification code *)
Module Linking.

(** Calls to the messaging platform made through the user's client. *)
Inductive platform_call :=
| PConnect
| PSendCode (phone : text)
| PDisconnect.

Definition reply_phone_first : reply :=
  mkReply (cross :: u " Avval telefon raqamingizni kiriting!") [[btn_back]].

Definition reply_resend_failed : reply :=
  mkReply (cross :: u " Kod yuborishda xatolik yuz berdi. Iltimos, keyinroq qayta urinib ko'ring.")
          [[btn_back]].

(** [resend_code_handler] of [main.py] for the button press of [user_id].
    [send_code phone] is the platform's answer: the [phone_code_hash] of the
    code it sent, or [None] when the call raises; [client] is the client
    object the handler creates.  The keyboard of the "new code sent" message
    is built as [InlineKeyboardMarkup([..], [..])], two positional arguments
    where the constructor takes one: that call raises [TypeError] inside the
    [try], so after a code was sent and recorded the user still gets the
    text of the [except] clause. *)
Definition resend_code_handler (b : bot) (user_id : Z)
    (send_code : text -> option text) (client : nat)
  : bot * reply * list platform_call :=
  match telegram_accounts b !! user_id with
  | None => (b, reply_phone_first, [])
  | Some a =>
      match a_phone a with
      | None => (b, reply_phone_first, [])
      | Some phone =>
          match send_code phone with
          | None => (b, reply_resend_failed, [PConnect; PSendCode phone])
          | Some code_hash =>
              let a' := mkAccount (a_api_id a) (a_api_hash a) (a_phone a)
                          (a_session a) (Some client) (Some code_hash)
                          (a_connected_at a) in
              let b1 := set_telegram_accounts b
                          (<[user_id := a']> (telegram_accounts b)) in
              (save_telegram_accounts b1, reply_resend_failed,
               [PConnect; PSendCode phone])
          end
      end
  end.

End Linking.
Import Linking.

(** ** The resend handler of [test.py] *)
Module TestPy.

(** [user_data[user_id]] as [resend_verification_code] reads and updates it. *)
Record t_user_rec := mkTUserRec {
  tu_phone : option text;
  tu_last_code_request : option datetime;
  tu_phone_code_hash : option text;
  tu_code_attempts : option Z
}.

(** [telegram_accounts[user_id]]: the API credentials. *)
Record t_account := mkTAccount { ta_api_id : option Z; ta_api_hash : option text }.

Record t_bot := mkTBot {
  t_user_data : gmap Z t_user_rec;
  t_telegram_accounts : gmap Z t_account
}.

Definition t_text (c : N) (s : string) : reply := mkReply (c :: u s) [].

Definition t_reply_phone_first : reply :=
  t_text cross " Avval telefon raqamingizni kiriting".

Definition t_reply_wait : reply :=
  mkReply (hourglass :: u " Kodni qayta yuborish uchun 2 daqiqa kutishingiz kerak!")
          [[btn_back]].

Definition t_reply_resent : reply :=
  mkReply (arrows :: u " Yangi tasdiqlash kodi yuborildi!") [[btn_back]].

Definition t_reply_error (err : text) : reply :=
  mkReply (cross :: u " Xato: " ++ err) [[btn_back]].

(** [resend_verification_code]: [now] is the clock at the cooldown check,
    [now'] the clock when the new request is recorded; [send_code] answers
    with the new [phone_code_hash] or with the message of the exception it
    raises; [key_error] is the message of the [KeyError] a missing account
    field gives. *)
Definition resend_verification_code (b : t_bot) (user_id : Z)
    (now now' : datetime) (send_code : text -> text + text) (key_error : text)
  : t_bot * reply * list platform_call :=
  match t_user_data b !! user_id with
  | None => (b, t_reply_phone_first, [])
  | Some r =>
      match tu_phone r with
      | None => (b, t_reply_phone_first, [])
      | Some phone =>
          let cooling :=
            match tu_last_code_request r with
            | Some last_request => elapsed_lt now last_request 120
            | None => false
            end in
          if cooling then (b, t_reply_wait, [])
          else
            match a ← t_telegram_accounts b !! user_id;
                  _ ← ta_api_id a; ta_api_hash a with
            | None => (b, t_reply_error key_error, [])
            | Some _ =>
                match send_code phone with
                | inr err => (b, t_reply_error err, [PConnect; PSendCode phone])
                | inl code_hash =>
                    let r' := mkTUserRec (tu_phone r) (Some now')
                                (Some code_hash) (Some 0) in
                    (mkTBot (<[user_id := r']> (t_user_data b))
                            (t_telegram_accounts b),
                     t_reply_resent,
                     [PConnect; PSendCode phone; PDisconnect])
                end
            end
      end
  end.

End TestPy.
Import TestPy.

(** ** The JSON store: [save_data] and [load_data] *)
Module Persistence.

(** Keys of the bot's dicts: user ids and group ids are ints, key strings
    and field names are strs. *)
Inductive pykey :=
| KInt (z : Z)
| KStr (s : text).

(** The Python values the stores hold.  A dict keeps its insertion order. *)
Inductive pyval :=
| PNone
| PBool (b : bool)
| PInt (z : Z)
| PStr (s : text)
| PDatetime (d : datetime)
| PList (l : list pyval)
| PDict (kvs : list (pykey * pyval))
| PObject (id : nat).          (* a client object and the like *)

(** A parsed JSON document. *)
Inductive json :=
| JNull
| JBool (b : bool)
| JNum (z : Z)
| JStr (s : text)
| JArr (l : list json)
| JObj (kvs : list (text * json)).

Definition pykey_eqb (a b : pykey) : bool :=
  match a, b with
  | KInt x, KInt y => x =? y
  | KStr x, KStr y => text_eqb x y
  | _, _ => false
  end.

(** [d[k]] / [d.get(k)] *)
Fixpoint dict_get (k : pykey) (kvs : list (pykey * pyval)) : option pyval :=
  match kvs with
  | [] => None
  | (k', v) :: rest => if pykey_eqb k k' then Some v else dict_get k rest
  end.

(** [d[k] = v]: an existing key keeps its place. *)
Fixpoint dict_set (k : pykey) (v : pyval) (kvs : list (pykey * pyval))
  : list (pykey * pyval) :=
  match kvs with
  | [] => [(k, v)]
  | (k', v') :: rest =>
      if pykey_eqb k k' then (k, v) :: rest else (k', v') :: dict_set k v rest
  end.

(** [k in d] *)
Definition dict_mem (k : pykey) (kvs : list (pykey * pyval)) : bool :=
  match dict_get k kvs with Some _ => true | None => false end.

(** The key of a JSON object that [json.dump] writes for a dict key. *)
Definition json_key (k : pykey) : text :=
  match k with
  | KInt z => str_of_Z z
  | KStr s => s
  end.

(** [json.dump(data, f, default=json_serializer)]: [None] is the
    [TypeError] of [json_serializer] on anything but a [datetime]. *)
Fixpoint dump (v : pyval) : option json :=
  match v with
  | PNone => Some JNull
  | PBool b => Some (JBool b)
  | PInt z => Some (JNum z)
  | PStr s => Some (JStr s)
  | PDatetime d => Some (JStr (isoformat d))
  | PList l => JArr <$> mapM dump l
  | PDict kvs =>
      JObj <$> mapM (fun kx => match kx with
                               | (k, x) => j ← dump x; Some (json_key k, j)
                               end) kvs
  | PObject _ => None
  end.

(** The dict made of the pairs of a JSON object, in order: a repeated key
    keeps its first place and its last value. *)
Definition build_dict (pairs : list (text * pyval)) : list (pykey * pyval) :=
  fold_left (fun acc kv => dict_set (KStr kv.1) kv.2 acc) pairs [].

(** [json.load(f)]: every key of an object is a str. *)
Fixpoint parse (j : json) : pyval :=
  match j with
  | JNull => PNone
  | JBool b => PBool b
  | JNum z => PInt z
  | JStr s => PStr s
  | JArr l => PList (map parse l)
  | JObj kvs =>
      PDict (build_dict (map (fun kx => match kx with (k, x) => (k, parse x) end) kvs))
  end.

(** What is in a file. *)
Inductive file :=
| Missing                (* the file does not exist *)
| Cut                    (* a dump that raised left it cut short *)
| Written (j : json).

(** [save_data(file_path, data)] *)
Definition save_data (data : pyval) : file :=
  match dump data with
  | Some j => Written j
  | None => Cut
  end.

(** The files of [load_data]. *)
Inductive file_path :=
| USER_DATA_FILE | PREMIUM_USERS_FILE | GENERATED_KEYS_FILE
| PENDING_REQUESTS_FILE | TELEGRAM_ACCOUNTS_FILE | USER_GROUPS_FILE
| AUTO_FOLDERS_FILE.

Definition converts_expiry (p : file_path) : bool :=
  match p with
  | PREMIUM_USERS_FILE | GENERATED_KEYS_FILE => true
  | _ => false
  end.

(** One round of the loop body
    [if "expiry" in value and isinstance(value["expiry"], str):
         value["expiry"] = datetime.fromisoformat(value["expiry"])];
    [None] when it raises. *)
Definition convert_value (value : pyval) : option pyval :=
  match value with
  | PDict kvs =>
      match dict_get (KStr (u "expiry")) kvs with
      | Some (PStr s) =>
          d ← fromisoformat s; Some (PDict (dict_set (KStr (u "expiry")) (PDatetime d) kvs))
      | _ => Some value
      end
  | PList l =>
      if existsb (fun x => match x with
                           | PStr s => text_eqb s (u "expiry")
                           | _ => false
                           end) l
      then None else Some value
  | PStr s => if occurs (u "expiry") s then None else Some value
  | _ => None
  end.

Fixpoint convert_items (kvs : list (pykey * pyval)) : option (list (pykey * pyval)) :=
  match kvs with
  | [] => Some []
  | (k, v) :: rest => v' ← convert_value v; rest' ← convert_items rest; Some ((k, v') :: rest')
  end.

(** [load_data(file_path, default_value)] *)
Definition load_data (p : file_path) (f : file) (default_value : pyval) : pyval :=
  match f with
  | Missing | Cut => default_value
  | Written j =>
      let data := parse j in
      if converts_expiry p then
        match data with
        | PDict kvs =>
            match convert_items kvs with
            | Some kvs' => PDict kvs'
            | None => default_value
            end
        | _ => default_value
        end
      else data
  end.

(** Save, then start again and load. *)
Definition reload (p : file_path) (data : pyval) : pyval :=
  load_data p (save_data data) (PDict []).

(** [user_id in store] for an int user id. *)
Definition has_user (user_id : Z) (store : pyval) : bool :=
  match store with
  | PDict kvs => dict_mem (KInt user_id) kvs
  | _ => false
  end.

(** [store[k][field]] *)
Definition field_of (k : pykey) (field : string) (store : pyval) : option pyval :=
  match store with
  | PDict kvs =>
      match dict_get k kvs with
      | Some (PDict r) => dict_get (KStr (u field)) r
      | _ => None
      end
  | _ => None
  end.

(** Every key of the dict is a str. *)
Definition str_keyed_list (kvs : list (pykey * pyval)) : Prop :=
  Forall (fun kv => exists s, kv.1 = KStr s) kvs.

(** The key store as the handlers build it. *)
Definition py_opt_int (o : option Z) : pyval :=
  match o with
  | Some z => PInt z
  | None => PNone
  end.

Definition py_key_record (r : key_record) : pyval :=
  PDict [(KStr (u "user_id"), py_opt_int (k_user_id r));
         (KStr (u "expiry"), PDatetime (k_expiry r));
         (KStr (u "admin_id"), py_opt_int (k_admin_id r));
         (KStr (u "days"), PInt (k_days r))].

Definition py_key_store (keys : list (text * key_record)) : pyval :=
  PDict (map (fun kr => (KStr kr.1, py_key_record kr.2)) keys).

End Persistence.
Import Persistence.

(** [key] is redeemed by [user_id]. *)
Definition bound_to (b : bot) (key : text) (user_id : Z) : Prop :=
  k_user_id <$> generated_keys b !! key = Some (Some user_id).

(** ** The bot at its first start: no file exists, every store is empty. *)
Definition initial_bot (admin_id : option Z) (admin_username : text) : bot :=
  mkBot admin_id admin_username ∅ ∅ ∅ ∅ ∅ ∅ ∅ (Some []) (mkDisk ∅ ∅ (Some ∅) ∅).

(** ** Sample data *)
Module Sample.

Definition t0 : datetime := mkDatetime 2025 3 9 7 5 0 1500.
Definition t_expiry : datetime := mkDatetime 2025 4 8 7 5 0 1500.

(** No Unicode table: code points outside ASCII stay as they are. *)
Definition ascii_only (c : N) : text := [c].

(** The key [generate_key] returns when every draw is 0. *)
Definition key_A : text := generate_key 12 (fun _ => 0%nat).

(** A bot whose admin (id 1) issued [key_A] for 30 days. *)
Definition issued_bot : bot :=
  (generate_premium_key (fun _ _ => t_expiry) (initial_bot (Some 1) (u "boss"))
                        t0 (fun _ => 0%nat) 30).1.

(** The same bot after user 42 redeemed [key_A]. *)
Definition redeemed_bot : bot :=
  (process_key_activation ascii_only issued_bot 42 key_A).1.

Definition group_a : group := mkGroup (u "group_a") (u "https://t.me/group_a") (u "group_a").
Definition group_b : group := mkGroup (u "group_b") (u "https://t.me/group_b") (u "group_b").

(** User 42 has linked an account and registered two groups. *)
Definition linked_bot : bot :=
  let b := initial_bot (Some 1) (u "boss") in
  mkBot (ADMIN_ID b) (ADMIN_USERNAME b) (user_data b) (premium_users b)
        (generated_keys b)
        {[ 42 := mkAccount (Some 7) (Some (u "hash")) (Some (u "+998901234567"))
                           (Some (u "session")) None None (Some t0) ]}
        {[ 42 := [(11, group_a); (22, group_b)] ]}
        (auto_folders b) (message_jobs b) (job_queue b) (files b).

(** The same with a broadcast of "hello" every 5 minutes running. *)
Definition broadcasting_bot : bot :=
  (apply_message_interval (process_message_text linked_bot 42 (u "hello")) 42 5 None).1.

Definition hello_job : job := mkJob (job_name 42) 300 5 42 (u "hello") false.

(** A platform where sends to [@group_a] fail, and one where all fail. *)
Definition a_fails : platform :=
  mkPlatform true (fun chat => negb (bool_decide (chat = u "@group_a"))).
Definition all_fail : platform := mkPlatform true (fun _ => false).

(** The platform answers every code request with the same hash. *)
Definition code_sent (phone : text) : option text := Some (u "c0de").

(** [test.py]: user 42 asked for a new code at [t0]. *)
Definition t_waiting : t_bot :=
  mkTBot {[ 42 := mkTUserRec (Some (u "+998901234567")) (Some t0) (Some (u "c0de")) (Some 0) ]}
         {[ 42 := mkTAccount (Some 7) (Some (u "hash")) ]}.

(** The stores as the handlers build them, for user 42. *)
Definition py_premium_users : pyval :=
  PDict [(KInt 42, PDict [(KStr (u "expiry"), PDatetime t_expiry);
                          (KStr (u "key"), PStr key_A);
                          (KStr (u "admin_id"), PInt 1);
                          (KStr (u "days"), PInt 30)])].

Definition py_generated_keys : pyval :=
  PDict [(KStr key_A, PDict [(KStr (u "user_id"), PInt 42);
                             (KStr (u "expiry"), PDatetime t_expiry);
                             (KStr (u "admin_id"), PInt 1);
                             (KStr (u "days"), PInt 30)])].

Definition py_pending_requests : pyval :=
  PDict [(KInt 42, PDict [(KStr (u "username"), PStr (u "bob"));
                          (KStr (u "date"), PDatetime t0);
                          (KStr (u "user_id"), PInt 42)])].

Definition py_telegram_accounts (client : option nat) : pyval :=
  PDict [(KInt 42, PDict ([(KStr (u "api_id"), PInt 7);
                           (KStr (u "api_hash"), PStr (u "hash"));
                           (KStr (u "phone"), PStr (u "+998901234567"))]
                          ++ match client with
                             | Some c => [(KStr (u "client"), PObject c)]
                             | None => []
                             end
                          ++ [(KStr (u "session"), PStr (u "session"));
                              (KStr (u "connected_at"), PDatetime t0)]))].

End Sample.

(** ** Proof automation *)

(** Case analysis on every comparison of code points in the goal. *)
Ltac cp_cases :=
  repeat match goal with
    | |- context [(?a <=? ?b)%N] => destruct (N.leb_spec a b); try (exfalso; lia)
    | |- context [(?a <? ?b)%N] => destruct (N.ltb_spec a b); try (exfalso; lia)
    | |- context [(?a =? ?b)%N] => destruct (N.eqb_spec a b); try (exfalso; lia)
    end; simpl; try reflexivity; try discriminate; try lia.

(** ** More text patterns of [main.py] *)
Module Patterns.

(** [[cls]{lo,hi}$], greedy with backtracking, for a character class. *)
Fixpoint class_then_end (cls : N -> bool) (lo hi : nat) (s : text) : bool :=
  let stop := (lo =? 0)%nat && at_dollar s in
  match hi with
  | O => stop
  | S hi' =>
      match s with
      | c :: s' =>
          if cls c then class_then_end cls (Nat.pred lo) hi' s' || stop else stop
      | [] => stop
      end
  end.

(** [re.match(r"^\+[0-9]{10,14}$", phone_number)] *)
Definition match_phone_format (t : text) : bool :=
  match t with
  | c :: rest => (c =? 43)%N && class_then_end is_ascii_digit 10 14 rest
  | [] => false
  end.

(** [re.sub(r"[^0-9]", "", code)] *)
Definition clean_code (code : text) : text :=
  List.filter is_ascii_digit code.

(** [format_code(raw_code)] *)
Definition format_code (raw_code : text) : text :=
  let clean := clean_code raw_code in
  if (length clean <=? 3)%nat then clean
  else take (length clean - 3) clean ++ u "_" ++ drop (length clean - 3) clean.

(** [s.split(sep)] for a separator of one character. *)
Fixpoint split_on (sep : N) (s : text) : list text :=
  match s with
  | [] => [[]]
  | c :: s' =>
      if (c =? sep)%N then [] :: split_on sep s'
      else match split_on sep s' with
           | p :: ps => (c :: p) :: ps
           | [] => [[c]]
           end
  end.

Section Digits.
(** [\d] outside ASCII: the decimal digits of the Unicode tables. *)
Variable unicode_digit : N -> bool.

(** [\d] *)
Definition re_digit (c : N) : bool :=
  if (c <? 128)%N then is_ascii_digit c else unicode_digit c.

(** [re.fullmatch(r"^[\d_]+$", code)] *)
Definition digits_and_underscores (code : text) : bool :=
  match code with
  | [] => false
  | _ => forallb (fun c => re_digit c || (c =? 95)%N) code
  end.

(** [is_valid_code_format(code)] *)
Definition is_valid_code_format (code : text) : bool :=
  if negb (digits_and_underscores code) then false
  else
    let parts := split_on 95 code in
    if existsb (fun part => negb (length part =? 3)%nat) (tail parts) then false
    else
      let clean := List.filter (fun c => negb (c =? 95)%N) code in
      (length clean =? 5)%nat || (length clean =? 6)%nat || (length clean =? 7)%nat.
End Digits.

End Patterns.
Import Patterns.

(** ** The group registry *)
Module Groups.

Definition set_user_groups (b : bot) v : bot :=
  mkBot (ADMIN_ID b) (ADMIN_USERNAME b) (user_data b) (premium_users b)
        (generated_keys b) (telegram_accounts b) v (auto_folders b)
        (message_jobs b) (job_queue b) (files b).

(** The username [process_group_link] takes out of the text it is sent. *)
Definition link_username (sent : text) : text :=
  let username :=
    if is_prefix (u "https://t.me/") sent then List.last (split_on 47 sent) []
    else if is_prefix (u "@") sent then tail sent
    else sent in
  hd [] (split_on 63 username).

(** The ["link"] it stores with it. *)
Definition link_of (sent username : text) : text :=
  if is_prefix (u "http") sent then sent else u "https://t.me/" ++ username.

(** [process_group_link(update, context, user_id, text)]: the group is
    staged in [user_data[user_id]], which is replaced as a whole. *)
Definition process_group_link (b : bot) (user_id : Z) (sent : text) : bot :=
  let username := link_username sent in
  set_user_data b
    (<[user_id := mkUserRec (Some confirming_group) None None
                    (Some (username, link_of sent username)) None None]>
       (user_data b)).

(** [d[k] = v] on the dict of an owner's groups. *)
Fixpoint groups_set (k : Z) (g : group) (gs : list (Z * group)) : list (Z * group) :=
  match gs with
  | [] => [(k, g)]
  | (k', g') :: rest =>
      if k =? k' then (k, g) :: rest else (k', g') :: groups_set k g rest
  end.

(** [del user_data[user_id]["temp_group"]] when both keys are there. *)
Definition clear_temp_group (ud : gmap Z user_rec) (user_id : Z) : gmap Z user_rec :=
  match ud !! user_id with
  | Some r =>
      match ud_temp_group r with
      | Some _ =>
          <[user_id := mkUserRec (ud_state r) (ud_message r) (ud_interval r)
                         None (ud_client r) (ud_phone_code_hash r)]> ud
      | None => ud
      end
  | None => ud
  end.

Definition warn : text := [9888; 65039]%N.        (* U+26A0 U+FE0F *)
Definition clipboard : N := 128203.               (* U+1F4CB *)

Definition reply_no_staged_group : reply :=
  mkReply (cross :: u " Guruh ma'lumotlari topilmadi") [].

Definition reply_group_exists : reply :=
  mkReply (warn ++ u " Bu guruh allaqachon qo'shilgan") [[btn_add_group]; [btn_back]].

Definition reply_group_added (username : text) : reply :=
  mkReply (check_mark :: u " @" ++ username ++ u " guruhi papkangizga qo'shildi!")
          [[btn_add_group];
           [btn (clipboard :: u " Mening guruhlarim") "list_groups"];
           [btn_back]].

Definition has_username (username : text) (g : Z * group) : bool :=
  text_eqb (gr_username g.2) username.

Section Hash.
(** [hash] of a str: fixed within one run of the interpreter. *)
Variable py_hash : text -> Z.

(** [abs(hash(username)) % (10**8)] *)
Definition pseudo_id (username : text) : Z := Z.abs (py_hash username) mod 10 ^ 8.

(** [confirm_group_addition(query, context, user_id)]: the globals after
    the call, the reply, and what [save_data(USER_GROUPS_FILE, ...)] wrote,
    if it was called. *)
Definition confirm_group_addition (b : bot) (user_id : Z)
  : bot * reply * option (gmap Z (list (Z * group))) :=
  match r ← user_data b !! user_id; ud_temp_group r with
  | None => (b, reply_no_staged_group, None)
  | Some (username, link) =>
      let group_id := pseudo_id username in
      let mine := groups_of b user_id in
      if existsb (has_username username) mine then
        let b1 := set_user_groups b (<[user_id := mine]> (user_groups b)) in
        (set_user_data b1 (clear_temp_group (user_data b1) user_id),
         reply_group_exists, None)
      else
        let groups' := <[user_id := groups_set group_id (mkGroup username link username) mine]>
                         (user_groups b) in
        let b1 := set_user_groups b groups' in
        (set_user_data b1 (clear_temp_group (user_data b1) user_id),
         reply_group_added username, Some groups')
  end.
End Hash.

(** [cancel_group_addition(query, user_id)] *)
Definition cancel_group_addition (b : bot) (user_id : Z) : bot :=
  set_user_data b (clear_temp_group (user_data b) user_id).

(** No two groups of the owner have the same username. *)
Definition usernames_distinct (gs : list (Z * group)) : Prop :=
  NoDup (map (fun g => gr_username g.2) gs).

(** No two groups of the owner sit under the same key. *)
Definition ids_distinct (gs : list (Z * group)) : Prop := NoDup (map fst gs).

End Groups.
Import Groups.

(** ** Premium requests and their approval *)
Module Requests.

(** [pending_requests[user_id]] *)
Record request_rec := mkRequest {
  rq_username : option text;       (* query.from_user.username *)
  rq_date : datetime;
  rq_user_id : Z
}.

(** The bot together with the store the claims' handlers do not touch. *)
Record office := mkOffice {
  the_bot : bot;
  pending_requests : gmap Z request_rec;
  file_pending_requests : gmap Z request_rec
}.

(** [is_admin(user_id)]: [user_id == ADMIN_ID] *)
Definition is_admin (b : bot) (user_id : Z) : bool :=
  match ADMIN_ID b with
  | Some a => user_id =? a
  | None => false
  end.

(** How an f-string prints a value that may be [None]. *)
Definition fmt_opt (o : option text) : text := default (u "None") o.

(** Messages the bot sends on its own to another chat. *)
Inductive notice := Notice (chat_id : Z) (msg : text).

Definition reply_already_premium : reply :=
  mkReply (check_mark :: u " Sizda allaqachon premium obuna mavjud") [].

Definition reply_request_pending (admin : text) : reply :=
  mkReply (hourglass :: u " Sizning so'rovingiz ko'rib chiqilmoqda" ++ [nl]
           ++ u "Admin: @" ++ admin)
          [[btn_back]].

Definition reply_request_accepted (admin : text) : reply :=
  mkReply (check_mark :: u " Sizning premium so'rovingiz qabul qilindi!" ++ [nl; nl]
           ++ u "Admin: @" ++ admin ++ [nl] ++ u "Tasdiqlanishini kuting...")
          [[btn_back]].

Definition msg_new_request (username : option text) (user_id : Z) : text :=
  warn ++ u " Yangi premium so'rov:" ++ [nl; nl]
  ++ u "Foydalanuvchi: @" ++ fmt_opt username ++ [nl]
  ++ u "ID: " ++ str_of_Z user_id ++ [nl; nl]
  ++ u "Tasdiqlash: /approve_" ++ str_of_Z user_id.

(** Truth value of [ADMIN_ID]. *)
Definition admin_set (b : bot) : option Z :=
  match ADMIN_ID b with
  | Some 0 => None
  | o => o
  end.

(** What the [except] at the end of [button_handler] answers. *)
Definition reply_button_error : reply :=
  mkReply (cross :: u " Xatolik yuz berdi. Iltimos, qayta urinib ko'ring.")
          [[btn (house :: u " Bosh menyu") "back_to_start"]].

(** The branch [data == "request_premium"] of [button_handler] for a press
    by [user_id], whose account name is [username], at time [now].  An
    exception raised in the branch (the [ValueError] that [is_premium] lets
    through or, when [send_fails], the error of the notice to the admin)
    ends in the handler's [except]. *)
Definition button_request_premium (o : office) (now : datetime) (user_id : Z)
    (username : option text) (send_fails : bool)
  : office * reply * list notice :=
  let b := the_bot o in
  match is_premium b now user_id with
  | None => (o, reply_button_error, [])
  | Some true => (o, reply_already_premium, [])
  | Some false =>
      match pending_requests o !! user_id with
      | Some _ => (o, reply_request_pending (ADMIN_USERNAME b), [])
      | None =>
          let pending := <[user_id := mkRequest username now user_id]>
                           (pending_requests o) in
          let o' := mkOffice b pending pending in
          match admin_set b with
          | Some a =>
              if send_fails then (o', reply_button_error, [])
              else (o', reply_request_accepted (ADMIN_USERNAME b),
                    [Notice a (msg_new_request username user_id)])
          | None => (o', reply_request_accepted (ADMIN_USERNAME b), [])
          end
      end
  end.

Definition reply_admins_only : reply :=
  mkReply (cross :: u " Faqat adminlar uchun!") [].

Definition reply_request_not_found : reply :=
  mkReply (cross :: u " Foydalanuvchi so'rovi topilmadi!") [].

Definition btn_admin_panel : button := btn (house :: u " Admin paneli") "admin_panel".

Definition msg_approved (key : text) (expiry : datetime) : text :=
  party :: u " Sizning premium so'rovingiz tasdiqlandi!" ++ [nl; nl]
  ++ [128273%N] ++ u " Sizning premium kalitingiz: <code>" ++ key ++ u "</code>" ++ [nl]
  ++ calendar :: u " Tugash sanasi: " ++ strftime_ymd expiry ++ [nl; nl]
  ++ u "Endi siz botning barcha funksiyalaridan foydalanishingiz mumkin!".

Definition reply_approved (username : option text) (key : text) : reply :=
  mkReply (check_mark :: u " @" ++ fmt_opt username ++ u " premiumga ega bo'ldi!" ++ [nl]
           ++ u "Kalit: " ++ key)
          [[btn_admin_panel]].

Definition reply_approve_error (err : text) : reply :=
  mkReply (cross :: u " Xato: " ++ err)
          [[btn (back_arrow :: u " Orqaga") "admin_panel"]].

Section Approve.
Variable plus_days : datetime -> Z -> datetime.

(** [approve_user_request(query, context, user_id_to_approve)] for a press
    by [caller] at time [now]; [rnd] are the draws of [generate_key];
    [send_fails] is the message of the exception the notice to the user
    raises, if it does. *)
Definition approve_user_request (o : office) (now : datetime) (rnd : nat -> nat)
    (caller user_id_to_approve : Z) (send_fails : option text)
  : office * reply * list notice :=
  let b := the_bot o in
  if negb (is_admin b caller) then (o, reply_admins_only, [])
  else
    match pending_requests o !! user_id_to_approve with
    | None => (o, reply_request_not_found, [])
    | Some user_info =>
        let key := generate_key 12 rnd in
        let expiry_date := plus_days now 30 in
        let b1 := set_premium_users b
                    (<[user_id_to_approve :=
                         mkGrant (ExpDatetime expiry_date) key (ADMIN_ID b) 30]>
                       (premium_users b)) in
        let b2 := set_generated_keys b1
                    (<[key := mkKeyRecord (Some user_id_to_approve) expiry_date
                                (ADMIN_ID b) 30]>
                       (generated_keys b1)) in
        let pending := delete user_id_to_approve (pending_requests o) in
        let o' := mkOffice (save_generated_keys (save_premium_users b2))
                           pending pending in
        match send_fails with
        | Some err => (o', reply_approve_error err, [])
        | None =>
            (o', reply_approved (rq_username user_info) key,
             [Notice user_id_to_approve (msg_approved key expiry_date)])
        end
    end.
End Approve.

End Requests.
Import Requests.

(** ** Unlinking the account *)
Module Account.

Definition reply_no_account : reply :=
  mkReply (info ++ u " Sizda ulangan Telegram hisobi yo'q") [[btn_back]].

Definition reply_disconnected : reply :=
  mkReply (check_mark :: u " Telegram hisobi muvaffaqiyatli uzildi")
          [[btn (house :: u " Asosiy menyu") "back_to_start"]].

(** [disconnect_telegram_account(query, user_id)]: the globals, the reply
    and the client that was told to disconnect, if the account held one. *)
Definition disconnect_telegram_account (b : bot) (user_id : Z)
  : bot * reply * option nat :=
  match telegram_accounts b !! user_id with
  | None => (b, reply_no_account, None)
  | Some a =>
      if negb (truthy (a_session a)) then (b, reply_no_account, None)
      else
        let a' := mkAccount (a_api_id a) (a_api_hash a) (a_phone a) None None None
                            (a_connected_at a) in
        let b1 := set_telegram_accounts b (<[user_id := a']> (telegram_accounts b)) in
        (save_telegram_accounts b1, reply_disconnected, a_client a)
  end.

End Account.
Import Account.

(** ** More on the scheduler's bookkeeping *)

(** Every handle [message_jobs] lists for an owner points at a job of that
    owner in the queue. *)
Definition jobs_owned (b : bot) : Prop :=
  forall owner handles i,
    message_jobs b !! owner = Some handles -> i ∈ handles ->
    exists j, queue b !! i = Some j /\ j_user_id j = owner.

(** Sample data for the group registry and the requests. *)
Module Sample2.

(** A hash for the examples: the sum of the code points. *)
Definition sum_hash (s : text) : Z := Z.of_N (fold_right N.add 0%N s).

(** User 7 asked for premium at [t0]; the admin is user 1. *)
Definition asking_office : office :=
  (button_request_premium (mkOffice (initial_bot (Some 1) (u "boss")) ∅ ∅)
                          Sample.t0 7 (Some (u "bob")) false).1.1.

(** The admin approved the request at [t0]; every expiry is [t_expiry]. *)
Definition approved_office : office :=
  (approve_user_request (fun _ _ => Sample.t_expiry) asking_office Sample.t0
                        (fun _ => 0%nat) 1 7 None).1.1.

(** User 7 sent the group [@ab]. *)
Definition staged_bot : bot :=
  process_group_link (initial_bot (Some 1) (u "boss")) 7 (u "@ab").

(** User 7 confirmed it and then sent [@ba], which has the same [sum_hash]. *)
Definition clash_bot : bot :=
  process_group_link (confirm_group_addition sum_hash staged_bot 7).1.1 7 (u "@ba").

(** User 42 broadcasts "hello" every 5 minutes, user 7 "hi" every 10. *)
Definition two_broadcasts : bot :=
  (apply_message_interval
     (process_message_text Sample.broadcasting_bot 7 (u "hi")) 7 10 None).1.

Definition hi_job : job := mkJob (job_name 7) 600 5 7 (u "hi") false.

End Sample2.

(** ** Linking an account: the phone and code steps of [handle_message] *)
Module LinkingFlow.

(** How [client.sign_in] and [client.export_session_string] end. *)
Inductive sign_in_result :=
| SignedIn (session_string : text)
| SessionPasswordNeeded
| SignInError (err : text).

(** Calls to the messaging platform made in these steps. *)
Inductive link_call :=
| LConnect
| LSendCode (phone : text)
| LSignIn (phone_number phone_code_hash phone_code : text).

(** What the [except] at the end of [handle_message] answers. *)
Definition reply_system_error : reply :=
  mkReply (cross :: u " System error. Please try again.")
          [[btn (house :: u " Main Menu") "back_to_start"]].

Definition reply_invalid_phone : reply :=
  mkReply (cross :: u " Invalid phone number format!") [].

Definition reply_code_sent : reply :=
  mkReply (check_mark :: u " Verfikatsiya kodi yuborildi!" ++ [nl; nl]
           ++ u "Telegramdan kelgan 5 xonali raqamni kirgizing. 12345 qilib emas 12_345 qilib kiriting"
           ++ [nl; nl]
           ++ u "agar kod kelmagan bo'lsa qayta yuborish tugmasini bosing:")
          [[btn (arrows :: u " Qayta yuborish") "resend_code"];
           [btn (back_arrow :: u " Qaytish") "back_to_start"]].

Definition reply_connected : reply :=
  mkReply (check_mark :: u " Telegram account connected!")
          [[btn (house :: u " Main Menu") "back_to_start"]].

Definition reply_need_password : reply :=
  mkReply (128274%N :: u " Please enter your 2FA password:") [].   (* U+1F512 *)

Definition reply_error (err : text) : reply :=
  mkReply (cross :: u " Error: " ++ err) [].

(** The branch [state == "waiting_phone_number"] of [handle_message] for
    the message [message_text] of [user_id].  [client] is the client
    object it creates, [connect_ok] tells whether [client.connect()]
    returns, [send_code] answers with the [phone_code_hash] or with [None]
    when the call raises.  A [KeyError] and an error of the platform end in
    the handler's last [except]. *)
Definition handle_waiting_phone_number (b : bot) (user_id : Z) (message_text : text)
    (client : nat) (connect_ok : bool) (send_code : text -> option text)
  : bot * reply * list link_call :=
  let text := strip message_text in
  if negb (match_phone_format text) then (b, reply_invalid_phone, [])
  else
    match telegram_accounts b !! user_id with
    | None => (b, reply_system_error, [])
    | Some a =>
        let a1 := mkAccount (a_api_id a) (a_api_hash a) (Some text) (a_session a)
                            (a_client a) (a_phone_code_hash a) (a_connected_at a) in
        let b1 := save_telegram_accounts
                    (set_telegram_accounts b (<[user_id := a1]> (telegram_accounts b))) in
        match a_api_id a, a_api_hash a with
        | Some _, Some _ =>
            if negb connect_ok then (b1, reply_system_error, [LConnect])
            else
              match send_code text with
              | None => (b1, reply_system_error, [LConnect; LSendCode text])
              | Some phone_code_hash =>
                  (set_user_data b1
                     (<[user_id := mkUserRec (Some waiting_verification_code) None None
                                     None (Some client) (Some phone_code_hash)]>
                        (user_data b1)),
                   reply_code_sent, [LConnect; LSendCode text])
              end
        | _, _ => (b1, reply_system_error, [])
        end
    end.

(** The branch [state == "waiting_verification_code"].  A missing
    ["client"] is a [KeyError] outside the inner [try]; the ones raised
    while the arguments of [sign_in] are read are answered with the key. *)
Definition handle_waiting_verification_code (b : bot) (user_id : Z) (message_text : text)
    (sign_in : text -> text -> text -> sign_in_result)
  : bot * reply * list link_call :=
  let text := strip message_text in
  match r ← user_data b !! user_id; _ ← ud_client r; Some r with
  | None => (b, reply_system_error, [])
  | Some r =>
      match telegram_accounts b !! user_id with
      | None => (b, reply_error (str_of_Z user_id), [])
      | Some a =>
          match a_phone a with
          | None => (b, reply_error (u "'phone'"), [])
          | Some phone =>
              match ud_phone_code_hash r with
              | None => (b, reply_error (u "'phone_code_hash'"), [])
              | Some phone_code_hash =>
                  let calls := [LSignIn phone phone_code_hash text] in
                  match sign_in phone phone_code_hash text with
                  | SignedIn session_string =>
                      let a' := mkAccount (a_api_id a) (a_api_hash a) (a_phone a)
                                  (Some session_string) (a_client a)
                                  (a_phone_code_hash a) (a_connected_at a) in
                      (save_telegram_accounts
                         (set_telegram_accounts b
                            (<[user_id := a']> (telegram_accounts b))),
                       reply_connected, calls)
                  | SessionPasswordNeeded =>
                      (set_user_data b
                         (<[user_id := mkUserRec (Some waiting_password) (ud_message r)
                                         (ud_interval r) (ud_temp_group r) (ud_client r)
                                         (ud_phone_code_hash r)]>
                            (user_data b)),
                       reply_need_password, calls)
                  | SignInError err => (b, reply_error err, calls)
                  end
              end
          end
      end
  end.

(** The branch [data == "custom_interval"] of [button_handler]:
    [user_data[user_id] = {"state": "waiting_interval"}]. *)
Definition button_custom_interval (b : bot) (user_id : Z) : bot :=
  set_user_data b
    (<[user_id := mkUserRec (Some waiting_interval) None None None None None]>
       (user_data b)).

End LinkingFlow.
Import LinkingFlow.

(** Sample data for the linking steps. *)
Module Sample3.

(** User 42 has entered the API data and nothing else. *)
Definition api_bot : bot :=
  set_telegram_accounts (initial_bot (Some 1) (u "boss"))
    {[ 42 := mkAccount (Some 7) (Some (u "hash")) None None None None None ]}.

(** The platform sends a code under the hash "h1", then under "h2". *)
Definition first_code (phone : text) : option text := Some (u "h1").
Definition second_code (phone : text) : option text := Some (u "h2").

(** It signs in when the code is 12345. *)
Definition sample_sign_in (phone hash code : text) : sign_in_result :=
  if text_eqb code (u "12345") then SignedIn (u "session")
  else SignInError (u "bad code").

End Sample3.

(* ================================================================== *)
(** * Properties *)

Example str_of_Z_samples :
  str_of_Z 42 = u "42" /\ str_of_Z (-7) = u "-7" /\ str_of_Z 0 = u "0"
  /\ str_of_Z 1000 = u "1000" /\ str_of_Z 999999 = u "999999".
Proof. repeat split; reflexivity. Qed.

Example isoformat_sample :
  isoformat (mkDatetime 2025 3 9 7 5 0 0) = u "2025-03-09T07:05:00"
  /\ isoformat (mkDatetime 2025 3 9 7 5 0 1500) = u "2025-03-09T07:05:00.001500"
  /\ toordinal (mkDatetime 2025 3 9 0 0 0 0) = 739319%N
  /\ fromisoformat (u "2025-03-09T07:05:00.001500")
     = Some (mkDatetime 2025 3 9 7 5 0 1500)
  /\ fromisoformat (u "2025-02-30T07:05:00") = None.
Proof. repeat split; reflexivity. Qed.

Example match_key_format_samples :
  match_key_format (u "PREMIUM-ABCDEFGH") = true
  /\ match_key_format (u "PREMIUM-ABCDEFG") = false
  /\ match_key_format (u "PREMIUM-ABCDEFGH1234") = true
  /\ match_key_format (u "PREMIUM-ABCDEFGH12345") = false
  /\ match_key_format (u "PREMIUM-abcdefgh") = false
  /\ match_key_format (u "PREMIUM-ABCDEFGH" ++ [10%N]) = true
  /\ match_key_format (u "XPREMIUM-ABCDEFGH") = false
  /\ match_key_format (generate_key 12 (fun i => i * 7)%nat) = true.
Proof. repeat split; reflexivity. Qed.


(** ** Text *)

Lemma key_alpha_not_space c' c :
  key_alpha c = true -> same_letter c' c -> is_space c' = false.
Proof.
  intros Hk [-> | [Hu ->]].
  - revert Hk. unfold key_alpha, is_key_char, is_ascii_upper, is_ascii_digit, is_space.
    cp_cases.
  - revert Hu. clear Hk. unfold is_ascii_upper, is_space. cp_cases.
Qed.

Lemma upper_cp_same_letter U c' c :
  key_alpha c = true -> same_letter c' c -> upper_cp U c' = [c].
Proof.
  intros Hk [-> | [Hu ->]].
  - revert Hk.
    unfold key_alpha, is_key_char, is_ascii_upper, is_ascii_digit, upper_cp, is_ascii_lower.
    cp_cases.
  - revert Hu. clear Hk. unfold is_ascii_upper, upper_cp, is_ascii_lower.
    cp_cases. intros _. f_equal. lia.
Qed.

Lemma upper_same_letters U (v k : text) :
  Forall (fun c => key_alpha c = true) k -> Forall2 same_letter v k ->
  upper U v = k.
Proof.
  intros Hk Hv. induction Hv as [| c' c v k Hc Hv IH]; [reflexivity |].
  inversion Hk; subst. unfold upper in *. simpl.
  rewrite (upper_cp_same_letter U c' c) by assumption.
  simpl. f_equal. auto.
Qed.

Lemma lstrip_spaces (lead rest : text) :
  Forall (fun c => is_space c = true) lead -> lstrip (lead ++ rest) = lstrip rest.
Proof.
  induction 1 as [| c lead Hc _ IH]; [reflexivity |]. simpl. rewrite Hc. exact IH.
Qed.

Lemma lstrip_id (c : N) (rest : text) : is_space c = false -> lstrip (c :: rest) = c :: rest.
Proof. intros H. simpl. rewrite H. reflexivity. Qed.

Lemma strip_padding (lead v trail : text) :
  Forall (fun c => is_space c = true) lead ->
  Forall (fun c => is_space c = true) trail ->
  Forall (fun c => is_space c = false) v ->
  strip (lead ++ v ++ trail) = v.
Proof.
  intros Hl Ht Hv. unfold strip, rstrip.
  rewrite lstrip_spaces by assumption.
  destruct v as [| c v].
  - simpl. clear Hv Hl.
    assert (E : lstrip trail = []).
    { rewrite <- (app_nil_r trail). rewrite lstrip_spaces by assumption. reflexivity. }
    rewrite E. reflexivity.
  - inversion Hv as [| ? ? Hc Hv']; subst.
    change ((c :: v) ++ trail) with (c :: (v ++ trail)).
    rewrite lstrip_id by assumption.
    change (c :: v ++ trail) with ((c :: v) ++ trail).
    rewrite rev_app_distr.
    rewrite lstrip_spaces by (apply Forall_rev; assumption).
    destruct (rev (c :: v)) as [| d w] eqn:E.
    + apply (f_equal (@length N)) in E. rewrite length_rev in E. discriminate.
    + assert (Hd : is_space d = false).
      { assert (Hin : In d (rev (c :: v))) by (rewrite E; left; reflexivity).
        apply in_rev in Hin. rewrite Forall_forall in Hv. apply Hv.
        apply list_elem_of_In. exact Hin. }
      rewrite lstrip_id by assumption. rewrite <- E. apply rev_involutive.
Qed.

(** A text without surrounding blanks, upper-case letters included, is its
    own normal form. *)
Lemma strip_id (v : text) :
  Forall (fun c => is_space c = false) v -> strip v = v.
Proof.
  intros H. pose proof (strip_padding [] v [] (List.Forall_nil _) (List.Forall_nil _) H) as E.
  simpl in E. rewrite app_nil_r in E. exact E.
Qed.

Lemma same_letter_refl (k : text) : Forall2 same_letter k k.
Proof. induction k; constructor; [left; reflexivity | assumption]. Qed.


(** ** The key format and [generate_key] *)

Lemma strip_prefix_spec (p s r : text) :
  strip_prefix p s = Some r <-> s = p ++ r.
Proof.
  revert s. induction p as [| c p IH]; intros s; simpl.
  - split; [intros [= ->]; reflexivity | intros ->; reflexivity].
  - destruct s as [| d s]; [split; discriminate |].
    destruct (N.eqb_spec c d) as [-> | Hne].
    + rewrite IH. split; [intros ->; reflexivity | intros [= ->]; reflexivity].
    + split; [discriminate | intros [= E _]; congruence].
Qed.

Lemma at_dollar_not_key (c : N) (s : text) :
  is_key_char c = true -> at_dollar (c :: s) = false.
Proof.
  intros H. destruct s; [| reflexivity]. simpl.
  destruct (N.eqb_spec c 10) as [-> | _]; [discriminate H | reflexivity].
Qed.

(** What the pattern [[A-Z0-9]{lo,hi}$] denotes. *)
Lemma key_chars_then_end_spec (hi lo : nat) (s : text) :
  key_chars_then_end lo hi s = true <->
  exists suf tail, s = suf ++ tail /\ (lo <= length suf <= hi)%nat
                   /\ Forall (fun c => is_key_char c = true) suf
                   /\ at_dollar tail = true.
Proof.
  revert lo s. induction hi as [| hi IH]; intros lo s.
  - simpl. rewrite andb_true_iff, Nat.eqb_eq. split.
    + intros [-> H]. exists [], s. repeat split; auto.
    + intros (suf & tail & -> & [Hlo Hhi] & _ & Ht).
      destruct suf; [| simpl in Hhi; lia]. simpl in *. split; [lia | exact Ht].
  - split.
    + simpl. intros H.
      assert (Hstop : (lo =? 0)%nat && at_dollar s = true ->
                      exists suf tail, s = suf ++ tail /\ (lo <= length suf <= S hi)%nat
                        /\ Forall (fun c => is_key_char c = true) suf
                        /\ at_dollar tail = true).
      { rewrite andb_true_iff, Nat.eqb_eq. intros [-> Ht]. exists [], s.
        repeat split; simpl; auto; lia. }
      destruct s as [| c s]; [auto |].
      destruct (is_key_char c) eqn:Hc; [| auto].
      apply orb_true_iff in H as [H | H]; [| auto].
      apply IH in H as (suf & tail & -> & [Hlo Hhi] & Hall & Ht).
      exists (c :: suf), tail. repeat split; simpl; auto; lia.
    + intros (suf & tail & -> & [Hlo Hhi] & Hall & Ht).
      destruct suf as [| c suf].
      * simpl in Hlo. assert (lo = 0%nat) as -> by lia.
        simpl app. simpl.
        destruct tail as [| c tail]; [reflexivity |].
        rewrite Ht. destruct (is_key_char c); [apply orb_true_r | reflexivity].
      * inversion Hall as [| ? ? Hc Hall']; subst. simpl in *.
        rewrite Hc. apply orb_true_iff. left. apply IH.
        exists suf, tail. repeat split; auto; lia.
Qed.

(** The texts [re.match(r"^PREMIUM-[A-Z0-9]{8,12}$", t)] accepts. *)
Lemma match_key_format_spec (t : text) :
  match_key_format t = true <->
  exists suf tail, t = u "PREMIUM-" ++ suf ++ tail
                   /\ (8 <= length suf <= 12)%nat
                   /\ Forall (fun c => is_key_char c = true) suf
                   /\ (tail = [] \/ tail = [10%N]).
Proof.
  unfold match_key_format.
  assert (Hd : forall tail, at_dollar tail = true <-> tail = [] \/ tail = [10%N]).
  { intros [| c [| d tl]]; simpl; split; auto; try discriminate;
      try (intros [H | H]; discriminate).
    - intros H. apply N.eqb_eq in H. subst. auto.
    - intros [H | [= ->]]; [discriminate | reflexivity]. }
  destruct (strip_prefix (u "PREMIUM-") t) as [rest |] eqn:E.
  - apply strip_prefix_spec in E. subst t. rewrite key_chars_then_end_spec. split.
    + intros (suf & tail & -> & Hlen & Hall & Ht). exists suf, tail.
      rewrite <- Hd. auto.
    + intros (suf & tail & Heq & Hlen & Hall & Ht). apply app_inv_head in Heq.
      exists suf, tail. rewrite Hd. auto.
  - split; [discriminate |]. intros (suf & tail & -> & _).
    assert (strip_prefix (u "PREMIUM-") (u "PREMIUM-" ++ suf ++ tail) = Some (suf ++ tail))
      by (apply strip_prefix_spec; reflexivity).
    congruence.
Qed.

Lemma random_choice_key_char (r : nat) : is_key_char (random_choice r) = true.
Proof.
  unfold random_choice.
  assert (Hall : Forall (fun c => is_key_char c = true) chars)
    by (unfold chars; repeat constructor).
  rewrite Forall_forall in Hall. apply Hall. apply list_elem_of_In, nth_In.
  change (length chars) with 36%nat. apply Nat.mod_upper_bound. discriminate.
Qed.

(** [generate_key(length)] is the prefix followed by [length] characters of
    [A-Z0-9]. *)
Lemma generate_key_shape (n : nat) (rnd : nat -> nat) :
  exists suf, generate_key n rnd = u "PREMIUM-" ++ suf /\ length suf = n
              /\ Forall (fun c => is_key_char c = true) suf.
Proof.
  unfold generate_key. eexists. split; [reflexivity |]. split.
  - rewrite length_map, length_seq. reflexivity.
  - apply Forall_forall. intros c Hc. apply list_elem_of_In, in_map_iff in Hc.
    destruct Hc as (i & <- & _). apply random_choice_key_char.
Qed.

Lemma generate_key_format (rnd : nat -> nat) :
  match_key_format (generate_key 12 rnd) = true.
Proof.
  destruct (generate_key_shape 12 rnd) as (suf & E & Hlen & Hall).
  apply match_key_format_spec. exists suf, []. rewrite app_nil_r.
  repeat split; auto; lia.
Qed.

Lemma is_key_char_alpha (c : N) : is_key_char c = true -> key_alpha c = true.
Proof. unfold key_alpha. intros ->. reflexivity. Qed.

Lemma generate_key_alpha (n : nat) (rnd : nat -> nat) :
  Forall (fun c => key_alpha c = true) (generate_key n rnd).
Proof.
  destruct (generate_key_shape n rnd) as (suf & -> & _ & Hall).
  apply Forall_app. split; [repeat constructor |].
  eapply List.Forall_impl; [| exact Hall]. apply is_key_char_alpha.
Qed.

Lemma same_letters_not_space (v k : text) :
  Forall (fun c => key_alpha c = true) k -> Forall2 same_letter v k ->
  Forall (fun c => is_space c = false) v.
Proof.
  intros Hk Hv. induction Hv as [| c' c v k Hc Hv IH]; [constructor |].
  inversion Hk; subst. constructor; [eapply key_alpha_not_space; eauto | auto].
Qed.

(** An input that is the key up to letter case, with blanks around it,
    normalizes to the key. *)
Lemma normalize_variant U (lead v trail k : text) :
  Forall (fun c => key_alpha c = true) k ->
  Forall (fun c => is_space c = true) lead ->
  Forall (fun c => is_space c = true) trail ->
  Forall2 same_letter v k ->
  normalize U (lead ++ v ++ trail) = k.
Proof.
  intros Hk Hl Ht Hv. unfold normalize.
  rewrite strip_padding; auto.
  - apply upper_same_letters; assumption.
  - eapply same_letters_not_space; eauto.
Qed.

Lemma normalize_generate_key U (n : nat) (rnd : nat -> nat) :
  normalize U (generate_key n rnd) = generate_key n rnd.
Proof.
  pose proof (normalize_variant U [] (generate_key n rnd) [] (generate_key n rnd)
                (generate_key_alpha n rnd) (List.Forall_nil _) (List.Forall_nil _)
                (same_letter_refl _)) as E.
  simpl in E. rewrite app_nil_r in E. exact E.
Qed.


(** ** Key redemption *)

Section KeyActivation.
Variable U : N -> text.

Lemma activation_bad_format b user_id raw :
  match_key_format (normalize U raw) = false ->
  process_key_activation U b user_id raw = (b, reply_bad_format).
Proof. intros H. unfold process_key_activation. rewrite H. reflexivity. Qed.

Lemma activation_not_found b user_id raw :
  match_key_format (normalize U raw) = true ->
  generated_keys b !! normalize U raw = None ->
  process_key_activation U b user_id raw = (b, reply_not_found).
Proof. intros H1 H2. unfold process_key_activation. rewrite H1, H2. reflexivity. Qed.

Lemma activation_already_used b user_id raw rec redeemer :
  match_key_format (normalize U raw) = true ->
  generated_keys b !! normalize U raw = Some rec ->
  k_user_id rec = Some redeemer ->
  process_key_activation U b user_id raw = (b, reply_already_used (ADMIN_USERNAME b)).
Proof.
  intros H1 H2 H3. unfold process_key_activation. rewrite H1, H2, H3. reflexivity.
Qed.

(** The globals after a successful redemption of [key]. *)
Lemma activation_success b user_id raw rec :
  match_key_format (normalize U raw) = true ->
  generated_keys b !! normalize U raw = Some rec ->
  k_user_id rec = None ->
  let key := normalize U raw in
  let pu := <[user_id := mkGrant (ExpDatetime (k_expiry rec)) key (k_admin_id rec) (k_days rec)]>
              (premium_users b) in
  let gk := <[key := mkKeyRecord (Some user_id) (k_expiry rec) (k_admin_id rec) (k_days rec)]>
              (generated_keys b) in
  process_key_activation U b user_id raw =
    (mkBot (ADMIN_ID b) (ADMIN_USERNAME b) (clear_state (user_data b) user_id) pu gk
           (telegram_accounts b) (user_groups b) (auto_folders b) (message_jobs b)
           (job_queue b)
           (mkDisk pu gk (file_telegram_accounts (files b)) (file_auto_folders (files b))),
     reply_activated (k_days rec) (k_expiry rec)).
Proof.
  intros H1 H2 H3. unfold process_key_activation. rewrite H1, H2, H3. reflexivity.
Qed.

Lemma activation_keeps_binding b key owner user_id raw :
  bound_to b key owner ->
  bound_to (process_key_activation U b user_id raw).1 key owner
  /\ ADMIN_USERNAME (process_key_activation U b user_id raw).1 = ADMIN_USERNAME b.
Proof.
  unfold bound_to. intros Hb. unfold process_key_activation.
  destruct (match_key_format (normalize U raw)); simpl; [| auto].
  destruct (generated_keys b !! normalize U raw) as [rec |] eqn:E; simpl; [| auto].
  destruct (k_user_id rec) eqn:Eu; simpl; [auto |].
  split; [| reflexivity].
  rewrite lookup_insert_ne; [exact Hb |].
  intros Heq. rewrite <- Heq, E in Hb. simpl in Hb. congruence.
Qed.

Lemma activation_of_bound_key b key owner user_id raw :
  match_key_format key = true ->
  bound_to b key owner -> normalize U raw = key ->
  process_key_activation U b user_id raw = (b, reply_already_used (ADMIN_USERNAME b)).
Proof.
  unfold bound_to. intros Hf Hb Hn. subst key.
  destruct (generated_keys b !! normalize U raw) as [rec |] eqn:E; [| discriminate Hb].
  simpl in Hb. injection Hb as Hb.
  eapply activation_already_used; eauto.
Qed.

Lemma activations_of_bound_key attempts : forall b key owner,
  match_key_format key = true ->
  bound_to b key owner ->
  bound_to (activations U b attempts).1 key owner
  /\ forall i user_id raw,
       attempts !! i = Some (user_id, raw) -> normalize U raw = key ->
       (activations U b attempts).2 !! i = Some (reply_already_used (ADMIN_USERNAME b)).
Proof.
  induction attempts as [| [uid raw] rest IH]; intros b key owner Hf Hb.
  - split; [exact Hb | intros i ? ? H; destruct i; discriminate H].
  - simpl.
    destruct (process_key_activation U b uid raw) as [b1 r] eqn:E1.
    destruct (activations U b1 rest) as [b2 rs] eqn:E2.
    pose proof (activation_keeps_binding b key owner uid raw Hb) as [Hb1 Hadm].
    rewrite E1 in Hb1, Hadm. simpl in Hb1, Hadm.
    destruct (IH b1 key owner Hf Hb1) as [Hb2 Hrs]. rewrite E2 in Hb2, Hrs.
    simpl in *. split; [exact Hb2 |].
    intros [| i] user_id raw' Hi Hn; simpl in *.
    + injection Hi as -> ->.
      rewrite (activation_of_bound_key b key owner user_id raw' Hf Hb Hn) in E1.
      congruence.
    + rewrite <- Hadm. eauto.
Qed.

End KeyActivation.


Lemma generate_premium_key_issued pd b now rnd days :
  let res := generate_premium_key pd b now rnd days in
  res.2 = (generate_key 12 rnd, pd now days)
  /\ generated_keys res.1 !! generate_key 12 rnd
     = Some (mkKeyRecord None (pd now days) (ADMIN_ID b) days)
  /\ file_generated_keys (files res.1) = generated_keys res.1.
Proof.
  simpl. split; [reflexivity |]. split; [apply lookup_insert_eq | reflexivity].
Qed.

Example sample_key : Sample.key_A = u "PREMIUM-AAAAAAAAAAAA".
Proof. reflexivity. Qed.

(** C1: a key made by [generate_key] and recorded as issued (no redeemer)
    is redeemed by the first attempt, which binds it to the redeeming user;
    from then on every attempt with that key, whoever makes it and however
    many other attempts come in between, gets the "already used" reply,
    changes nothing, and the binding stays. *)
Theorem redeem_once (U : N -> text) (b : bot) (rnd : nat -> nat)
    (rec : key_record) (user_id : Z) :
  let key := generate_key 12 rnd in
  generated_keys b !! key = Some rec ->
  k_user_id rec = None ->
  let b1 := (process_key_activation U b user_id key).1 in
  (process_key_activation U b user_id key).2
    = reply_activated (k_days rec) (k_expiry rec)
  /\ bound_to b1 key user_id
  /\ (forall other raw, normalize U raw = key ->
        process_key_activation U b1 other raw
        = (b1, reply_already_used (ADMIN_USERNAME b1)))
  /\ (forall attempts,
        bound_to (activations U b1 attempts).1 key user_id
        /\ forall i other raw,
             attempts !! i = Some (other, raw) -> normalize U raw = key ->
             (activations U b1 attempts).2 !! i
             = Some (reply_already_used (ADMIN_USERNAME b1))).
Proof.
  intros key Hrec Hnone b1.
  assert (Hf : match_key_format key = true) by apply generate_key_format.
  assert (Hn : normalize U key = key) by apply normalize_generate_key.
  assert (Hb1 : bound_to b1 key user_id).
  { subst b1. rewrite (activation_success U b user_id key rec); rewrite ?Hn; auto.
    unfold bound_to. simpl. rewrite lookup_insert_eq. reflexivity. }
  split.
  { rewrite (activation_success U b user_id key rec); rewrite ?Hn; auto. }
  split; [exact Hb1 |]. split.
  - intros other raw Hraw. eapply activation_of_bound_key; eauto.
  - intros attempts. apply activations_of_bound_key; assumption.
Qed.

Lemma redeem_once_witness :
  generated_keys Sample.issued_bot !! generate_key 12 (fun _ => 0%nat)
    = Some (mkKeyRecord None Sample.t_expiry (Some 1) 30)
  /\ bound_to Sample.redeemed_bot Sample.key_A 42
  /\ process_key_activation Sample.ascii_only Sample.redeemed_bot 7
       (u " premium-aaaaaaaaaaaa ")
     = (Sample.redeemed_bot, reply_already_used (u "boss")).
Proof.
  split; [reflexivity |].
  pose proof (redeem_once Sample.ascii_only Sample.issued_bot (fun _ => 0%nat)
                (mkKeyRecord None Sample.t_expiry (Some 1) 30) 42
                eq_refl eq_refl) as (_ & Hb & Hagain & _).
  split; [exact Hb |].
  exact (Hagain 7 (u " premium-aaaaaaaaaaaa ") eq_refl).
Defined.


(** The texts of the three refusals and of the success message are pairwise
    different, whatever the admin's name, the duration and the date. *)
Lemma key_replies_distinct (admin : text) (days : Z) (expiry : datetime) :
  r_text reply_bad_format <> r_text reply_not_found
  /\ r_text reply_bad_format <> r_text (reply_already_used admin)
  /\ r_text reply_not_found <> r_text (reply_already_used admin)
  /\ r_text (reply_activated days expiry) <> r_text reply_bad_format
  /\ r_text (reply_activated days expiry) <> r_text reply_not_found
  /\ r_text (reply_activated days expiry) <> r_text (reply_already_used admin).
Proof. repeat split; discriminate. Qed.

(** C2: the handler checks the format of the submitted text (as it reads
    it: stripped and upper-cased), then whether the key is in the store,
    then whether it is still unredeemed, and answers with the first check
    that fails.  A text of the wrong format gets the "bad format" reply
    whatever the key store holds; the three refusals are three different
    replies. *)
Theorem checks_in_order (U : N -> text) (b : bot) (user_id : Z) (raw : text) :
  (match_key_format (normalize U raw) = false ->
     forall keys : gmap text key_record,
       process_key_activation U (set_generated_keys b keys) user_id raw
       = (set_generated_keys b keys, reply_bad_format))
  /\ (match_key_format (normalize U raw) = true ->
      generated_keys b !! normalize U raw = None ->
      process_key_activation U b user_id raw = (b, reply_not_found))
  /\ (match_key_format (normalize U raw) = true ->
      forall rec redeemer,
        generated_keys b !! normalize U raw = Some rec ->
        k_user_id rec = Some redeemer ->
        process_key_activation U b user_id raw
        = (b, reply_already_used (ADMIN_USERNAME b)))
  /\ (match_key_format (normalize U raw) = true ->
      forall rec,
        generated_keys b !! normalize U raw = Some rec ->
        k_user_id rec = None ->
        (process_key_activation U b user_id raw).2
        = reply_activated (k_days rec) (k_expiry rec))
  /\ reply_bad_format <> reply_not_found
  /\ reply_bad_format <> reply_already_used (ADMIN_USERNAME b)
  /\ reply_not_found <> reply_already_used (ADMIN_USERNAME b).
Proof.
  split; [| split; [| split; [| split]]].
  - intros H keys. apply activation_bad_format. exact H.
  - apply activation_not_found.
  - intros H rec redeemer. apply activation_already_used. exact H.
  - intros H rec Hrec Hnone.
    rewrite (activation_success U b user_id raw rec); auto.
  - repeat split; discriminate.
Qed.

Lemma checks_in_order_witness :
  (forall keys : gmap text key_record,
     process_key_activation Sample.ascii_only
       (set_generated_keys Sample.issued_bot keys) 42 (u "premium-aaa")
     = (set_generated_keys Sample.issued_bot keys, reply_bad_format))
  /\ process_key_activation Sample.ascii_only Sample.issued_bot 42
       (u "PREMIUM-BBBBBBBBBBBB")
     = (Sample.issued_bot, reply_not_found)
  /\ process_key_activation Sample.ascii_only Sample.redeemed_bot 7 (u "premium-aaaaaaaaaaaa")
     = (Sample.redeemed_bot, reply_already_used (u "boss")).
Proof.
  split; [| split].
  - exact (proj1 (checks_in_order Sample.ascii_only Sample.issued_bot 42
                    (u "premium-aaa")) eq_refl).
  - exact (proj1 (proj2 (checks_in_order Sample.ascii_only Sample.issued_bot 42
                           (u "PREMIUM-BBBBBBBBBBBB"))) eq_refl eq_refl).
  - exact (proj1 (proj2 (proj2 (checks_in_order Sample.ascii_only Sample.redeemed_bot 7
                                  (u "premium-aaaaaaaaaaaa"))))
             eq_refl (mkKeyRecord (Some 42) Sample.t_expiry (Some 1) 30) 42
             eq_refl eq_refl).
Defined.

(** C3: a redemption either answers with one of the three refusals and
    leaves every global and every file as it was, or it answers with the
    success message and then both writes are there, in memory and in the
    two files: the user's grant, taken from the key record, and the key's
    redeemer; nothing else in the two stores moves. *)
Theorem redemption_all_or_nothing (U : N -> text) (b : bot) (user_id : Z) (raw : text) :
  let key := normalize U raw in
  let b' := (process_key_activation U b user_id raw).1 in
  let r := (process_key_activation U b user_id raw).2 in
  ((r = reply_bad_format \/ r = reply_not_found
    \/ r = reply_already_used (ADMIN_USERNAME b)) /\ b' = b)
  \/ (exists rec,
        generated_keys b !! key = Some rec /\ k_user_id rec = None
        /\ r = reply_activated (k_days rec) (k_expiry rec)
        /\ r <> reply_bad_format /\ r <> reply_not_found
        /\ r <> reply_already_used (ADMIN_USERNAME b)
        /\ premium_users b' !! user_id
           = Some (mkGrant (ExpDatetime (k_expiry rec)) key (k_admin_id rec) (k_days rec))
        /\ generated_keys b' !! key
           = Some (mkKeyRecord (Some user_id) (k_expiry rec) (k_admin_id rec) (k_days rec))
        /\ (forall other, other <> user_id ->
              premium_users b' !! other = premium_users b !! other)
        /\ (forall other, other <> key ->
              generated_keys b' !! other = generated_keys b !! other)
        /\ file_premium_users (files b') = premium_users b'
        /\ file_generated_keys (files b') = generated_keys b').
Proof.
  intros key b' r. subst b' r.
  destruct (match_key_format key) eqn:Hf.
  2:{ left. rewrite activation_bad_format by exact Hf. simpl. auto. }
  destruct (generated_keys b !! key) as [rec |] eqn:Hk.
  2:{ left. rewrite activation_not_found by assumption. simpl. auto. }
  destruct (k_user_id rec) as [redeemer |] eqn:Hu.
  { left. rewrite (activation_already_used U b user_id raw rec redeemer) by assumption.
    simpl. auto. }
  right. exists rec.
  rewrite (activation_success U b user_id raw rec) by assumption. simpl.
  fold key.
  repeat split; try discriminate; try assumption;
    try apply lookup_insert_eq;
    intros other Hne; apply lookup_insert_ne; congruence.
Qed.

(** C10: the handler strips the submitted text and upper-cases it before
    it checks anything, so two texts with the same normal form get the same
    treatment, and a text that is an issued key up to letter case, with
    blanks before and after, redeems that key. *)
Theorem redemption_normalizes_input (U : N -> text) (b : bot) (rnd : nat -> nat)
    (rec : key_record) (user_id : Z) (lead variant trail : text) :
  let key := generate_key 12 rnd in
  generated_keys b !! key = Some rec ->
  k_user_id rec = None ->
  Forall (fun c => is_space c = true) lead ->
  Forall (fun c => is_space c = true) trail ->
  Forall2 same_letter variant key ->
  let raw := lead ++ variant ++ trail in
  normalize U raw = key
  /\ (process_key_activation U b user_id raw).2
     = reply_activated (k_days rec) (k_expiry rec)
  /\ bound_to (process_key_activation U b user_id raw).1 key user_id
  /\ process_key_activation U b user_id raw = process_key_activation U b user_id key
  /\ (forall raw1 raw2 b0 u0, normalize U raw1 = normalize U raw2 ->
        process_key_activation U b0 u0 raw1 = process_key_activation U b0 u0 raw2).
Proof.
  intros key Hrec Hnone Hl Ht Hv raw.
  assert (Hn : normalize U raw = key).
  { apply normalize_variant; auto. apply generate_key_alpha. }
  assert (Hsame : forall raw1 raw2 b0 u0, normalize U raw1 = normalize U raw2 ->
            process_key_activation U b0 u0 raw1 = process_key_activation U b0 u0 raw2).
  { intros raw1 raw2 b0 u0 E. unfold process_key_activation. rewrite E. reflexivity. }
  assert (Hf : match_key_format (normalize U raw) = true)
    by (rewrite Hn; apply generate_key_format).
  rewrite <- Hn in Hrec.
  pose proof (activation_success U b user_id raw rec Hf Hrec Hnone) as E.
  simpl in E. split; [exact Hn |]. rewrite E. simpl.
  split; [reflexivity |]. split.
  - unfold bound_to. simpl. rewrite Hn, lookup_insert_eq. reflexivity.
  - split; [| exact Hsame]. rewrite <- E. apply Hsame.
    rewrite Hn. symmetry. apply normalize_generate_key.
Qed.

Lemma redemption_normalizes_input_witness :
  normalize Sample.ascii_only ([9; 32] ++ u "Premium-aaAAaaAAaaAA" ++ [32; 10])%N
    = Sample.key_A
  /\ bound_to
       (process_key_activation Sample.ascii_only Sample.issued_bot 42
          ([9; 32] ++ u "Premium-aaAAaaAAaaAA" ++ [32; 10])%N).1
       Sample.key_A 42.
Proof.
  assert (Hv : Forall2 same_letter (u "Premium-aaAAaaAAaaAA") Sample.key_A).
  { cbv -[same_letter].
    repeat (apply List.Forall2_cons;
            [first [left; reflexivity | right; split; reflexivity] |]).
    apply List.Forall2_nil. }
  pose proof (redemption_normalizes_input Sample.ascii_only Sample.issued_bot
                (fun _ => 0%nat) (mkKeyRecord None Sample.t_expiry (Some 1) 30) 42
                [9; 32]%N (u "Premium-aaAAaaAAaaAA") [32; 10]%N
                eq_refl eq_refl
                ltac:(repeat constructor) ltac:(repeat constructor) Hv)
    as (Hn & _ & Hb & _).
  split; [exact Hn | exact Hb].
Defined.


(** ** [is_premium] *)

Lemma lex_lt_irrefl (a : list N) : lex_lt a a = false.
Proof.
  induction a as [| x a IH]; [reflexivity |]. simpl.
  rewrite N.ltb_irrefl, N.eqb_refl, IH. reflexivity.
Qed.

Lemma lex_lt_asym (a : list N) : forall b, lex_lt a b = true -> lex_lt b a = false.
Proof.
  induction a as [| x a IH]; intros [| y b]; simpl; try discriminate; auto.
  intros H. apply orb_true_iff in H as [H | H].
  - apply N.ltb_lt in H.
    destruct (N.ltb_spec y x); [lia |]. destruct (N.eqb_spec y x); [lia | reflexivity].
  - apply andb_true_iff in H as [H1 H2]. apply N.eqb_eq in H1. subst y.
    rewrite N.ltb_irrefl, N.eqb_refl. simpl. auto.
Qed.

Lemma lex_lt_trans (a : list N) : forall b c,
  lex_lt a b = true -> lex_lt b c = true -> lex_lt a c = true.
Proof.
  induction a as [| x a IH]; intros [| y b] [| z c]; simpl; try discriminate.
  intros H1 H2. apply orb_true_iff in H1. apply orb_true_iff in H2.
  apply orb_true_iff.
  destruct H1 as [H1 | H1], H2 as [H2 | H2];
    rewrite ?andb_true_iff, ?N.ltb_lt, ?N.eqb_eq in *.
  - left. lia.
  - left. destruct H2 as [-> _]. exact H1.
  - left. destruct H1 as [-> _]. exact H2.
  - right. destruct H1 as [-> H1], H2 as [-> H2]. split; [reflexivity | eauto].
Qed.

Lemma lex_trichotomy (a : list N) : forall b,
  length a = length b -> lex_lt a b = true \/ a = b \/ lex_lt b a = true.
Proof.
  induction a as [| x a IH]; intros [| y b] Hlen; try discriminate Hlen; simpl.
  - right. left. reflexivity.
  - injection Hlen as Hlen.
    destruct (N.lt_trichotomy x y) as [H | [-> | H]].
    + left. apply orb_true_iff. left. apply N.ltb_lt. exact H.
    + rewrite N.ltb_irrefl, N.eqb_refl. simpl.
      destruct (IH b Hlen) as [H | [-> | H]]; auto.
    + right. right. apply orb_true_iff. left. apply N.ltb_lt. exact H.
Qed.

Lemma fields_inj (d1 d2 : datetime) : fields d1 = fields d2 -> d1 = d2.
Proof.
  destruct d1, d2; unfold fields; simpl; intros H; injection H; intros; subst.
  reflexivity.
Qed.

(** Two datetimes are equal, or one is before the other. *)
Lemma dt_trichotomy (a b : datetime) :
  dt_lt a b = true \/ a = b \/ dt_lt b a = true.
Proof.
  unfold dt_lt. destruct (lex_trichotomy (fields a) (fields b) eq_refl) as [H | [H | H]];
    auto using fields_inj.
Qed.

(** ** Field order and calendar order agree *)

Lemma div_steps (y : Z) :
  1 <= y ->
  y / 4 - (y - 1) / 4 = (if y mod 4 =? 0 then 1 else 0)
  /\ y / 100 - (y - 1) / 100 = (if y mod 100 =? 0 then 1 else 0)
  /\ y / 400 - (y - 1) / 400 = (if y mod 400 =? 0 then 1 else 0).
Proof.
  intros H. repeat split.
  - destruct (Z.eqb_spec (y mod 4) 0); Z.div_mod_to_equations; lia.
  - destruct (Z.eqb_spec (y mod 100) 0); Z.div_mod_to_equations; lia.
  - destruct (Z.eqb_spec (y mod 400) 0); Z.div_mod_to_equations; lia.
Qed.

Lemma mod_chain (y : Z) :
  (y mod 400 = 0 -> y mod 100 = 0) /\ (y mod 100 = 0 -> y mod 4 = 0).
Proof.
  split; intros H.
  - apply Z.mod_divide in H; [| lia]. destruct H as [k ->].
    replace (k * 400) with ((k * 4) * 100) by lia. apply Z.mod_mul. lia.
  - apply Z.mod_divide in H; [| lia]. destruct H as [k ->].
    replace (k * 100) with ((k * 25) * 4) by lia. apply Z.mod_mul. lia.
Qed.

Lemma days_before_year_Z (y : N) :
  (1 <= y)%N ->
  Z.of_N (days_before_year y)
  = (Z.of_N y - 1) * 365 + (Z.of_N y - 1) / 4 - (Z.of_N y - 1) / 100
    + (Z.of_N y - 1) / 400.
Proof.
  intros H. unfold days_before_year.
  assert (E : Z.of_N (y - 1) = Z.of_N y - 1) by lia.
  assert (Hle : ((y - 1) / 100 <= (y - 1) * 365 + (y - 1) / 4)%N).
  { apply N2Z.inj_le. rewrite N2Z.inj_add, N2Z.inj_mul, !N2Z.inj_div, E.
    change (Z.of_N 100) with 100. change (Z.of_N 4) with 4. change (Z.of_N 365) with 365.
    Z.div_mod_to_equations. lia. }
  rewrite N2Z.inj_add, N2Z.inj_sub by exact Hle.
  rewrite N2Z.inj_add, N2Z.inj_mul, !N2Z.inj_div, E. reflexivity.
Qed.

(** A year has 365 days, a leap year one more. *)
Lemma days_before_year_succ (y : N) :
  (1 <= y)%N ->
  days_before_year (y + 1) = (days_before_year y + 365 + (if is_leap y then 1 else 0))%N.
Proof.
  intros H. apply N2Z.inj.
  rewrite N2Z.inj_add, N2Z.inj_add, !days_before_year_Z by lia.
  replace (Z.of_N (y + 1) - 1) with (Z.of_N y) by lia.
  destruct (div_steps (Z.of_N y) ltac:(lia)) as (H4 & H100 & H400).
  destruct (mod_chain (Z.of_N y)) as [C1 C2].
  unfold is_leap.
  assert (E4 : (y mod 4 =? 0)%N = (Z.of_N y mod 4 =? 0)).
  { destruct (N.eqb_spec (y mod 4) 0) as [E | E], (Z.eqb_spec (Z.of_N y mod 4) 0) as [E' | E'];
      try reflexivity; exfalso;
      change 4 with (Z.of_N 4) in E'; rewrite <- N2Z.inj_mod in E'; lia. }
  assert (E100 : (y mod 100 =? 0)%N = (Z.of_N y mod 100 =? 0)).
  { destruct (N.eqb_spec (y mod 100) 0) as [E | E], (Z.eqb_spec (Z.of_N y mod 100) 0) as [E' | E'];
      try reflexivity; exfalso;
      change 100 with (Z.of_N 100) in E'; rewrite <- N2Z.inj_mod in E'; lia. }
  assert (E400 : (y mod 400 =? 0)%N = (Z.of_N y mod 400 =? 0)).
  { destruct (N.eqb_spec (y mod 400) 0) as [E | E], (Z.eqb_spec (Z.of_N y mod 400) 0) as [E' | E'];
      try reflexivity; exfalso;
      change 400 with (Z.of_N 400) in E'; rewrite <- N2Z.inj_mod in E'; lia. }
  rewrite E4, E100, E400.
  destruct (Z.eqb_spec (Z.of_N y mod 4) 0) as [M4 | M4];
    destruct (Z.eqb_spec (Z.of_N y mod 100) 0) as [M100 | M100];
    destruct (Z.eqb_spec (Z.of_N y mod 400) 0) as [M400 | M400];
    simpl; try (exfalso; tauto); lia.
Qed.

Lemma days_before_year_mono (y1 y2 : N) :
  (1 <= y1 -> y1 <= y2 -> days_before_year y1 <= days_before_year y2)%N.
Proof.
  intros H1 H2. revert y2 H2. apply N.le_ind.
  - intros ? ? ->. reflexivity.
  - reflexivity.
  - intros m Hm IH. rewrite <- N.add_1_r, days_before_year_succ by lia. lia.
Qed.

Lemma days_before_year_step (y1 y2 : N) :
  (1 <= y1 -> y1 < y2 ->
   days_before_year y1 + 365 + (if is_leap y1 then 1 else 0) <= days_before_year y2)%N.
Proof.
  intros H1 H2. rewrite <- days_before_year_succ by exact H1.
  apply days_before_year_mono; lia.
Qed.

Lemma month_cases (m : N) :
  (1 <= m <= 12)%N ->
  m = 1%N \/ m = 2%N \/ m = 3%N \/ m = 4%N \/ m = 5%N \/ m = 6%N \/ m = 7%N
  \/ m = 8%N \/ m = 9%N \/ m = 10%N \/ m = 11%N \/ m = 12%N.
Proof. lia. Qed.

Lemma days_before_month_step (y m1 m2 : N) :
  (1 <= m1 -> m1 < m2 -> m2 <= 12 ->
   days_before_month y m1 + days_in_month y m1 <= days_before_month y m2)%N.
Proof.
  intros H1 H2 H3. unfold days_before_month, days_in_month.
  destruct (is_leap y);
    destruct (month_cases m1 ltac:(lia)) as [-> | [-> | [-> | [-> | [-> | [-> | [-> | [-> | [-> | [-> | [-> | ->]]]]]]]]]]];
    destruct (month_cases m2 ltac:(lia)) as [-> | [-> | [-> | [-> | [-> | [-> | [-> | [-> | [-> | [-> | [-> | ->]]]]]]]]]]];
    try lia; vm_compute; discriminate.
Qed.

Lemma days_before_month_year (y m : N) :
  (1 <= m <= 12 ->
   days_before_month y m + days_in_month y m <= 365 + (if is_leap y then 1 else 0))%N.
Proof.
  intros H. unfold days_before_month, days_in_month.
  destruct (is_leap y);
    destruct (month_cases m H) as [-> | [-> | [-> | [-> | [-> | [-> | [-> | [-> | [-> | [-> | [-> | ->]]]]]]]]]]];
    vm_compute; discriminate.
Qed.

Lemma valid_fields (d : datetime) :
  valid d = true ->
  (1 <= year d /\ 1 <= month d <= 12 /\ 1 <= day d <= days_in_month (year d) (month d)
   /\ hour d < 24 /\ minute d < 60 /\ second d < 60 /\ microsecond d < 1000000)%N.
Proof.
  unfold valid. rewrite !andb_true_iff, !N.leb_le, !N.ltb_lt. lia.
Qed.

(** For valid datetimes, before in the order of the fields means an
    earlier instant. *)
Lemma dt_lt_earlier (a b : datetime) :
  valid a = true -> valid b = true -> dt_lt a b = true -> to_micros a < to_micros b.
Proof.
  intros Ha Hb.
  destruct (valid_fields a Ha) as (Hya & Hma & Hda & Hha & Hmia & Hsa & Husa).
  destruct (valid_fields b Hb) as (Hyb & Hmb & Hdb & Hhb & Hmib & Hsb & Husb).
  unfold dt_lt, fields, to_micros, toordinal.
  destruct a as [y1 m1 d1 h1 mi1 s1 us1], b as [y2 m2 d2 h2 mi2 s2 us2].
  cbn [lex_lt year month day hour minute second microsecond] in *.
  do 8 (rewrite ?orb_true_iff, ?andb_true_iff).
  rewrite ?N.ltb_lt, ?N.eqb_eq.
  intros H. apply N2Z.inj_lt.
  pose proof (days_before_month_year y1 m1 Hma) as Hy1.
  destruct H as [H | [-> H]].
  { pose proof (days_before_year_step y1 y2 Hya H). lia. }
  destruct H as [H | [-> H]].
  { pose proof (days_before_month_step y2 m1 m2 ltac:(lia) H ltac:(lia)). lia. }
  lia.
Qed.

Lemma dt_lt_chronological (a b : datetime) :
  valid a = true -> valid b = true ->
  (dt_lt a b = true <-> to_micros a < to_micros b).
Proof.
  intros Ha Hb. split; [apply dt_lt_earlier; assumption |].
  intros Hlt. destruct (dt_trichotomy a b) as [H | [-> | H]]; [exact H | lia |].
  pose proof (dt_lt_earlier b a Hb Ha H). lia.
Qed.

(** C4: for a user with a grant, [is_premium] is true exactly while the
    clock is strictly before the grant's expiry, false at the expiry itself
    and at every later time; without a grant it is false.  "Before" is the
    order of the datetime fields, which for valid datetimes is the order of
    the instants.  The answer depends on the clock of the call alone: on
    the same store an earlier call says true and a later one false. *)
Theorem is_premium_until_expiry (b : bot) (user_id : Z) :
  (premium_users b !! user_id = None ->
     forall now, is_premium b now user_id = Some false)
  /\ (forall g expiry,
        premium_users b !! user_id = Some g ->
        expiry_instant (g_expiry g) = Some expiry ->
        (forall now, is_premium b now user_id = Some true <-> dt_lt now expiry = true)
        /\ (forall now, valid now = true -> valid expiry = true ->
                        (is_premium b now user_id = Some true
                         <-> to_micros now < to_micros expiry))
        /\ is_premium b expiry user_id = Some false
        /\ (forall now, dt_lt expiry now = true -> is_premium b now user_id = Some false)
        /\ (forall now, is_premium b now user_id = Some true
                        \/ is_premium b now user_id = Some false)
        /\ (forall early late,
              dt_lt early expiry = true -> dt_lt late expiry = false ->
              is_premium b early user_id = Some true
              /\ is_premium b late user_id = Some false)).
Proof.
  split.
  - intros H now. unfold is_premium. rewrite H. reflexivity.
  - intros g expiry Hg He.
    assert (E : forall now, is_premium b now user_id = Some (dt_lt now expiry)).
    { intros now. unfold is_premium. rewrite Hg, He. reflexivity. }
    split; [intros now; rewrite E; split; congruence |].
    split.
    { intros now Hn Hx. rewrite E, <- dt_lt_chronological by assumption.
      split; congruence. }
    repeat split.
    + rewrite E. unfold dt_lt. rewrite lex_lt_irrefl. reflexivity.
    + intros now H. rewrite E. f_equal. apply lex_lt_asym. exact H.
    + intros now. rewrite E. destruct (dt_lt now expiry); auto.
    + rewrite E. f_equal. assumption.
    + rewrite E. f_equal. assumption.
Qed.

Lemma is_premium_until_expiry_witness :
  is_premium Sample.redeemed_bot (mkDatetime 2025 4 8 7 5 0 1499) 42 = Some true
  /\ is_premium Sample.redeemed_bot Sample.t_expiry 42 = Some false
  /\ is_premium Sample.redeemed_bot (mkDatetime 2025 4 8 7 5 0 1501) 42 = Some false
  /\ is_premium Sample.redeemed_bot Sample.t0 7 = Some false.
Proof.
  pose proof (is_premium_until_expiry Sample.redeemed_bot 42) as [_ H].
  destruct (H (mkGrant (ExpDatetime Sample.t_expiry) Sample.key_A (Some 1) 30)
              Sample.t_expiry eq_refl eq_refl) as (_ & _ & Hat & _ & _ & Hboth).
  destruct (Hboth (mkDatetime 2025 4 8 7 5 0 1499) (mkDatetime 2025 4 8 7 5 0 1501)
              eq_refl eq_refl) as [He Hl].
  split; [exact He |]. split; [exact Hat |]. split; [exact Hl |].
  exact (proj1 (is_premium_until_expiry Sample.redeemed_bot 7) eq_refl Sample.t0).
Defined.

(** ** Auto folders *)

Lemma elem_of_keys (gs : list (Z * group)) (gid : Z) :
  gid ∈ map fst gs <-> exists g, (gid, g) ∈ gs.
Proof.
  rewrite list_elem_of_In, in_map_iff. split.
  - intros ([gid' g] & <- & Hin). exists g. apply list_elem_of_In. exact Hin.
  - intros [g Hin]. exists (gid, g). split; [reflexivity | apply list_elem_of_In; exact Hin].
Qed.

(** C9: a folder is created only for an owner with a linked account whose
    session is usable and with at least one registered group; its groups
    are then the ids of the owner's registered groups, in their order.  An
    owner who already has a folder never gets a second one: the call
    changes nothing, and when the first two checks pass the reply is the
    "already exists" notice. *)
Theorem create_auto_folder_spec (b : bot) (user_id : Z) :
  let b' := (create_auto_folder b user_id).1 in
  let r := (create_auto_folder b user_id).2 in
  (r = reply_folder_created ->
     has_session b user_id = true
     /\ groups_of b user_id <> []
     /\ auto_folders b !! user_id = None
     /\ auto_folders b' !! user_id
        = Some (mkFolder (u "Avto-Papka") (map fst (groups_of b user_id)))
     /\ (forall gid, gid ∈ map fst (groups_of b user_id)
                     <-> exists g, (gid, g) ∈ groups_of b user_id)
     /\ (forall other, other <> user_id ->
           auto_folders b' !! other = auto_folders b !! other)
     /\ file_auto_folders (files b') = auto_folders b')
  /\ (is_Some (auto_folders b !! user_id) ->
        b' = b /\ r <> reply_folder_created
        /\ (has_session b user_id = true -> groups_of b user_id <> [] ->
            r = reply_folder_exists))
  /\ (r <> reply_folder_created -> b' = b)
  /\ (has_session b user_id = true -> groups_of b user_id <> [] ->
      auto_folders b !! user_id = None -> r = reply_folder_created).
Proof.
  intros b' r. subst b' r. unfold create_auto_folder.
  destruct (has_session b user_id) eqn:Hs; simpl.
  2:{ repeat split; try discriminate; auto. }
  destruct (groups_of b user_id) as [| g gs] eqn:Hg; simpl.
  { repeat split; try discriminate; auto; congruence. }
  destruct (auto_folders b !! user_id) as [f |] eqn:Hf; simpl.
  { repeat split; try discriminate; auto. }
  split; [| split; [| split]].
  - intros _. repeat split; try discriminate; auto.
    + apply lookup_insert_eq.
    + apply (proj1 (elem_of_keys (g :: gs) gid)).
    + apply (proj2 (elem_of_keys (g :: gs) gid)).
    + intros other Hne. apply lookup_insert_ne. congruence.
  - intros [? ?]; discriminate.
  - intros H. exfalso. apply H. reflexivity.
  - reflexivity.
Qed.

Lemma create_auto_folder_spec_witness :
  has_session Sample.linked_bot 42 = true
  /\ (create_auto_folder Sample.linked_bot 42).2 = reply_folder_created
  /\ auto_folders (create_auto_folder Sample.linked_bot 42).1 !! 42
     = Some (mkFolder (u "Avto-Papka") [11; 22])
  /\ create_auto_folder (create_auto_folder Sample.linked_bot 42).1 42
     = ((create_auto_folder Sample.linked_bot 42).1, reply_folder_exists).
Proof.
  destruct (create_auto_folder_spec Sample.linked_bot 42) as (Hmade & _ & _ & Hgo).
  assert (Hr : (create_auto_folder Sample.linked_bot 42).2 = reply_folder_created)
    by (apply Hgo; [reflexivity | discriminate | reflexivity]).
  destruct (Hmade Hr) as (Hs & _ & _ & Hf & _).
  split; [exact Hs |]. split; [exact Hr |]. split; [exact Hf |].
  destruct (create_auto_folder_spec (create_auto_folder Sample.linked_bot 42).1 42)
    as (_ & Hagain & _).
  destruct (Hagain (ex_intro _ _ Hf)) as (Hsame & _ & Hexists).
  apply injective_projections; [exact Hsame |].
  apply Hexists; [reflexivity | discriminate].
Defined.


(** ** The scheduler *)

Lemma queue_schedule_removal b i :
  queue (schedule_removal b i) = alter mark_removed i (queue b).
Proof. unfold queue, schedule_removal. simpl. destruct (job_queue b); reflexivity. Qed.

Lemma wound_down_refl q : wound_down q q.
Proof. apply Forall_Forall2_diag, Forall_forall. intros; left; reflexivity. Qed.

Lemma mark_removed_twice j : mark_removed (mark_removed j) = mark_removed j.
Proof. reflexivity. Qed.

Lemma wound_down_trans q1 q2 q3 :
  wound_down q1 q2 -> wound_down q2 q3 -> wound_down q1 q3.
Proof.
  unfold wound_down. intros H12. revert q3.
  induction H12 as [| j1 j2 q1 q2 H _ IH]; intros q3 H23; inversion H23; subst;
    constructor; auto.
  destruct H as [-> | ->]; auto.
  match goal with H : _ \/ _ |- _ => destruct H as [-> | ->] end; auto.
Qed.

Lemma wound_down_alter q i : wound_down q (alter mark_removed i q).
Proof.
  apply Forall2_alter_r; [apply wound_down_refl |].
  intros j j' _ _ [-> | ->]; right; reflexivity.
Qed.

(** Removals never add an active job. *)
Lemma wound_down_active q q' owner :
  wound_down q q' ->
  (length (filter (is_active owner) q') <= length (filter (is_active owner) q))%nat.
Proof.
  induction 1 as [| j j' q q' H _ IH]; [reflexivity |].
  rewrite !filter_cons.
  destruct H as [-> | ->].
  - destruct (decide (is_active owner j)); simpl; lia.
  - destruct (decide (is_active owner (mark_removed j))) as [[Hr _] | _];
      [discriminate Hr |].
    destruct (decide (is_active owner j)); simpl; lia.
Qed.

Lemma wound_down_lookup q q' i j' :
  wound_down q q' -> q' !! i = Some j' -> j_removed j' = false -> q !! i = Some j'.
Proof.
  intros H Hi Hact. destruct (Forall2_lookup_r _ _ _ _ _ H Hi) as (j & Hj & [-> | ->]);
    [exact Hj | discriminate Hact].
Qed.

Lemma wound_down_removed q q' i j j' :
  wound_down q q' -> q !! i = Some j -> q' !! i = Some j' ->
  j_removed j = true -> j_removed j' = true.
Proof.
  intros H Hi Hi' Hr. destruct (Forall2_lookup_lr _ _ _ _ _ _ H Hi Hi') as [-> | ->]; auto.
Qed.

(** At most one element satisfies [P] when all that do sit at one place. *)
Lemma filter_at_most_one {A} (P : A -> Prop) `{Hdec : !forall x, Decision (P x)}
    (l : list A) :
  (forall i i' x x', l !! i = Some x -> l !! i' = Some x' -> P x -> P x' -> i = i') ->
  (length (filter P l) <= 1)%nat.
Proof.
  induction l as [| a l IH]; intros H; [simpl; lia |].
  rewrite filter_cons. destruct (decide (P a)) as [Ha | Ha].
  - assert (E : filter P l = []).
    { destruct (filter P l) as [| x rest] eqn:E; [reflexivity |].
      assert (Hx : x ∈ filter P l) by (rewrite E; left).
      apply list_elem_of_filter in Hx as [HPx Hx].
      apply list_elem_of_lookup in Hx as [i Hi].
      specialize (H 0%nat (S i) a x eq_refl Hi Ha HPx). discriminate H. }
    rewrite E. simpl. lia.
  - apply IH. intros i i' x x' Hi Hi' Hx Hx'.
    specialize (H (S i) (S i') x x' Hi Hi' Hx Hx'). lia.
Qed.

Lemma tracked_at_most_one b : jobs_tracked b -> at_most_one_job b.
Proof.
  intros Ht owner. apply filter_at_most_one.
  intros i i' j j' Hi Hi' [Hr Hu] [Hr' Hu'].
  pose proof (Ht i j Hi Hr) as E. pose proof (Ht i' j' Hi' Hr') as E'.
  rewrite Hu in E. rewrite Hu' in E'. congruence.
Qed.

Lemma no_active_jobs q owner :
  (forall i j, q !! i = Some j -> j_user_id j = owner -> j_removed j = true) ->
  filter (is_active owner) q = [].
Proof.
  intros H. destruct (filter (is_active owner) q) as [| x rest] eqn:E; [reflexivity |].
  assert (Hx : x ∈ filter (is_active owner) q) by (rewrite E; left).
  apply list_elem_of_filter in Hx as [[Hr Hu] Hx].
  apply list_elem_of_lookup in Hx as [i Hi].
  rewrite (H i x Hi Hu) in Hr. discriminate Hr.
Qed.

Lemma last_cons_default {A} (l : list A) : forall x d,
  List.last (x :: l) d = List.last l x.
Proof.
  induction l as [| y l IH]; intros x d; [reflexivity |].
  change (List.last (x :: y :: l) d) with (List.last (y :: l) d).
  rewrite (IH y d), (IH y x). reflexivity.
Qed.

Lemma removal_loop_spec hs : forall b,
  let states := removal_loop b hs in
  let bl := List.last states b in
  Forall (fun s => wound_down (queue b) (queue s)) states
  /\ wound_down (queue b) (queue bl)
  /\ message_jobs bl = message_jobs b
  /\ user_data bl = user_data b
  /\ (forall i j, i ∈ hs -> queue bl !! i = Some j -> j_removed j = true).
Proof.
  induction hs as [| h hs IH]; intros b.
  - simpl. repeat split; auto using wound_down_refl. intros i j Hi. inversion Hi.
  - cbn [removal_loop]. cbv zeta. set (b1 := schedule_removal b h).
    destruct (IH b1) as (Hall & Hlast & Hmj & Hud & Hrem).
    assert (H01 : wound_down (queue b) (queue b1))
      by (unfold b1; rewrite queue_schedule_removal; apply wound_down_alter).
    rewrite last_cons_default.
    repeat split.
    + constructor; [exact H01 |].
      eapply List.Forall_impl; [| exact Hall]. intros s Hs.
      eapply wound_down_trans; eauto.
    + eapply wound_down_trans; eauto.
    + rewrite Hmj. reflexivity.
    + rewrite Hud. reflexivity.
    + intros i j Hi Hj. apply elem_of_cons in Hi as [-> | Hi]; [| eauto].
      destruct (Forall2_lookup_r _ _ _ _ _ Hlast Hj) as (j1 & Hj1 & _).
      eapply wound_down_removed; [exact Hlast | exact Hj1 | exact Hj |].
      unfold b1 in Hj1. rewrite queue_schedule_removal, list_lookup_alter_eq in Hj1.
      destruct (queue b !! h); [| discriminate Hj1]. injection Hj1 as <-. reflexivity.
Qed.

Lemma wound_down_at_most_one b s :
  jobs_tracked b -> wound_down (queue b) (queue s) -> at_most_one_job s.
Proof.
  intros Ht Hw owner. unfold active_jobs.
  pose proof (wound_down_active _ _ owner Hw).
  pose proof (tracked_at_most_one b Ht owner). unfold active_jobs in *. lia.
Qed.

(** The cancelling block leaves no job of the owner to fire. *)
Lemma cancel_jobs_spec b user_id :
  jobs_tracked b ->
  let states := cancel_jobs b user_id in
  let bl := List.last states b in
  Forall at_most_one_job states
  /\ jobs_tracked bl
  /\ active_jobs bl user_id = []
  /\ message_jobs bl !! user_id = None
  /\ user_data bl = user_data b.
Proof.
  intros Ht. unfold cancel_jobs.
  destruct (message_jobs b !! user_id) as [hs |] eqn:Hmj; cbv zeta.
  - destruct (removal_loop_spec hs b) as (Hall & Hlast & Hm & Hud & Hrem).
    set (loop := removal_loop b hs) in *. set (b1 := List.last loop b) in *.
    rewrite last_last.
    assert (Hnone : forall i j, queue b1 !! i = Some j -> j_user_id j = user_id ->
                                j_removed j = true).
    { intros i j Hi Hu. destruct (j_removed j) eqn:Hr; [reflexivity |].
      pose proof (wound_down_lookup _ _ _ _ Hlast Hi Hr) as Hi0.
      pose proof (Ht i j Hi0 Hr) as E. rewrite Hu, Hmj in E. injection E as ->.
      rewrite <- Hr. apply (Hrem i j); [left | exact Hi]. }
    repeat split.
    + apply Forall_app. split.
      * eapply List.Forall_impl; [| exact Hall]. intros s Hs.
        eapply wound_down_at_most_one; eauto.
      * constructor; [| constructor].
        apply (wound_down_at_most_one b); [exact Ht | exact Hlast].
    + intros i j Hi Hr. change (queue b1 !! i = Some j) in Hi. simpl.
      assert (Hne : j_user_id j <> user_id).
      { intros Hu. rewrite (Hnone i j Hi Hu) in Hr. discriminate Hr. }
      rewrite lookup_delete_ne by congruence. rewrite Hm.
      apply Ht; [| exact Hr]. eapply wound_down_lookup; eauto.
    + apply no_active_jobs. exact Hnone.
    + simpl. apply lookup_delete_eq.
    + exact Hud.
  - simpl. repeat split; auto.
    apply no_active_jobs. intros i j Hi Hu.
    destruct (j_removed j) eqn:Hr; [reflexivity |].
    pose proof (Ht i j Hi Hr) as E. rewrite Hu, Hmj in E. discriminate E.
Qed.

(** The job [run_repeating] registers for [user_id]. *)
Lemma new_job_active user_id interval message :
  is_active user_id (mkJob (job_name user_id) (interval * 60) 5 user_id message false).
Proof. split; reflexivity. Qed.

(** A successful start, step by step: when the new job is registered no
    other job of the owner is left to fire. *)
Lemma start_broadcast_steps b user_id interval message q0 :
  jobs_tracked b ->
  job_queue b = Some q0 ->
  stored_message b user_id = Some message ->
  let new_job := mkJob (job_name user_id) (interval * 60) 5 user_id message false in
  exists before b3 b4,
    (apply_message_interval_steps b user_id interval None).1 = before ++ [b3; b4]
    /\ (apply_message_interval_steps b user_id interval None).2
       = reply_interval_saved interval message
    /\ Forall at_most_one_job before
    /\ active_jobs (List.last before b) user_id = []
    /\ queue b3 = queue (List.last before b) ++ [new_job]
    /\ active_jobs b3 user_id = [new_job]
    /\ queue b4 = queue b3
    /\ active_jobs b4 user_id = [new_job]
    /\ message_jobs b4 !! user_id = Some [length (queue (List.last before b))]
    /\ at_most_one_job b3 /\ at_most_one_job b4 /\ jobs_tracked b4.
Proof.
  intros Ht Hq Hm new_job. unfold apply_message_interval_steps.
  rewrite Hq, Hm. cbv zeta.
  set (b1 := set_user_data b (set_interval (user_data b) user_id interval)).
  assert (Ht1 : jobs_tracked b1) by exact Ht.
  destruct (cancel_jobs_spec b1 user_id Ht1) as (Hall & Ht2 & Hnone & Hmj & _).
  set (cancel := cancel_jobs b1 user_id) in *. set (b2 := List.last cancel b1) in *.
  unfold run_repeating. fold (queue b2). fold new_job.
  set (b3 := set_job_queue b2 (Some (queue b2 ++ [new_job]))).
  set (b4 := set_message_jobs b3 (<[user_id := [length (queue b2)]]> (message_jobs b3))).
  assert (Hlast : List.last (b :: b1 :: cancel) b = b2).
  { rewrite last_cons_default. rewrite last_cons_default. reflexivity. }
  assert (Hact3 : forall owner,
            active_jobs b3 owner
            = active_jobs b2 owner ++ (if decide (owner = user_id) then [new_job] else [])).
  { intros owner. unfold active_jobs. change (queue b3) with (queue b2 ++ [new_job]).
    rewrite filter_app. f_equal. rewrite filter_cons, filter_nil.
    destruct (decide (is_active owner new_job)) as [[_ Hu] | Hn];
      destruct (decide (owner = user_id)) as [-> | Hne]; auto.
    - simpl in Hu. congruence.
    - exfalso. apply Hn. apply new_job_active. }
  assert (H3 : at_most_one_job b3).
  { intros owner. rewrite Hact3. rewrite length_app.
    destruct (decide (owner = user_id)) as [-> | Hne].
    - rewrite Hnone. simpl. lia.
    - pose proof (tracked_at_most_one b2 Ht2 owner). simpl. lia. }
  exists (b :: b1 :: cancel), b3, b4. rewrite Hlast.
  split; [reflexivity |]. split; [reflexivity |].
  split.
  { constructor; [apply tracked_at_most_one; exact Ht |].
    constructor; [apply tracked_at_most_one; exact Ht1 | exact Hall]. }
  split; [exact Hnone |]. split; [reflexivity |].
  assert (E3 : active_jobs b3 user_id = [new_job]).
  { rewrite Hact3, Hnone. rewrite decide_True by reflexivity. reflexivity. }
  split; [exact E3 |]. split; [reflexivity |]. split; [exact E3 |].
  split; [simpl; apply lookup_insert_eq |].
  split; [exact H3 |]. split; [exact H3 |].
  intros i j Hi Hr. change (queue b4) with (queue b2 ++ [new_job]) in Hi.
  change (message_jobs b4) with (<[user_id := [length (queue b2)]]> (message_jobs b2)).
  apply lookup_app_Some in Hi as [Hi | [Hlen Hi]].
  - assert (Hne : j_user_id j <> user_id).
    { intros Hu. assert (Hin : j ∈ active_jobs b2 user_id).
      { apply list_elem_of_filter. split; [split; assumption |].
        apply list_elem_of_lookup. eauto. }
      rewrite Hnone in Hin. inversion Hin. }
    rewrite lookup_insert_ne by congruence. apply Ht2; assumption.
  - destruct (i - length (queue b2))%nat as [| k] eqn:Hk; [| destruct k; discriminate Hi].
    injection Hi as <-. simpl. rewrite lookup_insert_eq. f_equal. f_equal. lia.
Qed.

(** Every state a start goes through, whatever its outcome. *)
Lemma apply_message_interval_inv b user_id interval raised :
  jobs_tracked b ->
  Forall at_most_one_job (apply_message_interval_steps b user_id interval raised).1
  /\ jobs_tracked (List.last (apply_message_interval_steps b user_id interval raised).1 b).
Proof.
  intros Ht.
  destruct (job_queue b) as [q0 |] eqn:Hq.
  2:{ unfold apply_message_interval_steps. rewrite Hq. simpl.
      split; [constructor; [apply tracked_at_most_one; exact Ht | constructor] | exact Ht]. }
  destruct (stored_message b user_id) as [message |] eqn:Hm.
  2:{ unfold apply_message_interval_steps. rewrite Hq, Hm. simpl.
      split; [constructor; [apply tracked_at_most_one; exact Ht | constructor] | exact Ht]. }
  destruct raised as [err |].
  - unfold apply_message_interval_steps. rewrite Hq, Hm. cbv zeta.
    set (b1 := set_user_data b (set_interval (user_data b) user_id interval)).
    assert (Ht1 : jobs_tracked b1) by exact Ht.
    destruct (cancel_jobs_spec b1 user_id Ht1) as (Hall & Ht2 & _).
    cbn [fst]. rewrite !last_cons_default. split; [| exact Ht2].
    constructor; [apply tracked_at_most_one; exact Ht |].
    constructor; [apply tracked_at_most_one; exact Ht1 | exact Hall].
  - destruct (start_broadcast_steps b user_id interval message q0 Ht Hq Hm)
      as (before & b3 & b4 & -> & _ & Hbefore & _ & _ & _ & _ & _ & _ & H3 & H4 & Ht4).
    split.
    + apply Forall_app. split; [exact Hbefore |].
      constructor; [exact H3 | constructor; [exact H4 | constructor]].
    + change [b3; b4] with ([b3] ++ [b4]). rewrite app_assoc, last_last. exact Ht4.
Qed.

Lemma stop_scheduled_messages_inv b user_id :
  jobs_tracked b ->
  Forall at_most_one_job (stop_scheduled_messages_steps b user_id).1
  /\ jobs_tracked (List.last (stop_scheduled_messages_steps b user_id).1 b)
  /\ active_jobs (stop_scheduled_messages b user_id).1 user_id = [].
Proof.
  intros Ht. unfold stop_scheduled_messages, stop_scheduled_messages_steps. cbn [fst].
  destruct (cancel_jobs_spec b user_id Ht) as (Hall & Ht2 & Hnone & _).
  rewrite last_cons_default. repeat split; auto.
  constructor; [apply tracked_at_most_one; exact Ht | exact Hall].
Qed.

Lemma serve_inv b req :
  jobs_tracked b ->
  Forall at_most_one_job (serve b req) /\ jobs_tracked (List.last (serve b req) b).
Proof.
  intros Ht. destruct req as [user_id message | user_id interval raised | user_id]; simpl.
  - split; [| exact Ht].
    constructor; [| constructor; [| constructor]]; apply tracked_at_most_one; exact Ht.
  - apply apply_message_interval_inv. exact Ht.
  - destruct (stop_scheduled_messages_inv b user_id Ht) as (H1 & H2 & _). auto.
Qed.

Lemma serve_all_inv reqs : forall b,
  jobs_tracked b -> Forall at_most_one_job (serve_all b reqs).
Proof.
  induction reqs as [| req rest IH]; intros b Ht; simpl.
  - constructor; [apply tracked_at_most_one; exact Ht | constructor].
  - destruct (serve_inv b req Ht) as [H1 H2]. apply Forall_app. auto.
Qed.

Lemma initial_bot_tracked admin_id admin_username :
  jobs_tracked (initial_bot admin_id admin_username).
Proof. intros i j Hi. destruct i; discriminate Hi. Qed.

(** C5: no owner ever has two recurring jobs the queue will fire.  Start
    from a state between two updates where every such job is the one listed
    in [message_jobs]; then in every state the globals go through while any
    run of "set message", "start" and "stop" updates is served, each owner
    has at most one.  A start that succeeds first removes the owner's jobs
    and forgets them ([before] ends with no job of the owner left), only
    then registers the new job ([b3]) and records its handle ([b4]). *)
Theorem one_job_per_owner (b : bot) (reqs : list request) :
  jobs_tracked b ->
  Forall at_most_one_job (serve_all b reqs)
  /\ (forall user_id interval message q0,
        job_queue b = Some q0 ->
        stored_message b user_id = Some message ->
        let new_job :=
          mkJob (job_name user_id) (interval * 60) 5 user_id message false in
        exists before b3 b4,
          (apply_message_interval_steps b user_id interval None).1
          = before ++ [b3; b4]
          /\ active_jobs (List.last before b) user_id = []
          /\ queue b3 = queue (List.last before b) ++ [new_job]
          /\ active_jobs b3 user_id = [new_job]
          /\ active_jobs b4 user_id = [new_job]
          /\ message_jobs b4 !! user_id = Some [length (queue (List.last before b))]
          /\ jobs_tracked b4).
Proof.
  intros Ht. split; [apply serve_all_inv; exact Ht |].
  intros user_id interval message q0 Hq Hm new_job.
  destruct (start_broadcast_steps b user_id interval message q0 Ht Hq Hm)
    as (before & b3 & b4 & E & _ & _ & Hnone & Hq3 & H3 & _ & H4 & Hmj & _ & _ & Ht4).
  exists before, b3, b4. auto 10.
Qed.

Lemma one_job_per_owner_witness :
  jobs_tracked (initial_bot (Some 1) (u "boss"))
  /\ Forall at_most_one_job
       (serve_all (initial_bot (Some 1) (u "boss"))
          [SetMessage 42 (u "hello"); StartBroadcast 42 5 None;
           StartBroadcast 42 1 None; StopBroadcast 42]).
Proof.
  split; [apply initial_bot_tracked |].
  exact (proj1 (one_job_per_owner (initial_bot (Some 1) (u "boss"))
                  [SetMessage 42 (u "hello"); StartBroadcast 42 5 None;
                   StartBroadcast 42 1 None; StopBroadcast 42]
                  (initial_bot_tracked (Some 1) (u "boss")))).
Defined.

(** Two starts in a row: the first job is still in the queue, removed, and
    the second is the only one that fires. *)
Example restart_replaces_job :
  let b1 := process_message_text (initial_bot (Some 1) (u "boss")) 42 (u "hello") in
  let b2 := (apply_message_interval b1 42 5 None).1 in
  let b3 := (apply_message_interval b2 42 1 None).1 in
  map j_removed (queue b3) = [true; false]
  /\ map j_interval (queue b3) = [300; 60]
  /\ map j_interval (active_jobs b3 42) = [60]
  /\ message_jobs b3 !! 42 = Some [1%nat]
  /\ active_jobs (stop_scheduled_messages b3 42).1 42 = [].
Proof. vm_compute. repeat split; reflexivity. Qed.


(** ** One firing *)

Lemma is_prefix_app (n rest : text) : is_prefix n (n ++ rest) = true.
Proof. induction n as [| c n IH]; [reflexivity |]. simpl. rewrite N.eqb_refl. exact IH. Qed.

Lemma occurs_middle (before n after : text) : occurs n (before ++ n ++ after) = true.
Proof.
  induction before as [| c before IH]; simpl.
  - pose proof (is_prefix_app n after) as H.
    destruct (n ++ after); simpl; rewrite H; reflexivity.
  - rewrite IH. apply orb_true_r.
Qed.

Lemma reached_missed (w : platform) (gs : list (Z * group)) :
  (length (reached w gs) + length (missed w gs) = length gs)%nat.
Proof.
  unfold reached, missed. induction gs as [| g gs IH]; [reflexivity |].
  rewrite !filter_cons.
  destruct (send_ok w (chat_of g.2)) eqn:E.
  - rewrite decide_True by reflexivity. rewrite decide_False by discriminate.
    simpl. lia.
  - rewrite decide_False by discriminate. rewrite decide_True by reflexivity.
    simpl. lia.
Qed.

(** The loop visits every group once, in order, whatever fails. *)
Lemma send_loop_spec (w : platform) (message : text) (gs : list (Z * group)) :
  forall yuborildi xato,
    let '(y, x, ev) := send_loop w message gs yuborildi xato in
    y = yuborildi + Z.of_nat (length (reached w gs))
    /\ x = xato + Z.of_nat (length (missed w gs))
    /\ attempts ev = map (fun g => (chat_of g.2, send_ok w (chat_of g.2))) gs
    /\ logged ev = map (fun g => gr_username g.2) (missed w gs)
    /\ notices ev = [].
Proof.
  unfold reached, missed.
  induction gs as [| [gid g] gs IH]; intros yuborildi xato.
  - simpl. repeat split; lia.
  - cbn [send_loop]. rewrite !filter_cons. cbn [snd].
    destruct (send_ok w (chat_of g)) eqn:E.
    + specialize (IH (yuborildi + 1) xato).
      destruct (send_loop w message gs (yuborildi + 1) xato) as [[y x] ev].
      destruct IH as (Hy & Hx & Ha & Hl & Hn).
      rewrite decide_True by reflexivity. rewrite decide_False by discriminate.
      cbn [attempts logged notices omap map length snd]. rewrite ?E.
      repeat split;
        first [lia | exact Hn | rewrite <- Ha; reflexivity | rewrite <- Hl; reflexivity].
    + specialize (IH yuborildi (xato + 1)).
      destruct (send_loop w message gs yuborildi (xato + 1)) as [[y x] ev].
      destruct IH as (Hy & Hx & Ha & Hl & Hn).
      rewrite decide_False by discriminate. rewrite decide_True by reflexivity.
      cbn [attempts logged notices omap map length snd]. rewrite ?E.
      repeat split;
        first [lia | exact Hn | rewrite <- Ha; reflexivity | rewrite <- Hl; reflexivity].
Qed.

Lemma occurs_in (before n after s : text) :
  s = before ++ n ++ after -> occurs n s = true.
Proof. intros ->. apply occurs_middle. Qed.

Lemma msg_sent_shows (sent failed : Z) :
  shows sent (msg_sent sent failed) = true
  /\ (0 < failed -> shows failed (msg_sent sent failed) = true).
Proof.
  unfold shows, msg_sent. split.
  - apply (occurs_in (check_mark :: u " Xabar ") _
             (u " guruhga yuborildi!"
              ++ (if 0 <? failed then u " (Xato: " ++ str_of_Z failed ++ u ")" else []))).
    reflexivity.
  - intros H. apply Z.ltb_lt in H. rewrite H.
    apply (occurs_in (check_mark :: u " Xabar " ++ str_of_Z sent
                      ++ u " guruhga yuborildi!" ++ u " (Xato: ") _ (u ")")).
    cbn [app]. f_equal. rewrite <- !app_assoc. reflexivity.
Qed.

(** C6 (as the code has it): a firing tries every registered group once,
    in order, whether or not earlier sends failed; each failure is logged;
    successes and failures are counted apart and add up to the number of
    groups; one notice goes to the owner at the end, and the globals, the
    job queue among them, are as before, so the job stays scheduled.  The
    notice shows the number of successes, and the number of failures when
    there are some, provided at least one send succeeded; when none did it
    is the fixed "sent to no group" text. *)
Theorem firing_counts_and_reports (b : bot) (j : job) (w : platform) :
  let user_id := j_user_id j in
  let gs := groups_of b user_id in
  let sent := Z.of_nat (length (reached w gs)) in
  let failed := Z.of_nat (length (missed w gs)) in
  let ev := (send_user_messages b j w).2 in
  (send_user_messages b j w).1 = b
  /\ (forall owner, active_jobs (send_user_messages b j w).1 owner = active_jobs b owner)
  /\ (has_session b user_id = true -> connect_ok w = true ->
      attempts ev = map (fun g => (chat_of g.2, send_ok w (chat_of g.2))) gs
      /\ logged ev = map (fun g => gr_username g.2) (missed w gs)
      /\ sent + failed = Z.of_nat (length gs)
      /\ notices ev = [(user_id, report sent failed)]
      /\ List.last ev (ESleep 0) = ENotify user_id (report sent failed)
      /\ (0 < sent ->
          report sent failed = msg_sent sent failed
          /\ shows sent (report sent failed) = true
          /\ (0 < failed -> shows failed (report sent failed) = true))
      /\ (sent = 0 -> report sent failed = msg_nothing_sent)).
Proof.
  intros user_id gs sent failed ev.
  assert (Hsame : (send_user_messages b j w).1 = b).
  { unfold send_user_messages.
    destruct (has_session b (j_user_id j)); [| reflexivity].
    destruct (connect_ok w); [| reflexivity]. simpl.
    destruct (send_loop w (j_message j) (groups_of b (j_user_id j)) 0 0) as [[? ?] ?].
    reflexivity. }
  split; [exact Hsame |]. split; [intros owner; rewrite Hsame; reflexivity |].
  intros Hs Hc. subst ev. unfold send_user_messages.
  fold user_id. rewrite Hs, Hc. simpl negb. cbv iota. fold gs.
  pose proof (send_loop_spec w (j_message j) gs 0 0) as H.
  destruct (send_loop w (j_message j) gs 0 0) as [[y x] ev].
  destruct H as (Hy & Hx & Ha & Hl & Hn). simpl in Hy, Hx.
  fold sent in Hy. fold failed in Hx. subst y x. cbn [snd].
  split.
  { unfold attempts in *. rewrite omap_app, Ha. simpl. apply app_nil_r. }
  split.
  { unfold logged in *. rewrite omap_app, Hl. simpl. apply app_nil_r. }
  split.
  { subst sent failed. pose proof (reached_missed w gs). lia. }
  split.
  { unfold notices in *. rewrite omap_app, Hn. reflexivity. }
  split; [apply last_last |].
  split.
  - intros Hpos. unfold report. apply Z.ltb_lt in Hpos. rewrite Hpos.
    split; [reflexivity |]. apply msg_sent_shows.
  - intros ->. reflexivity.
Qed.

Lemma firing_counts_and_reports_witness :
  attempts (send_user_messages Sample.broadcasting_bot Sample.hello_job Sample.a_fails).2
    = [(u "@group_a", false); (u "@group_b", true)]
  /\ notices (send_user_messages Sample.broadcasting_bot Sample.hello_job Sample.a_fails).2
     = [(42, report 1 1)].
Proof.
  destruct (firing_counts_and_reports Sample.broadcasting_bot Sample.hello_job
              Sample.a_fails) as (_ & _ & H).
  destruct (H eq_refl eq_refl) as (Ha & _ & _ & Hn & _).
  split; [exact Ha | exact Hn].
Defined.

(** The scenario of the specification: group A fails, group B succeeds. *)
Example one_failure_one_success :
  let res := send_user_messages Sample.broadcasting_bot Sample.hello_job Sample.a_fails in
  notices res.2
    = [(42, check_mark :: u " Xabar 1 guruhga yuborildi! (Xato: 1)")]
  /\ logged res.2 = [u "group_a"]
  /\ active_jobs res.1 42 = [Sample.hello_job].
Proof. vm_compute. repeat split; reflexivity. Qed.

(** C6, the claim as stated, fails when no send succeeds: both sends are
    tried and fail, and the notice is the fixed text; it shows neither the
    number of failures (2) nor the number of successes (0), nor any digit
    at all. *)
Lemma all_sends_fail_no_count :
  let ev := (send_user_messages Sample.broadcasting_bot Sample.hello_job
               Sample.all_fail).2 in
  attempts ev = [(u "@group_a", false); (u "@group_b", false)]
  /\ notices ev = [(42, msg_nothing_sent)]
  /\ shows 2 msg_nothing_sent = false
  /\ shows 0 msg_nothing_sent = false
  /\ existsb is_ascii_digit msg_nothing_sent = false.
Proof. vm_compute. repeat split; reflexivity. Qed.


(** ** Resending the verification code *)

(** [main.py]: a press of "resend" by a user whose account has a phone
    number always goes to the platform; the handler reads no clock. *)
Lemma resend_code_handler_calls (b : bot) (user_id : Z) (a : account) (phone : text)
    (send_code : text -> option text) (client : nat) :
  telegram_accounts b !! user_id = Some a -> a_phone a = Some phone ->
  (resend_code_handler b user_id send_code client).2 = [PConnect; PSendCode phone]
  /\ exists a', telegram_accounts (resend_code_handler b user_id send_code client).1.1
                  !! user_id = Some a'
                /\ a_phone a' = Some phone.
Proof.
  intros Ha Hp. unfold resend_code_handler. rewrite Ha, Hp.
  destruct (send_code phone) as [h |]; simpl.
  - split; [reflexivity |]. eexists. rewrite lookup_insert_eq. split; reflexivity.
  - split; [reflexivity |]. eauto.
Qed.

(** C8 on [main.py]: two presses of "resend" in a row, however close in
    time, both connect and ask the platform for a code; the second is not
    turned away. *)
Theorem resend_twice_calls_platform_twice :
  let first := resend_code_handler Sample.linked_bot 42 Sample.code_sent 1 in
  let second := resend_code_handler first.1.1 42 Sample.code_sent 2 in
  first.2 = [PConnect; PSendCode (u "+998901234567")]
  /\ second.2 = [PConnect; PSendCode (u "+998901234567")]
  /\ (a_client <$> telegram_accounts second.1.1 !! 42) = Some (Some 2%nat)
  /\ file_telegram_accounts (files second.1.1) = None.
Proof. vm_compute. repeat split; reflexivity. Qed.

(** [test.py]: within 120 seconds of the recorded request the resend is
    refused before any call to the platform, and nothing changes. *)
Lemma resend_verification_code_cooldown (b : t_bot) (user_id : Z) (r : t_user_rec)
    (phone : text) (last_request now now' : datetime)
    (send_code : text -> text + text) (key_error : text) :
  t_user_data b !! user_id = Some r ->
  tu_phone r = Some phone ->
  tu_last_code_request r = Some last_request ->
  to_micros now - to_micros last_request < 120 * 1000000 ->
  resend_verification_code b user_id now now' send_code key_error
  = (b, t_reply_wait, []).
Proof.
  intros Hr Hp Hl Hlt. unfold resend_verification_code. rewrite Hr, Hp, Hl.
  unfold elapsed_lt. apply Z.ltb_lt in Hlt. rewrite Hlt. reflexivity.
Qed.

(** [test.py]: once 120 seconds have gone by (or when no request time is
    recorded) the resend goes to the platform and records the clock as the
    new request time. *)
Lemma resend_verification_code_proceeds (b : t_bot) (user_id : Z) (r : t_user_rec)
    (a : t_account) (api_id : Z) (api_hash phone code_hash : text)
    (now now' : datetime) (send_code : text -> text + text) (key_error : text) :
  t_user_data b !! user_id = Some r ->
  tu_phone r = Some phone ->
  (forall last_request, tu_last_code_request r = Some last_request ->
                        120 * 1000000 <= to_micros now - to_micros last_request) ->
  t_telegram_accounts b !! user_id = Some a ->
  ta_api_id a = Some api_id -> ta_api_hash a = Some api_hash ->
  send_code phone = inl code_hash ->
  resend_verification_code b user_id now now' send_code key_error
  = (mkTBot (<[user_id := mkTUserRec (Some phone) (Some now') (Some code_hash) (Some 0)]>
               (t_user_data b))
            (t_telegram_accounts b),
     t_reply_resent, [PConnect; PSendCode phone; PDisconnect]).
Proof.
  intros Hr Hp Hl Ha Hid Hh Hs. unfold resend_verification_code.
  rewrite Hr, Hp, Ha. simpl. rewrite Hid, Hh. simpl. rewrite Hs.
  destruct (tu_last_code_request r) as [last_request |] eqn:El.
  - specialize (Hl last_request eq_refl). unfold elapsed_lt.
    destruct (Z.ltb_spec (to_micros now - to_micros last_request) (120 * 1000000));
      [lia | reflexivity].
  - reflexivity.
Qed.

(** The boundary of the cooldown in [test.py]: refused 119.999999 s after
    the recorded request, served at 120 s, and then the new time counts. *)
Example cooldown_boundary :
  let early := mkDatetime 2025 3 9 7 7 0 1499 in
  let late := mkDatetime 2025 3 9 7 7 0 1500 in
  let served := resend_verification_code Sample.t_waiting 42 late late
                  (fun _ => inl (u "n3w")) [] in
  resend_verification_code Sample.t_waiting 42 early early (fun _ => inl (u "n3w")) []
    = (Sample.t_waiting, t_reply_wait, [])
  /\ served.2 = [PConnect; PSendCode (u "+998901234567"); PDisconnect]
  /\ (tu_last_code_request <$> t_user_data served.1.1 !! 42) = Some (Some late)
  /\ (resend_verification_code served.1.1 42 (mkDatetime 2025 3 9 7 8 0 0)
        (mkDatetime 2025 3 9 7 8 0 0) (fun _ => inl (u "n3w")) []).2 = [].
Proof. vm_compute. repeat split; reflexivity. Qed.


(** ** The JSON store *)

(** Reading back the digits [pad] printed. *)
Lemma take_num_pad (w : nat) : forall (n acc : N) (rest : text),
  take_num w acc (pad w n ++ rest)
  = Some ((acc * 10 ^ N.of_nat w + n mod 10 ^ N.of_nat w)%N, rest).
Proof.
  induction w as [| w IH]; intros n acc rest.
  - simpl. rewrite N.mod_1_r. f_equal. f_equal. lia.
  - cbn [pad take_num app].
    assert (Hd : ((n / 10 ^ N.of_nat w) mod 10 < 10)%N) by (apply N.mod_lt; discriminate).
    set (d := ((n / 10 ^ N.of_nat w) mod 10)%N) in *.
    assert (Hdig : is_ascii_digit (48 + d) = true).
    { unfold is_ascii_digit. apply andb_true_iff. split; apply N.leb_le; lia. }
    rewrite Hdig, IH. f_equal. f_equal.
    replace (48 + d - 48)%N with d by lia.
    rewrite Nat2N.inj_succ, N.pow_succ_r'.
    rewrite (N.mul_comm 10 (10 ^ N.of_nat w)).
    rewrite N.Div0.mod_mul_r. fold d. lia.
Qed.

Lemma take_num_pad_small (w : nat) (n : N) (rest : text) :
  (n < 10 ^ N.of_nat w)%N -> take_num w 0 (pad w n ++ rest) = Some (n, rest).
Proof. intros H. rewrite take_num_pad, N.mod_small by exact H. reflexivity. Qed.

Lemma valid_bounds (d : datetime) :
  valid d = true ->
  (year d < 10 ^ 4 /\ month d < 10 ^ 2 /\ day d < 10 ^ 2 /\ hour d < 10 ^ 2
   /\ minute d < 10 ^ 2 /\ second d < 10 ^ 2 /\ microsecond d < 10 ^ 6)%N.
Proof.
  unfold valid. rewrite !andb_true_iff, !N.leb_le, !N.ltb_lt.
  intros (((((((((H1 & H2) & H3) & H4) & H5) & H6) & H7) & H8) & H9) & H10).
  assert (days_in_month (year d) (month d) <= 31)%N.
  { unfold days_in_month.
    repeat match goal with |- context [if ?c then _ else _] => destruct c end; lia. }
  change (10 ^ 4)%N with 10000%N. change (10 ^ 2)%N with 100%N.
  change (10 ^ 6)%N with 1000000%N. lia.
Qed.

(** The timestamp [isoformat] writes is read back by [fromisoformat] as the
    same datetime. *)
Lemma fromisoformat_isoformat (d : datetime) :
  valid d = true -> fromisoformat (isoformat d) = Some d.
Proof.
  intros Hv. destruct (valid_bounds d Hv) as (Hy & Hmo & Hd & Hh & Hmi & Hs & Hus).
  unfold fromisoformat, isoformat.
  change (u "-") with [45%N]. change (u "T") with [84%N].
  change (u ":") with [58%N]. change (u ".") with [46%N].
  repeat first
    [ rewrite (take_num_pad_small 4) by exact Hy
    | rewrite (take_num_pad_small 2) by assumption
    | progress cbn [mbind option_bind app expect N.eqb Pos.eqb] ].
  destruct (N.eqb_spec (microsecond d) 0) as [E0 | Hne].
  - cbn [mbind option_bind]. destruct d as [y mo dd h mi s us]. simpl in *.
    subst us. rewrite Hv. reflexivity.
  - cbn [expect]. rewrite N.eqb_refl. cbn [mbind option_bind].
    pose proof (take_num_pad_small 6 (microsecond d) [] Hus) as E.
    rewrite app_nil_r in E. rewrite E. cbn [mbind option_bind].
    destruct d as [y mo dd h mi s us]. simpl in *. rewrite Hv. reflexivity.
Qed.

Lemma text_eqb_spec (a : text) : forall b, text_eqb a b = true <-> a = b.
Proof.
  induction a as [| c a IH]; intros [| d b]; simpl; split; try discriminate; auto.
  - rewrite andb_true_iff, N.eqb_eq, IH. intros [-> ->]. reflexivity.
  - intros [= -> ->]. rewrite N.eqb_refl. apply IH. reflexivity.
Qed.

Lemma pykey_eqb_spec (a b : pykey) : pykey_eqb a b = true <-> a = b.
Proof.
  destruct a as [x | x], b as [y | y]; simpl; split; try discriminate.
  - rewrite Z.eqb_eq. congruence.
  - intros [= ->]. apply Z.eqb_refl.
  - rewrite text_eqb_spec. congruence.
  - intros [= ->]. apply text_eqb_spec. reflexivity.
Qed.

Lemma pykey_eqb_refl (k : pykey) : pykey_eqb k k = true.
Proof. apply pykey_eqb_spec. reflexivity. Qed.

Lemma pykey_eqb_ne (a b : pykey) : a <> b -> pykey_eqb a b = false.
Proof.
  intros H. destruct (pykey_eqb a b) eqn:E; [| reflexivity].
  apply pykey_eqb_spec in E. contradiction.
Qed.

Lemma dict_set_fresh (k : pykey) (v : pyval) (kvs : list (pykey * pyval)) :
  dict_get k kvs = None -> dict_set k v kvs = kvs ++ [(k, v)].
Proof.
  induction kvs as [| [k' v'] kvs IH]; simpl; [reflexivity |].
  destruct (pykey_eqb k k'); [discriminate |]. intros H. rewrite IH by exact H. reflexivity.
Qed.

Lemma dict_get_snoc_ne (k k' : pykey) (v : pyval) (kvs : list (pykey * pyval)) :
  k <> k' -> dict_get k (kvs ++ [(k', v)]) = dict_get k kvs.
Proof.
  intros Hne. induction kvs as [| [k0 v0] kvs IH]; simpl.
  - rewrite pykey_eqb_ne by exact Hne. reflexivity.
  - destruct (pykey_eqb k k0); [reflexivity | exact IH].
Qed.

(** The keys of a parsed object are strs, one per distinct key. *)
Lemma build_dict_distinct (pairs : list (text * pyval)) :
  NoDup (map fst pairs) ->
  build_dict pairs = map (fun kv => (KStr kv.1, kv.2)) pairs.
Proof.
  unfold build_dict.
  assert (H : forall acc,
            NoDup (map fst pairs) ->
            (forall kv, kv ∈ pairs -> dict_get (KStr kv.1) acc = None) ->
            fold_left (fun acc kv => dict_set (KStr kv.1) kv.2 acc) pairs acc
            = acc ++ map (fun kv => (KStr kv.1, kv.2)) pairs).
  { induction pairs as [| [k v] pairs IH]; intros acc Hnd Hfresh; simpl.
    - rewrite app_nil_r. reflexivity.
    - inversion Hnd as [| ? ? Hnotin Hnd']; subst.
      rewrite dict_set_fresh by (apply (Hfresh (k, v)); left).
      rewrite IH; [rewrite <- app_assoc; reflexivity | exact Hnd' |].
      intros [k' v'] Hin. rewrite dict_get_snoc_ne.
      + apply Hfresh. right. exact Hin.
      + simpl. intros [= ->]. apply Hnotin.
        apply list_elem_of_fmap. exists (k, v'). split; [reflexivity | exact Hin]. }
  intros Hnd. apply (H [] Hnd). reflexivity.
Qed.

Lemma dict_set_str_keyed (k : text) (v : pyval) (kvs : list (pykey * pyval)) :
  str_keyed_list kvs -> str_keyed_list (dict_set (KStr k) v kvs).
Proof.
  unfold str_keyed_list. induction 1 as [| [k' v'] kvs Hk Hrest IH]; cbn [dict_set].
  - constructor; [eauto | constructor].
  - destruct (pykey_eqb (KStr k) k'); constructor; simpl; eauto.
Qed.

Lemma build_dict_str_keyed (pairs : list (text * pyval)) :
  str_keyed_list (build_dict pairs).
Proof.
  unfold build_dict.
  assert (H : forall acc, str_keyed_list acc ->
            str_keyed_list (fold_left (fun acc kv => dict_set (KStr kv.1) kv.2 acc) pairs acc)).
  { induction pairs as [| kv pairs IH]; intros acc Hacc; simpl; [exact Hacc |].
    apply IH, dict_set_str_keyed, Hacc. }
  apply H. constructor.
Qed.

Lemma str_keyed_no_int (z : Z) (kvs : list (pykey * pyval)) :
  str_keyed_list kvs -> dict_get (KInt z) kvs = None.
Proof.
  induction 1 as [| [k v] kvs [s Hk] _ IH]; simpl; [reflexivity |].
  simpl in Hk. subst k. simpl. exact IH.
Qed.

Lemma convert_items_keys (kvs : list (pykey * pyval)) : forall kvs',
  convert_items kvs = Some kvs' -> map fst kvs' = map fst kvs.
Proof.
  induction kvs as [| [k v] kvs IH]; intros kvs'; simpl.
  - intros [= <-]. reflexivity.
  - destruct (convert_value v) as [v' |]; [| discriminate]. simpl.
    destruct (convert_items kvs) as [rest |]; [| discriminate]. simpl.
    intros [= <-]. simpl. f_equal. apply IH. reflexivity.
Qed.

Lemma str_keyed_of_keys (kvs kvs' : list (pykey * pyval)) :
  map fst kvs' = map fst kvs -> str_keyed_list kvs -> str_keyed_list kvs'.
Proof.
  unfold str_keyed_list. revert kvs'.
  induction kvs as [| kv kvs IH]; intros [| kv' kvs'] E H; try discriminate E;
    [constructor |].
  injection E as E1 E2. inversion H as [| ? ? [s Hs] H']; subst.
  constructor; [exists s; congruence | auto].
Qed.

(** X18: after a save and a reload no store finds an int user id any
    more, whatever it held and whichever file it went through. *)
Lemma reload_forgets_int_keys (p : file_path) (data : pyval) (user_id : Z) :
  has_user user_id (reload p data) = false.
Proof.
  unfold reload, save_data, load_data.
  destruct (dump data) as [j |]; [| reflexivity].
  assert (Hparse : forall kvs, parse j = PDict kvs -> str_keyed_list kvs).
  { destruct j; simpl; try discriminate. intros kvs0 [= <-]. apply build_dict_str_keyed. }
  assert (Hno : forall kvs, str_keyed_list kvs -> has_user user_id (PDict kvs) = false).
  { intros kvs H. unfold has_user, dict_mem. rewrite str_keyed_no_int by exact H.
    reflexivity. }
  destruct (converts_expiry p).
  - destruct (parse j) as [| | | | | | kvs |] eqn:E; try reflexivity.
    destruct (convert_items kvs) as [kvs' |] eqn:Ec; [| reflexivity].
    apply Hno. eapply str_keyed_of_keys; [eapply convert_items_keys; exact Ec |].
    apply Hparse. reflexivity.
  - destruct (parse j) as [| | | | | | kvs |] eqn:E; try reflexivity.
    apply Hno, Hparse. reflexivity.
Qed.

Lemma dump_py_opt_int (o : option Z) :
  dump (py_opt_int o) = Some (match o with Some z => JNum z | None => JNull end).
Proof. destruct o; reflexivity. Qed.

Lemma convert_parsed_key_record (r : key_record) (j1 j3 : json) :
  valid (k_expiry r) = true ->
  convert_value
    (parse (JObj [(u "user_id", j1); (u "expiry", JStr (isoformat (k_expiry r)));
                  (u "admin_id", j3); (u "days", JNum (k_days r))]))
  = Some (PDict [(KStr (u "user_id"), parse j1);
                 (KStr (u "expiry"), PDatetime (k_expiry r));
                 (KStr (u "admin_id"), parse j3);
                 (KStr (u "days"), PInt (k_days r))]).
Proof.
  intros Hv.
  change (parse (JObj [(u "user_id", j1); (u "expiry", JStr (isoformat (k_expiry r)));
                       (u "admin_id", j3); (u "days", JNum (k_days r))]))
    with (PDict [(KStr (u "user_id"), parse j1);
                 (KStr (u "expiry"), PStr (isoformat (k_expiry r)));
                 (KStr (u "admin_id"), parse j3);
                 (KStr (u "days"), PInt (k_days r))]).
  unfold convert_value.
  change (dict_get (KStr (u "expiry")) _) with (Some (PStr (isoformat (k_expiry r)))).
  cbv iota beta. rewrite fromisoformat_isoformat by exact Hv. reflexivity.
Qed.

(** X19: the key store, whose keys are strs and whose only timestamps are
    the expiries, comes back from the file as it was saved, when no key is
    listed twice and the expiries are valid datetimes. *)
Lemma reload_key_store (keys : list (text * key_record)) :
  NoDup (map fst keys) ->
  Forall (fun kr => valid (k_expiry kr.2) = true) keys ->
  reload GENERATED_KEYS_FILE (py_key_store keys) = py_key_store keys.
Proof.
  intros Hnd Hvalid.
  set (jrec := fun r : key_record =>
         JObj [(u "user_id", match k_user_id r with Some z => JNum z | None => JNull end);
               (u "expiry", JStr (isoformat (k_expiry r)));
               (u "admin_id", match k_admin_id r with Some z => JNum z | None => JNull end);
               (u "days", JNum (k_days r))]).
  assert (Hdump : dump (py_key_store keys)
                  = Some (JObj (map (fun kr => (kr.1, jrec kr.2)) keys))).
  { unfold py_key_store. cbn [dump]. 
    assert (E : mapM (fun kx : pykey * pyval =>
                        let (k, x) := kx in j ← dump x; Some (json_key k, j))
                     (map (fun kr : text * key_record => (KStr kr.1, py_key_record kr.2)) keys)
                = Some (map (fun kr => (kr.1, jrec kr.2)) keys)).
    { clear. induction keys as [| [k r] keys IH]; [reflexivity |].
      cbn [map mapM]. rewrite IH. unfold py_key_record. cbn [dump mapM fst snd].
      rewrite !dump_py_opt_int. reflexivity. }
    rewrite E. reflexivity. }
  unfold reload, save_data. rewrite Hdump. unfold load_data. cbn [converts_expiry parse].
  rewrite map_map. rewrite build_dict_distinct.
  2:{ rewrite map_map. simpl. rewrite (map_ext _ fst); [exact Hnd | intros [? ?]; reflexivity]. }
  rewrite map_map. cbn [fst snd].
  assert (Hconv : convert_items
                    (map (fun x : text * key_record => (KStr x.1, parse (jrec x.2))) keys)
                  = Some (map (fun kr => (KStr kr.1, py_key_record kr.2)) keys)).
  { clear Hdump Hnd. induction Hvalid as [| [k r] keys Hv _ IH]; [reflexivity |].
    cbn [map convert_items fst snd].
    assert (Hr : convert_value (parse (jrec r)) = Some (py_key_record r)).
    { unfold jrec. rewrite convert_parsed_key_record by exact Hv.
      unfold py_key_record. destruct (k_user_id r), (k_admin_id r); reflexivity. }
    rewrite Hr, IH. reflexivity. }
  rewrite Hconv. reflexivity.
Qed.

(** C7 on the code: what a save followed by a reload does to the stores of
    user 42.  The grant is found under the int 42 before and under the str
    ["42"] after, so [42 in premium_users] turns false; the request date
    and the link time come back as ISO strings, not as datetimes; accounts
    that hold a client object leave a file that reloads as the empty
    store.  Only the key store, keyed by strs, comes back as it was. *)
Theorem reload_changes_stores :
  has_user 42 Sample.py_premium_users = true
  /\ has_user 42 (reload PREMIUM_USERS_FILE Sample.py_premium_users) = false
  /\ reload PREMIUM_USERS_FILE Sample.py_premium_users
     = PDict [(KStr (u "42"),
               PDict [(KStr (u "expiry"), PDatetime Sample.t_expiry);
                      (KStr (u "key"), PStr Sample.key_A);
                      (KStr (u "admin_id"), PInt 1);
                      (KStr (u "days"), PInt 30)])]
  /\ field_of (KInt 42) "date" Sample.py_pending_requests = Some (PDatetime Sample.t0)
  /\ field_of (KStr (u "42")) "date"
       (reload PENDING_REQUESTS_FILE Sample.py_pending_requests)
     = Some (PStr (u "2025-03-09T07:05:00.001500"))
  /\ field_of (KStr (u "42")) "connected_at"
       (reload TELEGRAM_ACCOUNTS_FILE (Sample.py_telegram_accounts None))
     = Some (PStr (u "2025-03-09T07:05:00.001500"))
  /\ save_data (Sample.py_telegram_accounts (Some 1%nat)) = Cut
  /\ reload TELEGRAM_ACCOUNTS_FILE (Sample.py_telegram_accounts (Some 1%nat)) = PDict []
  /\ reload GENERATED_KEYS_FILE Sample.py_generated_keys = Sample.py_generated_keys.
Proof. vm_compute. repeat split; reflexivity. Qed.

(* ================================================================== *)
(** * Further properties of the code *)

(** ** Keys, phone numbers and codes *)

(** X1: a key of [generate_key(length)] passes the format check of the
    redemption handler exactly when [length] is between 8 and 12. *)
Theorem generated_key_format_iff_length (n : nat) (rnd : nat -> nat) :
  match_key_format (generate_key n rnd) = true <-> (8 <= n <= 12)%nat.
Proof.
  destruct (generate_key_shape n rnd) as (suf & E & Hlen & Hall).
  rewrite E, match_key_format_spec. split.
  - intros (suf' & tail & Heq & Hl & _ & Ht).
    apply app_inv_head in Heq. destruct Ht as [-> | ->].
    + rewrite app_nil_r in Heq. subst suf'. lia.
    + exfalso. subst suf. apply Forall_app in Hall as [_ Hall].
      inversion Hall as [| ? ? Hc _]; subst. discriminate Hc.
  - intros Hn. exists suf, []. rewrite app_nil_r. repeat split; auto; lia.
Qed.

Lemma class_then_end_spec (cls : N -> bool) (hi lo : nat) (s : text) :
  cls 10%N = false ->
  (class_then_end cls lo hi s = true <->
   exists body tail, s = body ++ tail /\ (lo <= length body <= hi)%nat
                     /\ Forall (fun c => cls c = true) body
                     /\ (tail = [] \/ tail = [10%N])).
Proof.
  intros Hnl.
  assert (Hd : forall tail, at_dollar tail = true <-> tail = [] \/ tail = [10%N]).
  { intros [| c [| d tl]]; simpl; split; auto; try discriminate;
      try (intros [H | H]; discriminate).
    - intros H. apply N.eqb_eq in H. subst. auto.
    - intros [H | [= ->]]; [discriminate | reflexivity]. }
  revert lo s. induction hi as [| hi IH]; intros lo s.
  - simpl. rewrite andb_true_iff, Nat.eqb_eq, Hd. split.
    + intros [-> H]. exists [], s. repeat split; auto.
    + intros (body & tail & -> & [Hlo Hhi] & _ & Ht).
      destruct body; [| simpl in Hhi; lia]. simpl in *. split; [lia | exact Ht].
  - split.
    + cbn [class_then_end]. intros H.
      assert (Hstop : (lo =? 0)%nat && at_dollar s = true ->
                      exists body tail, s = body ++ tail /\ (lo <= length body <= S hi)%nat
                        /\ Forall (fun c => cls c = true) body
                        /\ (tail = [] \/ tail = [10%N])).
      { rewrite andb_true_iff, Nat.eqb_eq, Hd. intros [-> Ht]. exists [], s.
        repeat split; simpl; auto; lia. }
      destruct s as [| c s]; [auto |].
      destruct (cls c) eqn:Hc; [| auto].
      apply orb_true_iff in H as [H | H]; [| auto].
      apply IH in H as (body & tail & -> & [Hlo Hhi] & Hall & Ht).
      exists (c :: body), tail. repeat split; simpl; auto; lia.
    + intros (body & tail & -> & [Hlo Hhi] & Hall & Ht).
      apply Hd in Ht.
      destruct body as [| c body].
      * simpl in Hlo. assert (lo = 0%nat) as -> by lia.
        cbn [app class_then_end Nat.eqb andb].
        destruct tail as [| c tail]; [reflexivity |].
        rewrite Ht. destruct (cls c); [apply orb_true_r | reflexivity].
      * inversion Hall as [| ? ? Hc Hall']; subst. cbn [app class_then_end].
        rewrite Hc. apply orb_true_iff. left. apply IH.
        exists body, tail. apply Hd in Ht. repeat split; auto; simpl in *; lia.
Qed.

(** X2: the phone check accepts a plus sign followed by 10 to 14 digits,
    with or without one newline after them, and nothing else. *)
Theorem match_phone_format_spec (t : text) :
  match_phone_format t = true <->
  exists digits tail,
    t = 43%N :: digits ++ tail /\ (10 <= length digits <= 14)%nat
    /\ Forall (fun c => is_ascii_digit c = true) digits
    /\ (tail = [] \/ tail = [10%N]).
Proof.
  unfold match_phone_format. destruct t as [| c rest].
  - split; [discriminate | intros (? & ? & H & _); discriminate H].
  - rewrite andb_true_iff, N.eqb_eq, class_then_end_spec by reflexivity. split.
    + intros [-> (digits & tail & -> & H)]. exists digits, tail. auto.
    + intros (digits & tail & [= -> ->] & H). split; [reflexivity |].
      exists digits, tail. auto.
Qed.

Lemma clean_code_digits (code : text) :
  Forall (fun c => is_ascii_digit c = true) (clean_code code).
Proof.
  unfold clean_code. apply Forall_forall. intros c Hc.
  apply list_elem_of_In, filter_In in Hc. apply Hc.
Qed.

Lemma filter_all {A} (f : A -> bool) (l : list A) :
  Forall (fun x => f x = true) l -> List.filter f l = l.
Proof.
  induction 1 as [| x l Hx _ IH]; [reflexivity |]. simpl. rewrite Hx, IH. reflexivity.
Qed.

(** X3: [format_code] keeps the digits of its input, in order, and adds
    nothing but one underscore: cleaning its result gives the cleaned
    input, and formatting twice is formatting once. *)
Theorem format_code_keeps_digits (raw : text) :
  clean_code (format_code raw) = clean_code raw
  /\ format_code (format_code raw) = format_code raw
  /\ (length (format_code raw) <= S (length (clean_code raw)))%nat.
Proof.
  assert (E : clean_code (format_code raw) = clean_code raw).
  { unfold format_code. pose proof (clean_code_digits raw) as Hd.
    set (c := clean_code raw) in *.
    destruct (length c <=? 3)%nat.
    - apply filter_all. exact Hd.
    - unfold clean_code. rewrite !List.filter_app. simpl.
      rewrite <- List.filter_app, take_drop. apply filter_all. exact Hd. }
  split; [exact E |]. split.
  - unfold format_code at 1. rewrite E. reflexivity.
  - unfold format_code. set (c := clean_code raw).
    destruct (length c <=? 3)%nat; [lia |].
    rewrite !length_app, length_take, length_drop. simpl. lia.
Qed.

Lemma split_on_no_sep (sep : N) (s : text) :
  Forall (fun c => (c =? sep)%N = false) s -> split_on sep s = [s].
Proof.
  induction 1 as [| c s Hc _ IH]; [reflexivity |]. simpl. rewrite Hc, IH. reflexivity.
Qed.

Lemma split_on_app (sep : N) (a rest : text) :
  Forall (fun c => (c =? sep)%N = false) a ->
  split_on sep (a ++ sep :: rest) = a :: split_on sep rest.
Proof.
  induction 1 as [| c a Hc _ IH]; simpl.
  - rewrite N.eqb_refl. reflexivity.
  - rewrite Hc, IH. reflexivity.
Qed.

Lemma digit_not_underscore (c : N) : is_ascii_digit c = true -> (c =? 95)%N = false.
Proof. unfold is_ascii_digit. cp_cases. Qed.

Lemma digit_re_digit D (c : N) : is_ascii_digit c = true -> re_digit D c = true.
Proof. unfold re_digit, is_ascii_digit. cp_cases. Qed.

(** X4: whatever text it is given, [format_code] produces a code that
    [is_valid_code_format] accepts exactly when the text has 5, 6 or 7
    digits. *)
Theorem formatted_code_valid_iff (D : N -> bool) (raw : text) :
  is_valid_code_format D (format_code raw)
  = (5 <=? length (clean_code raw))%nat && (length (clean_code raw) <=? 7)%nat.
Proof.
  pose proof (clean_code_digits raw) as Hd. unfold format_code.
  set (c := clean_code raw) in *.
  assert (Hno : forall l, Forall (fun x => is_ascii_digit x = true) l ->
                          Forall (fun x => (x =? 95)%N = false) l).
  { intros l H. eapply List.Forall_impl; [| exact H]. apply digit_not_underscore. }
  assert (Hkeep : forall l, Forall (fun x => is_ascii_digit x = true) l ->
                            List.filter (fun x => negb (x =? 95)%N) l = l).
  { intros l H. apply filter_all. eapply List.Forall_impl; [| exact H].
    intros x Hx. rewrite (digit_not_underscore x Hx). reflexivity. }
  assert (Hcls : forall l, Forall (fun x => is_ascii_digit x = true) l ->
                           forallb (fun x => re_digit D x || (x =? 95)%N) l = true).
  { intros l H. apply forallb_forall. intros x Hx. rewrite Forall_forall in H.
    rewrite (digit_re_digit D x); [reflexivity |]. apply H, list_elem_of_In, Hx. }
  destruct (Nat.leb_spec (length c) 3) as [Hle | Hgt].
  - unfold is_valid_code_format, digits_and_underscores.
    destruct c as [| x c'] eqn:Ec; [reflexivity |]. rewrite <- Ec in *.
    rewrite Hcls by exact Hd. cbn [negb].
    rewrite split_on_no_sep by (apply Hno, Hd). cbn [tail existsb].
    rewrite Hkeep by exact Hd.
    destruct (length c) as [| [| [| [| n]]]]; try reflexivity; lia.
  - set (a := take (length c - 3) c). set (b := drop (length c - 3) c).
    assert (Hab : a ++ b = c) by apply take_drop.
    assert (Ha : Forall (fun x => is_ascii_digit x = true) a)
      by (rewrite <- Hab in Hd; apply Forall_app in Hd; tauto).
    assert (Hb : Forall (fun x => is_ascii_digit x = true) b)
      by (rewrite <- Hab in Hd; apply Forall_app in Hd; tauto).
    assert (Hlb : length b = 3%nat) by (unfold b; rewrite length_drop; lia).
    assert (Hla : (length a + 3 = length c)%nat)
      by (rewrite <- Hab, length_app; lia).
    unfold is_valid_code_format, digits_and_underscores.
    change (u "_" ++ b) with (95%N :: b).
    destruct (a ++ 95%N :: b) as [| x rest] eqn:Ex;
      [destruct a; discriminate Ex |]. rewrite <- Ex.
    rewrite forallb_app. cbn [forallb]. rewrite !Hcls by assumption.
    rewrite N.eqb_refl, orb_true_r. cbn [andb negb].
    rewrite split_on_app by (apply Hno, Ha).
    rewrite split_on_no_sep by (apply Hno, Hb). cbn [tail existsb].
    rewrite Hlb. cbn [Nat.eqb negb orb].
    rewrite List.filter_app. cbn [List.filter]. rewrite N.eqb_refl. cbn [negb].
    rewrite !Hkeep by assumption. rewrite length_app, Hlb.
    destruct (length c) as [| [| [| [| [| [| [| [| n]]]]]]]] eqn:El; simpl in Hla;
      try lia;
      try (replace (length a) with 1%nat by lia; reflexivity);
      try (replace (length a) with 2%nat by lia; reflexivity);
      try (replace (length a) with 3%nat by lia; reflexivity);
      try (replace (length a) with 4%nat by lia; reflexivity).
    replace (length a + 3)%nat with (S (S (S (S (S (S (S (S n)))))))) by lia.
    reflexivity.
Qed.

(** ** The group registry *)





Lemma has_username_spec (username : text) (gs : list (Z * group)) :
  existsb (has_username username) gs = true
  <-> username ∈ map (fun g => gr_username g.2) gs.
Proof.
  rewrite existsb_exists, list_elem_of_In, in_map_iff. unfold has_username. split.
  - intros (g & Hin & E). apply text_eqb_spec in E. eauto.
  - intros (g & E & Hin). exists g. split; [exact Hin |]. apply text_eqb_spec. exact E.
Qed.

Lemma groups_set_usernames (k : Z) (g : group) (gs : list (Z * group)) (x : text) :
  x ∈ map (fun g => gr_username g.2) (groups_set k g gs) ->
  x = gr_username g \/ x ∈ map (fun g => gr_username g.2) gs.
Proof.
  induction gs as [| [k' g'] gs IH]; simpl.
  - intros H. apply elem_of_cons in H as [-> | H]; [auto | inversion H].
  - destruct (k =? k'); simpl; intros H; apply elem_of_cons in H as [-> | H]; auto.
    + right. right. exact H.
    + right. left.
    + destruct (IH H) as [-> | Hin]; [auto |]. right. right. exact Hin.
Qed.

Lemma groups_set_has (k : Z) (g : group) (gs : list (Z * group)) :
  (k, g) ∈ groups_set k g gs.
Proof.
  induction gs as [| [k' g'] gs IH]; simpl; [left |].
  destruct (k =? k'); [left | right; exact IH].
Qed.

Lemma groups_set_keys (k : Z) (g : group) (gs : list (Z * group)) :
  map fst (groups_set k g gs)
  = if existsb (fun kg => k =? kg.1) gs then map fst gs else map fst gs ++ [k].
Proof.
  induction gs as [| [k' g'] gs IH]; simpl; [reflexivity |].
  destruct (Z.eqb_spec k k') as [-> | Hne]; simpl; [reflexivity |].
  rewrite IH. destruct (existsb _ gs); reflexivity.
Qed.

Lemma groups_set_length (k : Z) (g : group) (gs : list (Z * group)) :
  (length gs <= length (groups_set k g gs) <= S (length gs))%nat.
Proof.
  pose proof (f_equal (@length Z) (groups_set_keys k g gs)) as E.
  rewrite length_map in E. rewrite E.
  destruct (existsb _ gs); rewrite ?length_app, !length_map; simpl; lia.
Qed.

Lemma groups_set_usernames_distinct (k : Z) (username link : text) (gs : list (Z * group)) :
  existsb (has_username username) gs = false ->
  usernames_distinct gs ->
  usernames_distinct (groups_set k (mkGroup username link username) gs).
Proof.
  unfold usernames_distinct. intros Hnew Hd.
  assert (Hnot : username ∉ map (fun g => gr_username g.2) gs).
  { intros H. apply has_username_spec in H. congruence. }
  clear Hnew. induction gs as [| [k' g'] gs IH]; simpl.
  - constructor; [intros H; inversion H | constructor].
  - simpl in Hd, Hnot. apply NoDup_cons in Hd as [Hg' Hd].
    apply not_elem_of_cons in Hnot as [Hne Hnot].
    destruct (k =? k'); simpl.
    + apply NoDup_cons. auto.
    + apply NoDup_cons. split; [| auto].
      intros H. apply groups_set_usernames in H as [H | H]; simpl in H; congruence.
Qed.

Lemma groups_set_ids_distinct (k : Z) (g : group) (gs : list (Z * group)) :
  ids_distinct gs -> ids_distinct (groups_set k g gs).
Proof.
  unfold ids_distinct. intros Hd. rewrite groups_set_keys.
  destruct (existsb (fun kg => k =? kg.1) gs) eqn:E; [exact Hd |].
  apply NoDup_app. split; [exact Hd |]. split; [| apply NoDup_singleton].
  intros x Hx Hk. apply list_elem_of_singleton in Hk. subst x.
  apply list_elem_of_fmap in Hx as ([k' g'] & Hk & Hin). simpl in Hk. subst k'.
  assert (existsb (fun kg => k =? kg.1) gs = true).
  { apply existsb_exists. exists (k, g'). split; [apply list_elem_of_In; exact Hin |].
    apply Z.eqb_refl. }
  congruence.
Qed.

Lemma clear_temp_group_lookup (ud : gmap Z user_rec) (user_id : Z) :
  (clear_temp_group ud user_id !! user_id ≫= ud_temp_group) = None.
Proof.
  unfold clear_temp_group. destruct (ud !! user_id) as [r |] eqn:E.
  - destruct (ud_temp_group r) eqn:Et.
    + rewrite lookup_insert_eq. reflexivity.
    + rewrite E. simpl. exact Et.
  - rewrite E. reflexivity.
Qed.

Lemma confirm_group_addition_registers (py_hash : text -> Z) (b : bot) (user_id : Z)
    (r : user_rec) (username link : text) :
  user_data b !! user_id = Some r ->
  ud_temp_group r = Some (username, link) ->
  existsb (has_username username)
          (groups_of (confirm_group_addition py_hash b user_id).1.1 user_id) = true.
Proof.
  intros Hr Ht. unfold confirm_group_addition. rewrite Hr. simpl. rewrite Ht.
  destruct (existsb (has_username username) (groups_of b user_id)) eqn:Hex; cbn [fst].
  - unfold groups_of at 1. simpl. rewrite lookup_insert_eq. exact Hex.
  - unfold groups_of at 1. simpl. rewrite lookup_insert_eq. simpl.
    apply has_username_spec, list_elem_of_fmap.
    exists (pseudo_id py_hash username, mkGroup username link username).
    split; [reflexivity | apply groups_set_has].
Qed.

(** X6: confirming a staged group.  Afterwards a group with the staged
    username is registered for the owner and nothing is staged any more;
    usernames and keys of the owner's groups stay pairwise different; the
    number of groups grows by one at most; other owners' groups are not
    touched.  When the username was registered already nothing changes and
    nothing is saved. *)
Theorem confirm_group_addition_spec (py_hash : text -> Z) (b : bot) (user_id : Z)
    (r : user_rec) (username link : text) :
  user_data b !! user_id = Some r ->
  ud_temp_group r = Some (username, link) ->
  let res := confirm_group_addition py_hash b user_id in
  let b' := res.1.1 in
  existsb (has_username username) (groups_of b' user_id) = true
  /\ (user_data b' !! user_id ≫= ud_temp_group) = None
  /\ (usernames_distinct (groups_of b user_id) ->
      usernames_distinct (groups_of b' user_id))
  /\ (ids_distinct (groups_of b user_id) -> ids_distinct (groups_of b' user_id))
  /\ (length (groups_of b user_id) <= length (groups_of b' user_id)
      <= S (length (groups_of b user_id)))%nat
  /\ (forall other, other <> user_id -> groups_of b' other = groups_of b other)
  /\ (existsb (has_username username) (groups_of b user_id) = true ->
      groups_of b' user_id = groups_of b user_id
      /\ res.1.2 = reply_group_exists /\ res.2 = None)
  /\ (existsb (has_username username) (groups_of b user_id) = false ->
      res.1.2 = reply_group_added username
      /\ res.2 = Some (user_groups b')).
Proof.
  intros Hr Ht res b'. subst res b'. unfold confirm_group_addition.
  rewrite Hr. simpl. rewrite Ht.
  destruct (existsb (has_username username) (groups_of b user_id)) eqn:Hex; cbn [fst snd].
  - assert (E : forall u0, groups_of
                  (set_user_data
                     (set_user_groups b (<[user_id := groups_of b user_id]> (user_groups b)))
                     (clear_temp_group (user_data b) user_id)) u0 = groups_of b u0).
    { intros u0. unfold groups_of. simpl.
      destruct (decide (u0 = user_id)) as [-> | Hne].
      - rewrite lookup_insert_eq. reflexivity.
      - rewrite lookup_insert_ne by congruence. reflexivity. }
    rewrite !E. repeat split; auto; try lia; try discriminate.
    apply clear_temp_group_lookup.
  - set (mine := groups_of b user_id) in *.
    set (new := groups_set (pseudo_id py_hash username) (mkGroup username link username) mine).
    assert (E : groups_of
                  (set_user_data
                     (set_user_groups b (<[user_id := new]> (user_groups b)))
                     (clear_temp_group (user_data b) user_id)) user_id = new).
    { unfold groups_of. simpl. rewrite lookup_insert_eq. reflexivity. }
    rewrite E. repeat split; try discriminate.
    + apply has_username_spec, list_elem_of_fmap.
      exists (pseudo_id py_hash username, mkGroup username link username).
      split; [reflexivity | apply groups_set_has].
    + apply clear_temp_group_lookup.
    + apply groups_set_usernames_distinct. exact Hex.
    + apply groups_set_ids_distinct.
    + apply groups_set_length.
    + apply groups_set_length.
    + intros other Hne. unfold groups_of. simpl.
      rewrite lookup_insert_ne by congruence. reflexivity.
Qed.

Lemma confirm_group_addition_spec_witness :
  map (fun g => gr_username g.2)
      (groups_of (confirm_group_addition Sample2.sum_hash Sample2.staged_bot 7).1.1 7)
  = [u "ab"]
  /\ existsb (has_username (u "ab"))
       (groups_of (confirm_group_addition Sample2.sum_hash Sample2.staged_bot 7).1.1 7)
     = true.
Proof.
  split; [vm_compute; reflexivity |].
  exact (proj1 (confirm_group_addition_spec Sample2.sum_hash Sample2.staged_bot 7
                  (mkUserRec (Some confirming_group) None None
                     (Some (u "ab", u "https://t.me/ab")) None None)
                  (u "ab") (u "https://t.me/ab") eq_refl eq_refl)).
Defined.

Lemma groups_set_replaces (k : Z) (g old : group) (gs : list (Z * group)) :
  NoDup (map fst gs) -> (k, old) ∈ gs ->
  exists pre post, gs = pre ++ (k, old) :: post
                   /\ groups_set k g gs = pre ++ (k, g) :: post.
Proof.
  induction gs as [| [k' g'] gs IH]; intros Hd Hin; [inversion Hin |].
  simpl in Hd. apply NoDup_cons in Hd as [Hk' Hd]. simpl.
  destruct (Z.eqb_spec k k') as [<- | Hne].
  - apply elem_of_cons in Hin as [[= <-] | Hin].
    + exists [], gs. split; reflexivity.
    + exfalso. apply Hk'. apply list_elem_of_fmap. exists (k, old). auto.
  - apply elem_of_cons in Hin as [[= ? ?] | Hin]; [congruence |].
    destruct (IH Hd Hin) as (pre & post & -> & E).
    exists ((k', g') :: pre), post. rewrite E. split; reflexivity.
Qed.

(** X7: the key a group is stored under is a hash of its username cut to
    eight digits, and only usernames are compared before a group is added.
    So when the staged username is new but its key is the key of a group
    [old] the owner has, confirming puts the new group in the place of
    [old]: no group with the username of [old] is left, and the number of
    groups stays the same. *)
Theorem confirm_group_addition_collision (py_hash : text -> Z) (b : bot) (user_id : Z)
    (r : user_rec) (username link : text) (old : group) :
  user_data b !! user_id = Some r ->
  ud_temp_group r = Some (username, link) ->
  ids_distinct (groups_of b user_id) ->
  usernames_distinct (groups_of b user_id) ->
  existsb (has_username username) (groups_of b user_id) = false ->
  (pseudo_id py_hash username, old) ∈ groups_of b user_id ->
  let b' := (confirm_group_addition py_hash b user_id).1.1 in
  existsb (has_username (gr_username old)) (groups_of b' user_id) = false
  /\ existsb (has_username username) (groups_of b' user_id) = true
  /\ length (groups_of b' user_id) = length (groups_of b user_id).
Proof.
  intros Hr Ht Hids Hnames Hnew Hin b'. subst b'. unfold confirm_group_addition.
  rewrite Hr. simpl. rewrite Ht, Hnew. cbn [fst snd].
  set (mine := groups_of b user_id) in *.
  set (g := mkGroup username link username).
  assert (E : forall x y, groups_of
                (set_user_data
                   (set_user_groups b (<[user_id := x]> (user_groups b))) y) user_id = x).
  { intros x y. unfold groups_of. simpl. rewrite lookup_insert_eq. reflexivity. }
  rewrite E.
  destruct (groups_set_replaces _ g old mine Hids Hin) as (pre & post & Emine & Eset).
  rewrite Eset, Emine.
  assert (Hne : gr_username old <> username).
  { intros Heq. assert (existsb (has_username username) mine = true); [| congruence].
    apply has_username_spec, list_elem_of_fmap. exists (pseudo_id py_hash username, old).
    auto. }
  unfold usernames_distinct in Hnames. rewrite Emine, map_app in Hnames. simpl in Hnames.
  apply NoDup_app in Hnames as (_ & Hpre & Hpost).
  apply NoDup_cons in Hpost as [Hpost _].
  split; [| split].
  - destruct (existsb (has_username (gr_username old)) (pre ++ (pseudo_id py_hash username, g) :: post))
      eqn:Hex; [| reflexivity].
    exfalso. apply has_username_spec in Hex. rewrite map_app in Hex. simpl in Hex.
    apply elem_of_app in Hex as [Hex | Hex].
    + apply (Hpre _ Hex). left.
    + apply elem_of_cons in Hex as [Hex | Hex]; [exact (Hne Hex) | exact (Hpost Hex)].
  - apply has_username_spec. rewrite map_app. simpl. apply elem_of_app. right. left.
  - rewrite !length_app. reflexivity.
Qed.

Lemma confirm_group_addition_collision_witness :
  map (fun g => gr_username g.2) (groups_of Sample2.clash_bot 7) = [u "ab"]
  /\ existsb (has_username (u "ab"))
       (groups_of (confirm_group_addition Sample2.sum_hash Sample2.clash_bot 7).1.1 7)
     = false.
Proof.
  split; [vm_compute; reflexivity |].
  refine (proj1 (confirm_group_addition_collision Sample2.sum_hash Sample2.clash_bot 7
            (mkUserRec (Some confirming_group) None None
               (Some (u "ba", u "https://t.me/ba")) None None)
            (u "ba") (u "https://t.me/ba")
            (mkGroup (u "ab") (u "https://t.me/ab") (u "ab")) _ _ _ _ _ _)).
  - vm_compute. reflexivity.
  - reflexivity.
  - vm_compute. apply NoDup_singleton.
  - vm_compute. apply NoDup_singleton.
  - vm_compute. reflexivity.
  - vm_compute. left.
Defined.

Lemma has_session_unchanged (b b' : bot) (user_id : Z) :
  telegram_accounts b' = telegram_accounts b ->
  has_session b' user_id = has_session b user_id.
Proof. unfold has_session. intros ->. reflexivity. Qed.

Lemma confirm_group_addition_accounts (py_hash : text -> Z) (b : bot) (user_id : Z) :
  telegram_accounts (confirm_group_addition py_hash b user_id).1.1 = telegram_accounts b.
Proof.
  unfold confirm_group_addition.
  destruct (user_data b !! user_id ≫= ud_temp_group) as [[username link] |]; [| reflexivity].
  destruct (existsb _ _); reflexivity.
Qed.

(** X8: from the link to the broadcast.  After an owner with a linked
    account sends a group link and confirms it, a firing of a job of that
    owner whose client connects attempts a send to the chat [@username],
    the username being the one taken out of the link. *)
Theorem added_group_is_sent_to (py_hash : text -> Z) (b : bot) (user_id : Z)
    (sent : text) (j : job) (w : platform) :
  has_session b user_id = true ->
  connect_ok w = true ->
  j_user_id j = user_id ->
  let b1 := process_group_link b user_id sent in
  let b2 := (confirm_group_addition py_hash b1 user_id).1.1 in
  (u "@" ++ link_username sent, send_ok w (u "@" ++ link_username sent))
    ∈ attempts (send_user_messages b2 j w).2.
Proof.
  intros Hs Hc Hj b1 b2.
  assert (Hreg : existsb (has_username (link_username sent)) (groups_of b2 user_id) = true).
  { eapply (confirm_group_addition_registers py_hash b1 user_id).
    - unfold b1, process_group_link. simpl. apply lookup_insert_eq.
    - reflexivity. }
  assert (Hs2 : has_session b2 user_id = true).
  { rewrite <- Hs. apply has_session_unchanged. unfold b2.
    rewrite confirm_group_addition_accounts. reflexivity. }
  unfold send_user_messages. rewrite Hj, Hs2, Hc. simpl negb. cbv iota.
  pose proof (send_loop_spec w (j_message j) (groups_of b2 user_id) 0 0) as Hloop.
  destruct (send_loop w (j_message j) (groups_of b2 user_id) 0 0) as [[y x] ev].
  destruct Hloop as (_ & _ & Hatt & _ & _). cbn [snd].
  unfold attempts in *. rewrite omap_app. apply elem_of_app. left. rewrite Hatt.
  apply has_username_spec in Hreg. apply list_elem_of_fmap in Hreg as (g & Hg & Hin).
  apply list_elem_of_fmap. exists g. split; [| exact Hin].
  unfold chat_of. rewrite <- Hg. reflexivity.
Qed.

Lemma added_group_is_sent_to_witness :
  (u "@news", true)
    ∈ attempts (send_user_messages
                  (confirm_group_addition Sample2.sum_hash
                     (process_group_link Sample.linked_bot 42 (u "https://t.me/news?x=1"))
                     42).1.1
                  Sample.hello_job Sample.a_fails).2.
Proof.
  exact (added_group_is_sent_to Sample2.sum_hash Sample.linked_bot 42
           (u "https://t.me/news?x=1") Sample.hello_job Sample.a_fails
           eq_refl eq_refl eq_refl).
Defined.

(** X9: a staged group is used once.  After the group was confirmed, and
    also after it was cancelled, nothing is staged: a further confirmation
    finds no group, registers nothing and saves nothing.  Cancelling
    leaves the registered groups as they are. *)
Theorem staged_group_is_used_once (py_hash : text -> Z) (b : bot) (user_id : Z) :
  let confirmed := (confirm_group_addition py_hash b user_id).1.1 in
  let cancelled := cancel_group_addition b user_id in
  confirm_group_addition py_hash confirmed user_id
  = (confirmed, reply_no_staged_group, None)
  /\ confirm_group_addition py_hash cancelled user_id
     = (cancelled, reply_no_staged_group, None)
  /\ user_groups cancelled = user_groups b.
Proof.
  intros confirmed cancelled.
  assert (Hc : (r ← user_data confirmed !! user_id; ud_temp_group r) = None).
  { subst confirmed. unfold confirm_group_addition.
    destruct (r ← user_data b !! user_id; ud_temp_group r) as [[username link] |] eqn:E;
      [| exact E].
    destruct (existsb _ _); apply clear_temp_group_lookup. }
  assert (Hx : (r ← user_data cancelled !! user_id; ud_temp_group r) = None)
    by apply clear_temp_group_lookup.
  split; [| split; [| reflexivity]].
  - unfold confirm_group_addition at 1. rewrite Hc. reflexivity.
  - unfold confirm_group_addition. rewrite Hx. reflexivity.
Qed.

(** ** Requests, approvals and issued keys *)

(** X10: a premium request is taken once.  The first press by a user who
    is not premium records the request, saves it and leaves the bot as it
    is; it tells the admin at most once, and not at all when that message
    fails.  Any later press by the same user, as long as the request is
    pending, changes nothing and tells the admin nothing, also when the
    first notice never arrived. *)
Theorem request_premium_once (o : office) (now now' : datetime) (user_id : Z)
    (username username' : option text) (send_fails send_fails' : bool) :
  is_premium (the_bot o) now user_id = Some false ->
  is_premium (the_bot o) now' user_id = Some false ->
  pending_requests o !! user_id = None ->
  let first := button_request_premium o now user_id username send_fails in
  let o1 := first.1.1 in
  pending_requests o1 !! user_id = Some (mkRequest username now user_id)
  /\ (forall other, other <> user_id ->
        pending_requests o1 !! other = pending_requests o !! other)
  /\ file_pending_requests o1 = pending_requests o1
  /\ the_bot o1 = the_bot o
  /\ (length first.2 <= 1)%nat
  /\ (send_fails = true -> first.2 = [])
  /\ button_request_premium o1 now' user_id username' send_fails'
     = (o1, reply_request_pending (ADMIN_USERNAME (the_bot o)), []).
Proof.
  intros Hp Hp' Hnone first o1.
  assert (E : o1 = mkOffice (the_bot o)
                     (<[user_id := mkRequest username now user_id]> (pending_requests o))
                     (<[user_id := mkRequest username now user_id]> (pending_requests o))).
  { subst o1 first. unfold button_request_premium. rewrite Hp, Hnone.
    destruct (admin_set (the_bot o)); [destruct send_fails |]; reflexivity. }
  assert (N : (length first.2 <= 1)%nat /\ (send_fails = true -> first.2 = [])).
  { subst first. unfold button_request_premium. rewrite Hp, Hnone.
    destruct (admin_set (the_bot o)); [destruct send_fails |]; simpl; split; auto;
      discriminate. }
  destruct N as [N1 N2]. rewrite E. cbn [pending_requests file_pending_requests the_bot].
  split; [apply lookup_insert_eq |].
  split; [intros other Hne; apply lookup_insert_ne; congruence |].
  do 4 (split; [auto |]).
  unfold button_request_premium. cbn [pending_requests the_bot].
  rewrite Hp', lookup_insert_eq. reflexivity.
Qed.

Lemma request_premium_once_witness :
  button_request_premium Sample2.asking_office Sample.t_expiry 7 None false
  = (Sample2.asking_office, reply_request_pending (u "boss"), []).
Proof.
  exact (proj2 (proj2 (proj2 (proj2 (proj2 (proj2
           (request_premium_once (mkOffice (initial_bot (Some 1) (u "boss")) ∅ ∅)
              Sample.t0 Sample.t_expiry 7 (Some (u "bob")) None false false
              eq_refl eq_refl eq_refl))))))).
Defined.

Section Approval.

Variable U : N -> text.
Variable pd : datetime -> Z -> datetime.

(** X11: an approval by the admin of a pending request.  The user is
    premium until 30 days after the approval, the request is no longer
    pending, the three stores are saved as they are, the key made for the
    user is bound to the user, and the user is told at most once.
    Approving the same user again finds no request and changes nothing. *)
Theorem approve_user_request_spec (o : office) (now : datetime) (rnd : nat -> nat)
    (caller user_id : Z) (send_fails : option text) (user_info : request_rec) :
  is_admin (the_bot o) caller = true ->
  pending_requests o !! user_id = Some user_info ->
  let res := approve_user_request pd o now rnd caller user_id send_fails in
  let o' := res.1.1 in
  (forall later, is_premium (the_bot o') later user_id
                 = Some (dt_gt (pd now 30) later))
  /\ pending_requests o' !! user_id = None
  /\ (forall other, other <> user_id ->
        pending_requests o' !! other = pending_requests o !! other
        /\ premium_users (the_bot o') !! other = premium_users (the_bot o) !! other)
  /\ file_pending_requests o' = pending_requests o'
  /\ file_premium_users (files (the_bot o')) = premium_users (the_bot o')
  /\ file_generated_keys (files (the_bot o')) = generated_keys (the_bot o')
  /\ bound_to (the_bot o') (generate_key 12 rnd) user_id
  /\ res.2 = match send_fails with
             | Some _ => []
             | None => [Notice user_id (msg_approved (generate_key 12 rnd) (pd now 30))]
             end
  /\ (forall now2 rnd2 send_fails2,
        approve_user_request pd o' now2 rnd2 caller user_id send_fails2
        = (o', reply_request_not_found, [])).
Proof.
  intros Ha Hp res o'. subst o' res. unfold approve_user_request.
  rewrite Ha, Hp. cbn [negb].
  set (b2 := set_generated_keys _ _).
  set (o' := mkOffice (save_generated_keys (save_premium_users b2))
                      (delete user_id (pending_requests o))
                      (delete user_id (pending_requests o))).
  assert (E : (let '(x, _, _) := (match send_fails with
               | Some err => (o', reply_approve_error err, [])
               | None => (o', reply_approved (rq_username user_info) (generate_key 12 rnd),
                          [Notice user_id (msg_approved (generate_key 12 rnd) (pd now 30))])
               end) in x) = o') by (destruct send_fails; reflexivity).
  assert (E1 : (match send_fails with
               | Some err => (o', reply_approve_error err, [])
               | None => (o', reply_approved (rq_username user_info) (generate_key 12 rnd),
                          [Notice user_id (msg_approved (generate_key 12 rnd) (pd now 30))])
               end).1.1 = o') by (destruct send_fails; reflexivity).
  rewrite E1. clear E E1.
  split; [| split; [| split; [| split; [| split; [| split; [| split; [| split]]]]]]].
  - intros later. unfold is_premium. simpl. rewrite lookup_insert_eq. reflexivity.
  - simpl. apply lookup_delete_eq.
  - intros other Hne. simpl. split.
    + apply lookup_delete_ne. congruence.
    + apply lookup_insert_ne. congruence.
  - reflexivity.
  - reflexivity.
  - reflexivity.
  - unfold bound_to. simpl. rewrite lookup_insert_eq. reflexivity.
  - destruct send_fails; reflexivity.
  - intros now2 rnd2 sf2.
    change (is_admin (the_bot o') caller) with (is_admin (the_bot o) caller).
    rewrite Ha. cbn [negb]. simpl pending_requests. rewrite lookup_delete_eq. reflexivity.
Qed.

(** X12: the key an approval makes is spent from the start.  The user is
    sent the key, but its record names the user as the redeemer already,
    so whoever sends that key for redemption afterwards is answered that
    it has been used, and nothing changes. *)
Theorem approved_key_is_spent (o : office) (now : datetime) (rnd : nat -> nat)
    (caller user_id : Z) (user_info : request_rec) (sender : Z) :
  is_admin (the_bot o) caller = true ->
  pending_requests o !! user_id = Some user_info ->
  let res := approve_user_request pd o now rnd caller user_id None in
  let b' := the_bot res.1.1 in
  res.2 = [Notice user_id (msg_approved (generate_key 12 rnd) (pd now 30))]
  /\ process_key_activation U b' sender (generate_key 12 rnd)
     = (b', reply_already_used (ADMIN_USERNAME (the_bot o))).
Proof.
  intros Ha Hp res b'. subst b' res. unfold approve_user_request.
  rewrite Ha, Hp. cbn [negb fst snd]. split; [reflexivity |].
  set (b' := save_generated_keys _).
  change (ADMIN_USERNAME (the_bot o)) with (ADMIN_USERNAME b').
  apply (activation_of_bound_key U b' (generate_key 12 rnd) user_id).
  - apply generate_key_format.
  - unfold bound_to. simpl. rewrite lookup_insert_eq. reflexivity.
  - apply normalize_generate_key.
Qed.

(** X13: the life of an issued key.  A key issued at [issued] for [days]
    days and then redeemed by a user, at whatever time, makes that user
    premium until [days] days after [issued]: the time of the redemption
    plays no part, and the redemption is answered as a success also when
    that date has passed. *)
Theorem issued_key_expiry_fixed_at_issue (b : bot) (issued : datetime)
    (rnd : nat -> nat) (days : Z) (user_id : Z) :
  let key := generate_key 12 rnd in
  let b1 := (generate_premium_key pd b issued rnd days).1 in
  let redeemed := process_key_activation U b1 user_id key in
  redeemed.2 = reply_activated days (pd issued days)
  /\ bound_to redeemed.1 key user_id
  /\ forall later, is_premium redeemed.1 later user_id
                   = Some (dt_gt (pd issued days) later).
Proof.
  intros key b1 redeemed.
  assert (Hrec : generated_keys b1 !! normalize U key
                 = Some (mkKeyRecord None (pd issued days) (ADMIN_ID b) days)).
  { unfold key. rewrite normalize_generate_key. subst b1. simpl. apply lookup_insert_eq. }
  assert (Hf : match_key_format (normalize U key) = true).
  { unfold key. rewrite normalize_generate_key. apply generate_key_format. }
  pose proof (activation_success U b1 user_id key _ Hf Hrec eq_refl) as E.
  cbv zeta in E. subst redeemed. rewrite E. cbn [fst snd k_days k_expiry].
  split; [reflexivity |]. split.
  - unfold bound_to. cbn [generated_keys]. unfold key.
    rewrite (normalize_generate_key U 12 rnd), lookup_insert_eq. reflexivity.
  - intros later. unfold is_premium. cbn [premium_users].
    rewrite lookup_insert_eq. reflexivity.
Qed.

End Approval.

Lemma approve_user_request_spec_witness :
  is_premium (the_bot Sample2.approved_office) Sample.t0 7 = Some true
  /\ pending_requests Sample2.approved_office !! 7 = None.
Proof.
  pose proof (approve_user_request_spec (fun _ _ => Sample.t_expiry) Sample2.asking_office
                Sample.t0 (fun _ => 0%nat) 1 7 None
                (mkRequest (Some (u "bob")) Sample.t0 7) eq_refl eq_refl) as H.
  cbv zeta in H. destruct H as (Hprem & Hpend & _).
  split; [exact (Hprem Sample.t0) | exact Hpend].
Defined.

Lemma approved_key_is_spent_witness :
  process_key_activation Sample.ascii_only (the_bot Sample2.approved_office) 7 Sample.key_A
  = (the_bot Sample2.approved_office, reply_already_used (u "boss")).
Proof.
  exact (proj2 (approved_key_is_spent Sample.ascii_only (fun _ _ => Sample.t_expiry)
                  Sample2.asking_office Sample.t0 (fun _ => 0%nat) 1 7
                  (mkRequest (Some (u "bob")) Sample.t0 7) 7 eq_refl eq_refl)).
Defined.

(** ** Broadcasts of several owners, stopping, unlinking *)

Lemma filter_alter_irrelevant {A} (P : A -> Prop) `{Hdec : !forall x, Decision (P x)}
    (f : A -> A) (l : list A) : forall i,
  (forall x, l !! i = Some x -> ~ P x /\ ~ P (f x)) ->
  filter P (alter f i l) = filter P l.
Proof.
  induction l as [| a l IH]; intros i H; [reflexivity |].
  destruct i as [| i].
  - change (alter f 0%nat (a :: l)) with (f a :: l).
    destruct (H a eq_refl) as [Ha Hfa].
    rewrite !filter_cons. destruct (decide (P (f a))); [contradiction |].
    destruct (decide (P a)); [contradiction | reflexivity].
  - change (alter f (S i) (a :: l)) with (a :: alter f i l).
    rewrite !filter_cons, (IH i); [reflexivity |]. intros x Hx. apply H. exact Hx.
Qed.

Lemma removal_loop_others (hs : list nat) (other : Z) : forall b,
  (forall i j, i ∈ hs -> queue b !! i = Some j -> j_user_id j <> other) ->
  active_jobs (List.last (removal_loop b hs) b) other = active_jobs b other.
Proof.
  induction hs as [| h hs IH]; intros b H; [reflexivity |].
  cbn [removal_loop]. cbv zeta. rewrite last_cons_default.
  rewrite IH.
  - unfold active_jobs. rewrite queue_schedule_removal.
    apply filter_alter_irrelevant. intros x Hx.
    assert (Hne : j_user_id x <> other) by (apply (H h x); [left | exact Hx]).
    split; intros [_ Hu]; apply Hne; exact Hu.
  - intros i j Hi Hj. rewrite queue_schedule_removal in Hj.
    rewrite list_lookup_alter in Hj. destruct (decide (h = i)) as [<- | Hne].
    + destruct (queue b !! h) as [j0 |] eqn:E; simpl in Hj; [| discriminate Hj].
      injection Hj as <-. apply (H h j0); [left | exact E].
    + apply (H i j); [right; exact Hi | exact Hj].
Qed.

Lemma wound_down_owner (q q' : list job) (i : nat) (j : job) :
  wound_down q q' -> q !! i = Some j ->
  exists j', q' !! i = Some j' /\ j_user_id j' = j_user_id j.
Proof.
  intros H Hi. destruct (Forall2_lookup_l _ _ _ _ _ H Hi) as (j' & Hj' & [-> | ->]);
    eexists; split; eauto.
Qed.

Lemma jobs_owned_wound (b b' : bot) :
  jobs_owned b -> wound_down (queue b) (queue b') ->
  (forall owner hs, message_jobs b' !! owner = Some hs ->
                    message_jobs b !! owner = Some hs) ->
  jobs_owned b'.
Proof.
  intros Ho Hw Hm owner hs i Hhs Hi.
  destruct (Ho owner hs i (Hm _ _ Hhs) Hi) as (j & Hj & Hu).
  destruct (wound_down_owner _ _ _ _ Hw Hj) as (j' & Hj' & Hu').
  exists j'. split; [exact Hj' | congruence].
Qed.

(** What the cancelling block does to the jobs of the others. *)
Lemma cancel_jobs_others (b : bot) (user_id : Z) :
  jobs_owned b ->
  let bl := List.last (cancel_jobs b user_id) b in
  jobs_owned bl
  /\ wound_down (queue b) (queue bl)
  /\ message_jobs bl = delete user_id (message_jobs b)
  /\ (job_queue b = None -> job_queue bl = None)
  /\ forall other, other <> user_id -> active_jobs bl other = active_jobs b other.
Proof.
  intros Ho. unfold cancel_jobs.
  destruct (message_jobs b !! user_id) as [hs |] eqn:Hmj; cbv zeta.
  - destruct (removal_loop_spec hs b) as (_ & Hw & Hm & _ & _).
    rewrite last_last.
    set (b1 := List.last (removal_loop b hs) b) in *.
    split; [| split; [| split; [| split]]].
    + apply (jobs_owned_wound b); [exact Ho | exact Hw |].
      intros owner hs' Hl. simpl in Hl. rewrite Hm in Hl.
      apply lookup_delete_Some in Hl. apply Hl.
    + exact Hw.
    + simpl. rewrite Hm. reflexivity.
    + intros Hq. simpl. unfold wound_down, queue in Hw. rewrite Hq in Hw. simpl in Hw.
      clear -Hq. subst b1. revert b Hq.
      induction hs as [| h hs IH]; intros b Hq; [exact Hq |].
      cbn [removal_loop]. cbv zeta. rewrite last_cons_default. apply IH.
      unfold schedule_removal. simpl. rewrite Hq. reflexivity.
    + intros other Hne.
      change (active_jobs (set_message_jobs b1 (delete user_id (message_jobs b1))) other)
        with (active_jobs b1 other).
      apply removal_loop_others. intros i j Hi Hj.
      destruct (Ho user_id hs i Hmj Hi) as (j0 & Hj0 & Hu). congruence.
  - simpl. split; [exact Ho |]. split; [apply wound_down_refl |].
    split; [symmetry; apply delete_id; exact Hmj |]. auto.
Qed.

Lemma stop_scheduled_messages_last (b : bot) (user_id : Z) :
  (stop_scheduled_messages b user_id).1 = List.last (cancel_jobs b user_id) b.
Proof.
  unfold stop_scheduled_messages, stop_scheduled_messages_steps. cbn [fst].
  apply last_cons_default.
Qed.

Lemma jobs_owned_stop (b : bot) (user_id : Z) :
  jobs_owned b -> jobs_owned (stop_scheduled_messages b user_id).1.
Proof. intros Ho. rewrite stop_scheduled_messages_last. apply cancel_jobs_others, Ho. Qed.

(** The state a start ends in: the one it was called in, the one after the
    cancelling block, or that one with the new job at the end of the queue. *)
Lemma apply_message_interval_last (b : bot) (user_id interval : Z) (raised : option text) :
  let b1 := set_user_data b (set_interval (user_data b) user_id interval) in
  let b2 := List.last (cancel_jobs b1 user_id) b1 in
  let b' := (apply_message_interval b user_id interval raised).1 in
  b' = b
  \/ b' = b2
  \/ exists q message,
       job_queue b2 = Some q
       /\ b' = set_message_jobs
                 (set_job_queue b2
                    (Some (q ++ [mkJob (job_name user_id) (interval * 60) 5 user_id
                                       message false])))
                 (<[user_id := [length q]]> (message_jobs b2)).
Proof.
  intros b1 b2 b'. subst b'. unfold apply_message_interval, apply_message_interval_steps.
  destruct (job_queue b) as [q0 |] eqn:Hq; [| left; reflexivity].
  destruct (stored_message b user_id) as [message |]; [| left; reflexivity].
  fold b1. fold b2. destruct raised as [err |]; cbn [fst].
  - right. left. rewrite !last_cons_default. reflexivity.
  - right. right. unfold run_repeating.
    destruct (job_queue b2) as [q |] eqn:Hq2.
    + exists q, message. split; [reflexivity |].
      cbn [fst default].
      replace (b :: b1 :: cancel_jobs b1 user_id ++
                 [set_job_queue b2 (Some (q ++ [mkJob (job_name user_id) (interval * 60) 5
                                                    user_id message false]));
                  set_message_jobs
                    (set_job_queue b2 (Some (q ++ [mkJob (job_name user_id) (interval * 60) 5
                                                       user_id message false])))
                    (<[user_id := [length q]]>
                       (message_jobs
                          (set_job_queue b2
                             (Some (q ++ [mkJob (job_name user_id) (interval * 60) 5
                                                user_id message false])))))])
        with ((b :: b1 :: cancel_jobs b1 user_id ++
                 [set_job_queue b2 (Some (q ++ [mkJob (job_name user_id) (interval * 60) 5
                                                    user_id message false]))]) ++
              [set_message_jobs
                 (set_job_queue b2 (Some (q ++ [mkJob (job_name user_id) (interval * 60) 5
                                                    user_id message false])))
                 (<[user_id := [length q]]> (message_jobs b2))]).
      * apply last_last.
      * simpl. rewrite <- app_assoc. reflexivity.
    + exfalso.
      assert (Hw : wound_down (queue b1) (queue b2)).
      { unfold b2, cancel_jobs. destruct (message_jobs b1 !! user_id) as [hs |].
        - rewrite last_last. apply (removal_loop_spec hs b1).
        - apply wound_down_refl. }
      assert (Hn : forall hs b0, job_queue b0 <> None ->
                     job_queue (List.last (removal_loop b0 hs) b0) <> None).
      { induction hs as [| h hs IH]; intros b0 H0; [exact H0 |].
        cbn [removal_loop]. cbv zeta. rewrite last_cons_default. apply IH.
        unfold schedule_removal. simpl. destruct (job_queue b0); [discriminate | congruence]. }
      revert Hq2. unfold b2, cancel_jobs.
      destruct (message_jobs b1 !! user_id) as [hs |].
      * rewrite last_last. simpl. apply Hn. unfold b1. simpl. congruence.
      * simpl. congruence.
Qed.

Lemma jobs_owned_apply (b : bot) (user_id interval : Z) (raised : option text) :
  jobs_owned b -> jobs_owned (apply_message_interval b user_id interval raised).1.
Proof.
  intros Ho.
  assert (Ho1 : jobs_owned (set_user_data b (set_interval (user_data b) user_id interval)))
    by exact Ho.
  destruct (cancel_jobs_others _ user_id Ho1) as (Ho2 & Hw & Hm & _ & _).
  destruct (apply_message_interval_last b user_id interval raised)
    as [-> | [-> | (q & message & Hq & ->)]]; [exact Ho | exact Ho2 |].
  intros owner hs i Hhs Hi. unfold queue. simpl in *.
  destruct (decide (owner = user_id)) as [-> | Hne].
  - rewrite lookup_insert_eq in Hhs. injection Hhs as <-.
    apply list_elem_of_singleton in Hi. subst i.
    eexists. split; [apply list_lookup_middle; reflexivity | reflexivity].
  - rewrite lookup_insert_ne in Hhs by congruence.
    destruct (Ho2 owner hs i Hhs Hi) as (j & Hj & Hu).
    exists j. split; [| exact Hu].
    unfold queue in Hj. rewrite Hq in Hj. simpl in Hj.
    apply lookup_app_l_Some. exact Hj.
Qed.

Lemma initial_bot_owned (admin_id : option Z) (admin_username : text) :
  jobs_owned (initial_bot admin_id admin_username).
Proof. intros owner hs i H. simpl in H. rewrite lookup_empty in H. discriminate H. Qed.

(** X14: broadcasts of different owners do not touch each other.  In a
    state where every listed handle points at a job of its owner, a start
    or a stop by one owner leaves the jobs that will still fire for any
    other owner, and what is listed for that owner, as they are; and the
    state it ends in is again such a state. *)
Theorem other_owners_jobs_untouched (b : bot) (user_id interval : Z)
    (raised : option text) (other : Z) :
  jobs_owned b -> other <> user_id ->
  let started := (apply_message_interval b user_id interval raised).1 in
  let stopped := (stop_scheduled_messages b user_id).1 in
  active_jobs started other = active_jobs b other
  /\ message_jobs started !! other = message_jobs b !! other
  /\ active_jobs stopped other = active_jobs b other
  /\ message_jobs stopped !! other = message_jobs b !! other
  /\ jobs_owned started /\ jobs_owned stopped.
Proof.
  intros Ho Hne started stopped.
  assert (Ho1 : jobs_owned (set_user_data b (set_interval (user_data b) user_id interval)))
    by exact Ho.
  destruct (cancel_jobs_others _ user_id Ho1) as (_ & _ & Hm1 & _ & Ha1).
  destruct (cancel_jobs_others b user_id Ho) as (_ & _ & Hm & _ & Ha).
  split; [| split; [| split; [| split; [| split]]]].
  - subst started.
    destruct (apply_message_interval_last b user_id interval raised)
      as [-> | [-> | (q & message & Hq & ->)]]; [reflexivity | apply Ha1, Hne |].
    etransitivity; [| exact (Ha1 other Hne)].
    unfold active_jobs, queue. rewrite Hq. simpl.
    rewrite filter_app, filter_cons.
    destruct (decide (is_active other _)) as [[_ Hu] | _]; [simpl in Hu; congruence |].
    rewrite filter_nil, app_nil_r. reflexivity.
  - subst started.
    destruct (apply_message_interval_last b user_id interval raised)
      as [-> | [-> | (q & message & Hq & ->)]]; [reflexivity | |].
    + rewrite Hm1. simpl. apply lookup_delete_ne. congruence.
    + simpl. rewrite lookup_insert_ne by congruence. rewrite Hm1. simpl.
      apply lookup_delete_ne. congruence.
  - subst stopped. rewrite stop_scheduled_messages_last. apply Ha, Hne.
  - subst stopped. rewrite stop_scheduled_messages_last, Hm.
    apply lookup_delete_ne. congruence.
  - apply jobs_owned_apply, Ho.
  - apply jobs_owned_stop, Ho.
Qed.

Lemma other_owners_jobs_untouched_witness :
  active_jobs Sample2.two_broadcasts 7 = [Sample2.hi_job]
  /\ active_jobs (stop_scheduled_messages Sample2.two_broadcasts 42).1 7 = [Sample2.hi_job]
  /\ active_jobs (apply_message_interval Sample2.two_broadcasts 42 1 None).1 7
     = [Sample2.hi_job].
Proof.
  assert (H0 : jobs_owned Sample.linked_bot).
  { intros owner hs i H. simpl in H. rewrite lookup_empty in H. discriminate H. }
  assert (H1 : jobs_owned Sample.broadcasting_bot).
  { exact (jobs_owned_apply (process_message_text Sample.linked_bot 42 (u "hello"))
             42 5 None H0). }
  assert (H2 : jobs_owned Sample2.two_broadcasts).
  { exact (jobs_owned_apply (process_message_text Sample.broadcasting_bot 7 (u "hi"))
             7 10 None H1). }
  assert (Hne : (7 : Z) <> 42) by lia.
  destruct (other_owners_jobs_untouched Sample2.two_broadcasts 42 1 None 7 H2 Hne)
    as (Hstart & _ & Hstop & _).
  assert (E : active_jobs Sample2.two_broadcasts 7 = [Sample2.hi_job])
    by (vm_compute; reflexivity).
  split; [exact E |]. split; [rewrite Hstop; exact E | rewrite Hstart; exact E].
Defined.

(** X15: stopping the broadcast.  In a state where every job that will
    still fire is the one listed for its owner, after a stop no job of the
    owner is left to fire and none is listed; the user's stored message
    and interval stay.  A second stop changes nothing, and so does a stop
    by an owner for whom nothing is listed. *)
Theorem stop_scheduled_messages_spec (b : bot) (user_id : Z) :
  jobs_tracked b ->
  let b' := (stop_scheduled_messages b user_id).1 in
  active_jobs b' user_id = []
  /\ message_jobs b' !! user_id = None
  /\ user_data b' = user_data b
  /\ jobs_tracked b'
  /\ stop_scheduled_messages b' user_id = (b', reply_stopped)
  /\ (message_jobs b !! user_id = None -> b' = b).
Proof.
  intros Ht b'. subst b'. rewrite stop_scheduled_messages_last.
  destruct (cancel_jobs_spec b user_id Ht) as (_ & Ht' & Hact & Hm & Hud).
  cbv zeta in *. set (b' := List.last (cancel_jobs b user_id) b) in *.
  do 4 (split; [assumption |]). split.
  - unfold stop_scheduled_messages, stop_scheduled_messages_steps, cancel_jobs.
    rewrite Hm. reflexivity.
  - intros Hnone. subst b'. unfold cancel_jobs. rewrite Hnone. reflexivity.
Qed.

Lemma stop_scheduled_messages_spec_witness :
  active_jobs Sample.broadcasting_bot 42 = [Sample.hello_job]
  /\ active_jobs (stop_scheduled_messages Sample.broadcasting_bot 42).1 42 = [].
Proof.
  split; [vm_compute; reflexivity |].
  refine (proj1 (stop_scheduled_messages_spec Sample.broadcasting_bot 42 _)).
  intros i j Hi Hr. destruct i as [| [| i]]; [| discriminate Hi | discriminate Hi].
  vm_compute in Hi. injection Hi as <-. vm_compute. reflexivity.
Defined.

(** X16: unlinking the account.  The session, the client and the code
    hash of the account are dropped and its API data kept; other accounts
    are not touched.  The broadcast jobs are left as they are, so a job of
    the owner that is still scheduled keeps firing, and each firing from
    then on sends to no group and tells the owner that no account is
    linked.  A second unlinking finds no account and changes nothing. *)
Theorem disconnect_telegram_account_spec (b : bot) (user_id : Z) (a : account) :
  telegram_accounts b !! user_id = Some a ->
  truthy (a_session a) = true ->
  let res := disconnect_telegram_account b user_id in
  let b' := res.1.1 in
  res.1.2 = reply_disconnected
  /\ res.2 = a_client a
  /\ telegram_accounts b' !! user_id
     = Some (mkAccount (a_api_id a) (a_api_hash a) (a_phone a) None None None
                       (a_connected_at a))
  /\ (forall other, other <> user_id ->
        telegram_accounts b' !! other = telegram_accounts b !! other)
  /\ job_queue b' = job_queue b
  /\ message_jobs b' = message_jobs b
  /\ (forall j w, j_user_id j = user_id ->
        send_user_messages b' j w = (b', [ENotify user_id msg_not_connected]))
  /\ create_auto_folder b' user_id = (b', reply_folder_need_account)
  /\ disconnect_telegram_account b' user_id = (b', reply_no_account, None).
Proof.
  intros Ha Hs res b'. subst b' res.
  set (b' := save_telegram_accounts
               (set_telegram_accounts b
                  (<[user_id := mkAccount (a_api_id a) (a_api_hash a) (a_phone a)
                                  None None None (a_connected_at a)]>
                     (telegram_accounts b)))).
  assert (E : disconnect_telegram_account b user_id = (b', reply_disconnected, a_client a)).
  { unfold disconnect_telegram_account. rewrite Ha, Hs. reflexivity. }
  rewrite E. cbn [fst snd].
  assert (Hl : telegram_accounts b' !! user_id
               = Some (mkAccount (a_api_id a) (a_api_hash a) (a_phone a) None None None
                                 (a_connected_at a))).
  { subst b'. simpl. apply lookup_insert_eq. }
  assert (Hno : has_session b' user_id = false).
  { unfold has_session. rewrite Hl. reflexivity. }
  do 2 (split; [reflexivity |]). split; [exact Hl |].
  split; [intros other Hne; subst b'; simpl; apply lookup_insert_ne; congruence |].
  do 2 (split; [reflexivity |]). split; [| split].
  - intros j w Hj. unfold send_user_messages. cbv zeta. rewrite Hj, Hno. reflexivity.
  - unfold create_auto_folder. rewrite Hno. reflexivity.
  - unfold disconnect_telegram_account. rewrite Hl. reflexivity.
Qed.

Lemma disconnect_telegram_account_spec_witness :
  active_jobs (disconnect_telegram_account Sample.broadcasting_bot 42).1.1 42
  = [Sample.hello_job]
  /\ (send_user_messages (disconnect_telegram_account Sample.broadcasting_bot 42).1.1
        Sample.hello_job Sample.a_fails).2
     = [ENotify 42 msg_not_connected].
Proof.
  split; [vm_compute; reflexivity |].
  pose proof (disconnect_telegram_account_spec Sample.broadcasting_bot 42
                (mkAccount (Some 7) (Some (u "hash")) (Some (u "+998901234567"))
                           (Some (u "session")) None None (Some Sample.t0))
                eq_refl eq_refl) as H.
  cbv zeta in H. destruct H as (_ & _ & _ & _ & _ & _ & Hfire & _).
  rewrite (Hfire Sample.hello_job Sample.a_fails eq_refl). reflexivity.
Defined.

(** ** The cooldown of [test.py] and the stores on disk *)

(** X17: the cooldown of [test.py].  A resend that goes through records
    the time of the request, and a further resend less than 120 seconds
    after that time is refused before any call to the platform and changes
    nothing. *)
Theorem resend_then_wait (b : t_bot) (user_id : Z) (r : t_user_rec) (a : t_account)
    (api_id : Z) (api_hash phone code_hash : text) (now now' again again' : datetime)
    (send_code send_code' : text -> text + text) (key_error key_error' : text) :
  t_user_data b !! user_id = Some r ->
  tu_phone r = Some phone ->
  (forall last_request, tu_last_code_request r = Some last_request ->
                        120 * 1000000 <= to_micros now - to_micros last_request) ->
  t_telegram_accounts b !! user_id = Some a ->
  ta_api_id a = Some api_id -> ta_api_hash a = Some api_hash ->
  send_code phone = inl code_hash ->
  to_micros again - to_micros now' < 120 * 1000000 ->
  let first := resend_verification_code b user_id now now' send_code key_error in
  first.2 = [PConnect; PSendCode phone; PDisconnect]
  /\ (tu_last_code_request <$> t_user_data first.1.1 !! user_id) = Some (Some now')
  /\ resend_verification_code first.1.1 user_id again again' send_code' key_error'
     = (first.1.1, t_reply_wait, []).
Proof.
  intros Hr Hp Hl Ha Hid Hh Hs Hlt first. subst first.
  rewrite (resend_verification_code_proceeds b user_id r a api_id api_hash phone code_hash
             now now' send_code key_error Hr Hp Hl Ha Hid Hh Hs).
  cbn [fst snd]. split; [reflexivity |]. split.
  - simpl. rewrite lookup_insert_eq. reflexivity.
  - eapply resend_verification_code_cooldown.
    + simpl. apply lookup_insert_eq.
    + reflexivity.
    + reflexivity.
    + exact Hlt.
Qed.

Lemma resend_then_wait_witness :
  resend_verification_code
    (resend_verification_code Sample.t_waiting 42
       (mkDatetime 2025 3 9 7 7 0 1500) (mkDatetime 2025 3 9 7 7 1 0)
       (fun _ => inl (u "n3w")) []).1.1
    42 (mkDatetime 2025 3 9 7 9 0 999999) (mkDatetime 2025 3 9 7 9 1 0)
    (fun _ => inl (u "n3xt")) []
  = ((resend_verification_code Sample.t_waiting 42
        (mkDatetime 2025 3 9 7 7 0 1500) (mkDatetime 2025 3 9 7 7 1 0)
        (fun _ => inl (u "n3w")) []).1.1,
     t_reply_wait, []).
Proof.
  refine (proj2 (proj2 (resend_then_wait Sample.t_waiting 42
            (mkTUserRec (Some (u "+998901234567")) (Some Sample.t0) (Some (u "c0de")) (Some 0))
            (mkTAccount (Some 7) (Some (u "hash")))
            7 (u "hash") (u "+998901234567") (u "n3w")
            (mkDatetime 2025 3 9 7 7 0 1500) (mkDatetime 2025 3 9 7 7 1 0)
            (mkDatetime 2025 3 9 7 9 0 999999) (mkDatetime 2025 3 9 7 9 1 0)
            (fun _ => inl (u "n3w")) (fun _ => inl (u "n3xt")) [] []
            eq_refl eq_refl _ eq_refl eq_refl eq_refl eq_refl _))).
  - intros last_request [= <-]. vm_compute. discriminate.
  - vm_compute. reflexivity.
Defined.

Lemma reload_key_store_witness :
  reload GENERATED_KEYS_FILE
    (py_key_store [(Sample.key_A, mkKeyRecord (Some 42) Sample.t_expiry (Some 1) 30);
                   (u "PREMIUM-B", mkKeyRecord None Sample.t0 None 90)])
  = py_key_store [(Sample.key_A, mkKeyRecord (Some 42) Sample.t_expiry (Some 1) 30);
                  (u "PREMIUM-B", mkKeyRecord None Sample.t0 None 90)].
Proof.
  apply reload_key_store.
  - vm_compute. apply NoDup_cons. split; [| apply NoDup_singleton].
    intros H. apply list_elem_of_singleton in H. discriminate H.
  - constructor; [reflexivity | constructor; [reflexivity | constructor]].
Defined.

Lemma mapM_fails {A B} (f : A -> option B) (l : list A) (x : A) :
  x ∈ l -> f x = None -> mapM f l = None.
Proof.
  intros Hin Hx. induction Hin as [x l | x y l _ IH]; cbn [mapM].
  - rewrite Hx. reflexivity.
  - rewrite (IH Hx). destruct (f y); reflexivity.
Qed.

(** X20: one object that JSON cannot write costs the whole store.  When
    any record of a store holds such an object (as an account holds its
    client while a code is awaited), saving the store leaves the file cut
    short, and the next start loads the default, the empty store, in its
    place: every record is gone, not only the one with the object. *)
Theorem client_object_loses_store (p : file_path) (kvs : list (pykey * pyval))
    (k : pykey) (record : list (pykey * pyval)) (field : pykey) (id : nat) :
  (k, PDict record) ∈ kvs ->
  (field, PObject id) ∈ record ->
  save_data (PDict kvs) = Cut
  /\ reload p (PDict kvs) = PDict []
  /\ forall k' field, field_of k' field (reload p (PDict kvs)) = None.
Proof.
  intros Hk Hf.
  assert (Hrec : dump (PDict record) = None).
  { cbn [dump]. rewrite (mapM_fails _ record (field, PObject id) Hf); reflexivity. }
  assert (Hd : dump (PDict kvs) = None).
  { cbn [dump]. rewrite (mapM_fails _ kvs (k, PDict record) Hk); [reflexivity |].
    cbv beta iota. rewrite Hrec. reflexivity. }
  assert (Hs : save_data (PDict kvs) = Cut) by (unfold save_data; rewrite Hd; reflexivity).
  unfold reload. rewrite Hs. repeat split.
Qed.

Lemma client_object_loses_store_witness :
  field_of (KInt 42) "phone" (Sample.py_telegram_accounts (Some 1%nat))
  = Some (PStr (u "+998901234567"))
  /\ reload TELEGRAM_ACCOUNTS_FILE (Sample.py_telegram_accounts (Some 1%nat)) = PDict [].
Proof.
  split; [reflexivity |].
  refine (proj1 (proj2 (client_object_loses_store TELEGRAM_ACCOUNTS_FILE _ (KInt 42) _
                          (KStr (u "client")) 1%nat _ _))).
  - left.
  - vm_compute. do 3 right. left.
Defined.


(** ** Linking an account *)

Lemma serializable_insert (m : gmap Z account) (user_id : Z) (a : account) :
  serializable_accounts m = true -> a_client a = None ->
  serializable_accounts (<[user_id := a]> m) = true.
Proof.
  unfold serializable_accounts. intros Hm Ha.
  apply bool_decide_eq_true in Hm. apply bool_decide_eq_true.
  apply map_Forall_insert_2; assumption.
Qed.

Lemma serializable_lookup (m : gmap Z account) (user_id : Z) (a : account) :
  serializable_accounts m = true -> m !! user_id = Some a -> a_client a = None.
Proof.
  unfold serializable_accounts. intros Hm Ha.
  apply bool_decide_eq_true in Hm. exact (Hm user_id a Ha).
Qed.

Lemma unserializable_insert (m : gmap Z account) (user_id : Z) (a : account) (c : nat) :
  a_client a = Some c -> serializable_accounts (<[user_id := a]> m) = false.
Proof.
  unfold serializable_accounts. intros Ha. apply bool_decide_eq_false. intros H.
  specialize (H user_id a (lookup_insert_eq _ _ _)). simpl in H. congruence.
Qed.

(** The state after the phone step went through. *)
Lemma handle_waiting_phone_number_sent (b : bot) (user_id : Z) (a : account)
    (api_id : Z) (api_hash message_text phone_code_hash : text) (client : nat)
    (send_code : text -> option text) :
  telegram_accounts b !! user_id = Some a ->
  a_api_id a = Some api_id -> a_api_hash a = Some api_hash ->
  match_phone_format (strip message_text) = true ->
  send_code (strip message_text) = Some phone_code_hash ->
  let a1 := mkAccount (a_api_id a) (a_api_hash a) (Some (strip message_text))
                      (a_session a) (a_client a) (a_phone_code_hash a)
                      (a_connected_at a) in
  let b1 := save_telegram_accounts
              (set_telegram_accounts b (<[user_id := a1]> (telegram_accounts b))) in
  handle_waiting_phone_number b user_id message_text client true send_code
  = (set_user_data b1
       (<[user_id := mkUserRec (Some waiting_verification_code) None None None
                       (Some client) (Some phone_code_hash)]> (user_data b1)),
     reply_code_sent, [LConnect; LSendCode (strip message_text)]).
Proof.
  intros Ha Hid Hh Hf Hs. unfold handle_waiting_phone_number.
  rewrite Hf, Ha, Hid, Hh, Hs. reflexivity.
Qed.

(** X21: the phone and code steps of linking.  For a user who has entered
    the API data, a well-formed phone number the platform sends a code to,
    followed by a code the platform accepts, leaves the account with that
    phone number and a session, so that the broadcast and the folder find
    a linked account.  The sign-in is made with the hash of the code that
    was sent.  The user's state is still "waiting for the code"
    afterwards.  When no account held a client object the accounts file
    holds the accounts as they are. *)
Theorem linking_sets_session (b : bot) (user_id : Z) (a : account) (api_id : Z)
    (api_hash phone code phone_code_hash session_string : text) (client : nat)
    (send_code : text -> option text)
    (sign_in : text -> text -> text -> sign_in_result) :
  telegram_accounts b !! user_id = Some a ->
  a_api_id a = Some api_id -> a_api_hash a = Some api_hash ->
  match_phone_format (strip phone) = true ->
  send_code (strip phone) = Some phone_code_hash ->
  sign_in (strip phone) phone_code_hash (strip code) = SignedIn session_string ->
  session_string <> [] ->
  let sent := handle_waiting_phone_number b user_id phone client true send_code in
  let linked := handle_waiting_verification_code sent.1.1 user_id code sign_in in
  sent.2 = [LConnect; LSendCode (strip phone)]
  /\ linked.2 = [LSignIn (strip phone) phone_code_hash (strip code)]
  /\ linked.1.2 = reply_connected
  /\ has_session linked.1.1 user_id = true
  /\ (a_phone <$> telegram_accounts linked.1.1 !! user_id) = Some (Some (strip phone))
  /\ (ud_state <$> user_data linked.1.1 !! user_id)
     = Some (Some waiting_verification_code)
  /\ (serializable_accounts (telegram_accounts b) = true ->
      file_telegram_accounts (files linked.1.1) = Some (telegram_accounts linked.1.1)).
Proof.
  intros Ha Hid Hh Hf Hs Hin Hne sent linked. subst linked sent.
  rewrite (handle_waiting_phone_number_sent b user_id a api_id api_hash phone
             phone_code_hash client send_code Ha Hid Hh Hf Hs).
  cbn [fst snd]. unfold handle_waiting_verification_code.
  cbn [user_data set_user_data telegram_accounts save_telegram_accounts
       set_telegram_accounts set_files].
  rewrite !lookup_insert_eq. cbn [mbind option_bind ud_client ud_phone_code_hash a_phone].
  rewrite Hin. cbn [fst snd].
  split; [reflexivity |]. split; [reflexivity |]. split; [reflexivity |].
  split; [| split; [| split]].
  - unfold has_session. cbn [telegram_accounts save_telegram_accounts set_telegram_accounts
                             set_files set_user_data].
    rewrite lookup_insert_eq. cbn [a_session truthy].
    destruct session_string; [contradiction | reflexivity].
  - cbn [telegram_accounts save_telegram_accounts set_telegram_accounts set_files
         set_user_data]. rewrite lookup_insert_eq. reflexivity.
  - cbn [user_data telegram_accounts save_telegram_accounts set_telegram_accounts set_files
         set_user_data]. rewrite lookup_insert_eq. reflexivity.
  - intros Hser.
    pose proof (serializable_lookup _ _ _ Hser Ha) as Hc.
    cbn [files telegram_accounts save_telegram_accounts set_telegram_accounts set_files
         set_user_data file_telegram_accounts].
    rewrite serializable_insert; [reflexivity | | exact Hc].
    apply serializable_insert; [exact Hser | exact Hc].
Qed.

Lemma linking_sets_session_witness :
  has_session Sample3.api_bot 42 = false
  /\ has_session
       (handle_waiting_verification_code
          (handle_waiting_phone_number Sample3.api_bot 42 (u " +998901234567 ") 1 true
             Sample3.first_code).1.1
          42 (u "12345") Sample3.sample_sign_in).1.1 42 = true.
Proof.
  split; [reflexivity |].
  refine (proj1 (proj2 (proj2 (proj2
            (linking_sets_session Sample3.api_bot 42
               (mkAccount (Some 7) (Some (u "hash")) None None None None None)
               7 (u "hash") (u " +998901234567 ") (u "12345") (u "h1") (u "session") 1
               Sample3.first_code Sample3.sample_sign_in
               eq_refl eq_refl eq_refl _ eq_refl _ _))))).
  - vm_compute. reflexivity.
  - vm_compute. reflexivity.
  - discriminate.
Defined.

(** X22: a resent code cannot be used.  When the user asks for a new code
    after the phone step, the new hash is stored in the account, with the
    new client, while the code step reads the hash from the user's record:
    the sign-in that follows is made with the hash of the first code.  The
    client object in the account also makes every save of the accounts
    fail from then on, so whatever the sign-in gives, the accounts file is
    left unreadable. *)
Theorem resend_leaves_stale_hash (b : bot) (user_id : Z) (a : account) (api_id : Z)
    (api_hash phone code first_hash second_hash : text) (client client' : nat)
    (send_code send_code' : text -> option text)
    (sign_in : text -> text -> text -> sign_in_result) :
  telegram_accounts b !! user_id = Some a ->
  a_api_id a = Some api_id -> a_api_hash a = Some api_hash ->
  match_phone_format (strip phone) = true ->
  send_code (strip phone) = Some first_hash ->
  send_code' (strip phone) = Some second_hash ->
  let sent := handle_waiting_phone_number b user_id phone client true send_code in
  let resent := resend_code_handler sent.1.1 user_id send_code' client' in
  let signed := handle_waiting_verification_code resent.1.1 user_id code sign_in in
  resent.2 = [PConnect; PSendCode (strip phone)]
  /\ (a_phone_code_hash <$> telegram_accounts resent.1.1 !! user_id)
     = Some (Some second_hash)
  /\ (ud_phone_code_hash <$> user_data resent.1.1 !! user_id) = Some (Some first_hash)
  /\ signed.2 = [LSignIn (strip phone) first_hash (strip code)]
  /\ file_telegram_accounts (files resent.1.1) = None
  /\ file_telegram_accounts (files signed.1.1) = None.
Proof.
  intros Ha Hid Hh Hf Hs Hs' sent resent signed. subst signed resent sent.
  rewrite (handle_waiting_phone_number_sent b user_id a api_id api_hash phone
             first_hash client send_code Ha Hid Hh Hf Hs).
  cbn [fst snd]. unfold resend_code_handler.
  cbn [user_data set_user_data telegram_accounts save_telegram_accounts
       set_telegram_accounts set_files].
  rewrite lookup_insert_eq. cbn [a_phone]. rewrite Hs'. cbn [fst snd].
  set (acc := <[user_id := _]> (<[user_id := _]> (telegram_accounts b))).
  assert (Hun : serializable_accounts acc = false).
  { subst acc. eapply unserializable_insert. reflexivity. }
  split; [reflexivity |].
  split; [subst acc; simpl; rewrite lookup_insert_eq; reflexivity |].
  split; [simpl; rewrite lookup_insert_eq; reflexivity |].
  assert (Hfile : forall b0, telegram_accounts b0 = acc ->
                    file_telegram_accounts (files (save_telegram_accounts b0)) = None).
  { intros b0 E. unfold save_telegram_accounts. simpl. rewrite E, Hun. reflexivity. }
  unfold handle_waiting_verification_code.
  cbn [user_data set_user_data telegram_accounts save_telegram_accounts
       set_telegram_accounts set_files].
  rewrite lookup_insert_eq. cbn [mbind option_bind ud_client ud_phone_code_hash].
  fold acc. assert (Hacc : acc !! user_id = Some
      (mkAccount (a_api_id a) (a_api_hash a) (Some (strip phone)) (a_session a)
                 (Some client') (Some second_hash) (a_connected_at a))).
  { subst acc. rewrite lookup_insert_eq. reflexivity. }
  rewrite Hacc. cbn [a_phone].
  split; [destruct (sign_in _ _ _); reflexivity |].
  split; [apply Hfile; reflexivity |].
  destruct (sign_in _ _ _); cbn [fst].
  - unfold save_telegram_accounts at 1. cbn [files set_files file_telegram_accounts
                                             telegram_accounts set_telegram_accounts].
    rewrite (unserializable_insert _ _ _ client'); reflexivity.
  - cbn [files set_user_data]. apply Hfile. reflexivity.
  - apply Hfile. reflexivity.
Qed.

Lemma resend_leaves_stale_hash_witness :
  (handle_waiting_verification_code
     (resend_code_handler
        (handle_waiting_phone_number Sample3.api_bot 42 (u "+998901234567") 1 true
           Sample3.first_code).1.1
        42 Sample3.second_code 2).1.1
     42 (u "12345") Sample3.sample_sign_in).2
  = [LSignIn (u "+998901234567") (u "h1") (u "12345")].
Proof.
  refine (proj1 (proj2 (proj2 (proj2
            (resend_leaves_stale_hash Sample3.api_bot 42
               (mkAccount (Some 7) (Some (u "hash")) None None None None None)
               7 (u "hash") (u "+998901234567") (u "12345") (u "h1") (u "h2") 1 2
               Sample3.first_code Sample3.second_code Sample3.sample_sign_in
               eq_refl eq_refl eq_refl _ eq_refl eq_refl))))).
  vm_compute. reflexivity.
Defined.

(** X23: the stored message does not survive the "other interval" button
    nor a group link.  Both replace the user's record as a whole, so the
    message set before is gone: a start made after either of them
    schedules no job and changes nothing, whatever the interval, until a
    new message is set. *)
Theorem stored_message_is_forgotten (b : bot) (user_id interval : Z)
    (raised : option text) (sent message : text) :
  let asked := button_custom_interval b user_id in
  let staged := process_group_link b user_id sent in
  stored_message (process_message_text b user_id message) user_id = Some message
  /\ stored_message asked user_id = None
  /\ stored_message staged user_id = None
  /\ (apply_message_interval asked user_id interval raised).1 = asked
  /\ (apply_message_interval staged user_id interval raised).1 = staged.
Proof.
  intros asked staged.
  assert (H0 : stored_message (process_message_text b user_id message) user_id
               = Some message).
  { unfold stored_message, process_message_text. simpl. rewrite lookup_insert_eq.
    reflexivity. }
  assert (H1 : stored_message asked user_id = None).
  { unfold stored_message, asked, button_custom_interval. simpl.
    rewrite lookup_insert_eq. reflexivity. }
  assert (H2 : stored_message staged user_id = None).
  { unfold stored_message, staged, process_group_link. simpl.
    rewrite lookup_insert_eq. reflexivity. }
  do 3 (split; [assumption |]).
  unfold apply_message_interval, apply_message_interval_steps. rewrite H1, H2.
  split.
  - destruct (job_queue asked); reflexivity.
  - destruct (job_queue staged); reflexivity.
Qed.
